(** * NitroGen input layer: keymap, actuation controller, raw mouse capture
      and state sampler.

    A shallow embedding of [nitrogen/input/keymap.py],
    [nitrogen/input/keyboard_mouse.py], [nitrogen/input/raw_input.py] and
    [nitrogen/input/keyboard_mouse_state.py], followed by the properties the
    specification states about them.

    Conventions.
    - Python [int] is [Z]; fixed-width ctypes fields are [Z] with the
      wrap-around written out where the code converts.
    - Python [str] is [string]: a character is a code point below
      U+0100 (ASCII and Latin-1), and on these [strip] and [lower] are
      what [str.strip] and [str.lower] are.  A [str] with a code point
      from U+0100 on is outside the model.
    - Python [set] of names is [gset string]; iterating over a set is
      [elements], an order the code does not control, so no property
      below depends on it.
    - Python [dict] is [gmap].
    - An action field holds a scalar ([None], [bool], [int], [float],
      [str]) or a list, tuple, set, mapping or other sized sequence of
      scalars.  [int] and [float] applied to a [str] are Python's own
      parsers and are parameters of the model.  A list or a tuple may
      also hold elements that cannot be hashed; [keyboard_mouse.raising]
      has the functions on such actions, with the [TypeError] of
      [set(raw)].
    - What [step] and [reset] emit is the list of their dispatch calls
      ([_key_event], [_mouse_button_event], [_mouse_move],
      [_mouse_wheel]); [perform] renders one such call on the backend.
    - The operating system is a parameter: the raw-input record behind a
      handle, as the system lays it out, and for each [sample] call the
      key states, the cursor position, the clock and the outcome of
      [poll].  The code reads the record through the structure it
      declares, whose fields do not all sit where the system writes
      them.
    - An exception is [None]: the result of a function that can raise
      is an [option].
    - The message-pump thread and the polling thread meet only inside
      [with self._lock], so a run is a sequence of handled messages and
      polls, each one step. *)

From Stdlib Require Import ZArith QArith Lia Ascii.
From stdpp Require Import gmap strings list fin_maps sets sorting.

Local Open Scope Z_scope.

(** ** Python values that can occur inside an action *)

Module Py.

(** A Python [float]: a finite value, an infinity or a NaN.  Only the
    comparison with zero and truncation to [int] are ever observed. *)
Inductive pyfloat :=
  | FFin (q : Q)
  | FInf (negative : bool)
  | FNan.

(** Hashable scalars: [None], [bool], [int], [float], [str]. *)
Inductive pyval :=
  | PNone
  | PBool (b : bool)
  | PInt (z : Z)
  | PFloat (f : pyfloat)
  | PStr (s : string).

(** What an action field can hold.  [OSeq] stands for any other sized
    iterable that is neither a [Mapping] nor a [list]/[tuple]/[set]
    (a one-dimensional array, a [range], a [deque]). *)
Inductive pyobj :=
  | OVal (v : pyval)
  | OList (xs : list pyval)
  | OTuple (xs : list pyval)
  | OSet (xs : list pyval)
  | OSeq (xs : list pyval)
  | OMapping (items : list (pyval * pyval)).

(** An element of a list or a tuple as a caller may pass it: a hashable
    scalar, or an object that cannot be hashed and that [int] and
    [float] refuse, such as a list, a dict or a set. *)
Inductive pyitem :=
  | Hashable (v : pyval)
  | Unhashable.

(** An action field as a caller may pass it: an object all of whose
    elements can be hashed, or a list or a tuple of elements that may
    not all be. *)
Inductive pyfield :=
  | FObj (o : pyobj)
  | FList (xs : list pyitem)
  | FTuple (xs : list pyitem).

(** The elements of a list or a tuple as [set] hashes them; [None] is
    the [TypeError] of an element that cannot be hashed. *)
Definition hashed (xs : list pyitem) : option (list pyval) :=
  mapM (λ x, match x with Hashable v => Some v | Unhashable => None end) xs.

(** [bool(v)] *)
Definition truthy (v : pyval) : bool :=
  match v with
  | PNone => false
  | PBool b => b
  | PInt z => negb (z =? 0)
  | PFloat (FFin q) => negb (Qnum q =? 0)
  | PFloat _ => true
  | PStr s => negb (String.eqb s EmptyString)
  end.

(** [x > 0] on floats *)
Definition float_gt0 (f : pyfloat) : bool :=
  match f with
  | FFin q => 0 <? Qnum q
  | FInf negative => negb negative
  | FNan => false
  end.

(** The least magnitude at which [float(int)] raises [OverflowError]:
    halfway between the largest double and [2^1024]. *)
Definition FLOAT_OVERFLOW : Z := 2 ^ 1024 - 2 ^ 970.

(** The characters of a [str], as iteration yields them. *)
Fixpoint chars (s : string) : list pyval :=
  match s with
  | EmptyString => []
  | String c s' => PStr (String c EmptyString) :: chars s'
  end.

(** [hasattr(o, "__len__")] together with [len(o)]. *)
Definition len (o : pyobj) : option nat :=
  match o with
  | OVal (PStr s) => Some (String.length s)
  | OVal _ => None
  | OList xs | OTuple xs | OSet xs | OSeq xs => Some (length xs)
  | OMapping items => Some (length items)
  end.

Definition sized (o : pyobj) : bool := bool_decide (is_Some (len o)).

Definition is_str (o : pyobj) : bool :=
  match o with OVal (PStr _) => true | _ => false end.

(** The values [for value in o] visits, for the sized objects. *)
Definition iter (o : pyobj) : list pyval :=
  match o with
  | OVal (PStr s) => chars s
  | OVal _ => []
  | OList xs | OTuple xs | OSet xs | OSeq xs => xs
  | OMapping items => items.*1
  end.

Definition is_mapping (o : pyobj) : bool :=
  match o with OMapping _ => true | _ => false end.

(** [k == 0] for a dictionary key, as [d[0]] finds it. *)
Definition eq0 (v : pyval) : bool :=
  match v with
  | PInt z => z =? 0
  | PBool b => negb b
  | PFloat (FFin q) => Qnum q =? 0
  | _ => false
  end.

(** [o[0]]; [None] when the subscript raises. *)
Definition item0 (o : pyobj) : option pyval :=
  match o with
  | OList xs | OTuple xs | OSeq xs => head xs
  | OMapping items => snd <$> List.find (fun kv => eq0 kv.1) items
  | OSet _ => None
  | OVal (PStr s) => head (chars s)
  | OVal _ => None
  end.

Section Builtins.
(** [int(s)] and [float(s)] for a [str] argument are Python's own
    parsers; [None] stands for [ValueError]. *)
Variable str_to_int : string → option Z.
Variable str_to_float : string → option pyfloat.

(** [int(v)]; [None] when it raises. *)
Definition int (v : pyval) : option Z :=
  match v with
  | PNone => None
  | PBool b => Some (if b then 1 else 0)
  | PInt z => Some z
  | PFloat (FFin q) => Some (Z.quot (Qnum q) (Zpos (Qden q)))
  | PFloat _ => None
  | PStr s => str_to_int s
  end.

(** [int(o)]: a container is not a number. *)
Definition int_obj (o : pyobj) : option Z :=
  match o with OVal v => int v | _ => None end.

(** [float(v)]; [None] when it raises.  The rounding of a large [int]
    is left out: it changes neither the sign nor whether the value is
    zero. *)
Definition float (v : pyval) : option pyfloat :=
  match v with
  | PNone => None
  | PBool b => Some (FFin (inject_Z (if b then 1 else 0)))
  | PInt z =>
      if Z.abs z <? FLOAT_OVERFLOW then Some (FFin (inject_Z z)) else None
  | PFloat f => Some f
  | PStr s => str_to_float s
  end.
End Builtins.

(** A decimal reading of [int(s)] and [float(s)]: an optional sign
    followed by digits.  Used to run the functions on concrete input. *)
Fixpoint digits (acc : Z) (s : string) : option Z :=
  match s with
  | EmptyString => Some acc
  | String c s' =>
      match Ascii.is_nat c with
      | Some d => digits (10 * acc + Z.of_nat d) s'
      | None => None
      end
  end.

Definition decimal_int (s : string) : option Z :=
  match s with
  | EmptyString => None
  | String "-"%char (String c s') => Z.opp <$> digits 0 (String c s')
  | String "+"%char (String c s') => digits 0 (String c s')
  | _ => digits 0 s
  end.

Definition decimal_float (s : string) : option pyfloat :=
  (fun z => FFin (inject_Z z)) <$> decimal_int s.

End Py.

(** ** keymap.py *)

Module keymap.

Definition VK_CODE : gmap string Z := list_to_map [
  ("backspace", 0x08); ("tab", 0x09); ("enter", 0x0D); ("shift", 0x10);
  ("ctrl", 0x11); ("alt", 0x12); ("pause", 0x13); ("capslock", 0x14);
  ("esc", 0x1B); ("space", 0x20); ("pageup", 0x21); ("pagedown", 0x22);
  ("end", 0x23); ("home", 0x24); ("left", 0x25); ("up", 0x26);
  ("right", 0x27); ("down", 0x28); ("insert", 0x2D); ("delete", 0x2E);
  ("0", 0x30); ("1", 0x31); ("2", 0x32); ("3", 0x33); ("4", 0x34);
  ("5", 0x35); ("6", 0x36); ("7", 0x37); ("8", 0x38); ("9", 0x39);
  ("a", 0x41); ("b", 0x42); ("c", 0x43); ("d", 0x44); ("e", 0x45);
  ("f", 0x46); ("g", 0x47); ("h", 0x48); ("i", 0x49); ("j", 0x4A);
  ("k", 0x4B); ("l", 0x4C); ("m", 0x4D); ("n", 0x4E); ("o", 0x4F);
  ("p", 0x50); ("q", 0x51); ("r", 0x52); ("s", 0x53); ("t", 0x54);
  ("u", 0x55); ("v", 0x56); ("w", 0x57); ("x", 0x58); ("y", 0x59);
  ("z", 0x5A);
  ("lshift", 0xA0); ("rshift", 0xA1); ("lctrl", 0xA2); ("rctrl", 0xA3);
  ("lalt", 0xA4); ("ralt", 0xA5);
  ("f1", 0x70); ("f2", 0x71); ("f3", 0x72); ("f4", 0x73); ("f5", 0x74);
  ("f6", 0x75); ("f7", 0x76); ("f8", 0x77); ("f9", 0x78); ("f10", 0x79);
  ("f11", 0x7A); ("f12", 0x7B) ].

Definition KEY_ALIASES : gmap string string := list_to_map [
  ("escape", "esc"); ("return", "enter"); ("control", "ctrl");
  ("lcontrol", "lctrl"); ("rcontrol", "rctrl"); ("option", "alt") ].

Definition EXTENDED_KEYS : gset string := list_to_set [
  "up"; "down"; "left"; "right"; "insert"; "delete"; "home"; "end";
  "pageup"; "pagedown"; "rctrl"; "ralt" ].

(** name -> (down flag, up flag, mouseData) *)
Definition MOUSE_BUTTON_FLAGS : gmap string (Z * Z * Z) := list_to_map [
  ("left", (0x0002, 0x0004, 0)); ("right", (0x0008, 0x0010, 0));
  ("middle", (0x0020, 0x0040, 0)); ("x1", (0x0080, 0x0100, 0x0001));
  ("x2", (0x0080, 0x0100, 0x0002)) ].

Definition MOUSE_BUTTON_VK : gmap string Z := list_to_map [
  ("left", 0x01); ("right", 0x02); ("middle", 0x04); ("x1", 0x05);
  ("x2", 0x06) ].

(** [c.isspace()] for a code point below U+0100: TAB..CR, FS..US, the
    space, NEL (U+0085) and the no-break space (U+00A0). *)
Definition is_space (c : ascii) : bool :=
  let n := N_of_ascii c in
  ((9 <=? n)%N && (n <=? 13)%N) || ((28 <=? n)%N && (n <=? 32)%N)
  || (n =? 133)%N || (n =? 160)%N.

Fixpoint lstrip (s : string) : string :=
  match s with
  | EmptyString => EmptyString
  | String c s' => if is_space c then lstrip s' else s
  end.

Definition rstrip (s : string) : string :=
  String.rev (lstrip (String.rev s)).

(** [s.strip()] *)
Definition strip (s : string) : string := rstrip (lstrip s).

(** [c.lower()] for a code point below U+0100: the letters A..Z and
    the Latin-1 capitals U+00C0..U+00DE, the multiplication sign
    U+00D7 apart, move up by 32; every other code point stays. *)
Definition lower_char (c : ascii) : ascii :=
  let n := N_of_ascii c in
  if ((65 <=? n)%N && (n <=? 90)%N)
     || ((192 <=? n)%N && (n <=? 222)%N && negb (n =? 215)%N)
  then ascii_of_N (n + 32) else c.

(** [s.lower()] *)
Fixpoint lower (s : string) : string :=
  match s with
  | EmptyString => EmptyString
  | String c s' => String (lower_char c) (lower s')
  end.

Definition normalize_key (name : string) : string :=
  let key := lower (strip name) in
  default key (KEY_ALIASES !! key).

Definition normalize_mouse_button (name : string) : string :=
  let button := lower (strip name) in
  if bool_decide (button ∈ ["mouse1"; "button1"]) then "left"
  else if bool_decide (button ∈ ["mouse2"; "button2"]) then "right"
  else if bool_decide (button ∈ ["mouse3"; "button3"]) then "middle"
  else if bool_decide (button ∈ ["mouse4"; "button4"]) then "x1"
  else if bool_decide (button ∈ ["mouse5"; "button5"]) then "x2"
  else button.

(** *** The list parsers *)

(** [raw.replace(",", " ")] *)
Fixpoint commas_to_spaces (s : string) : string :=
  match s with
  | EmptyString => EmptyString
  | String c s' =>
      String (if Ascii.eqb c "," then " "%char else c) (commas_to_spaces s')
  end.

(** [s.split(" ")]: the pieces between single spaces, empty pieces
    included; the empty string gives one empty piece. *)
Fixpoint split_spaces (s : string) : list string :=
  match s with
  | EmptyString => [EmptyString]
  | String c s' =>
      if Ascii.eqb c " " then EmptyString :: split_spaces s'
      else match split_spaces s' with
           | t :: ts => String c t :: ts
           | [] => [String c EmptyString]
           end
  end.

(** The tokens of a raw list: [[t for t in ... if t.strip()]]. *)
Definition tokens (raw : string) : list string :=
  List.filter (λ t, negb (String.eqb (strip t) EmptyString))
    (split_spaces (commas_to_spaces raw)).

(** The loop of both parsers: normalise each token, keep it when the
    table knows it and it is not yet in the result. *)
Definition parse_tokens (normalize : string → string)
    (known : string → bool) (toks : list string) : list string :=
  foldl (λ keys token,
           let norm := normalize token in
           if known norm && negb (bool_decide (norm ∈ keys))
           then keys ++ [norm] else keys) [] toks.

(** [raw] is [None] for Python's [None]; [not raw] holds for it and for
    the empty string. *)
Definition parse_key_list (raw : option string) (default : list string)
    : list string :=
  match raw with
  | None | Some EmptyString => default
  | Some raw =>
      parse_tokens normalize_key
        (λ norm, bool_decide (is_Some (VK_CODE !! norm))) (tokens raw)
  end.

Definition parse_mouse_button_list (raw : option string)
    (default : list string) : list string :=
  match raw with
  | None | Some EmptyString => default
  | Some raw =>
      parse_tokens normalize_mouse_button
        (λ norm, bool_decide (is_Some (MOUSE_BUTTON_FLAGS !! norm)))
        (tokens raw)
  end.


(** A canonical key name: an entry of the key table that normalisation
    leaves alone. *)
Definition canonical_key (k : string) : Prop :=
  is_Some (VK_CODE !! k) ∧ normalize_key k = k.

(** A canonical button name: an entry of both button tables that
    normalisation leaves alone. *)
Definition canonical_button (b : string) : Prop :=
  is_Some (MOUSE_BUTTON_FLAGS !! b) ∧ is_Some (MOUSE_BUTTON_VK !! b)
  ∧ normalize_mouse_button b = b.

End keymap.

(** ** keyboard_mouse.py *)

Module keyboard_mouse.
Import Py keymap.

(** The synthesis backend, after the constructor has settled it. *)
Inductive backend_kind := sendinput | pyautogui.

(** The per-event dispatch calls [step] and [reset] make, in order. *)
Inductive event :=
  | key_event (key : string) (is_down : bool)
  | mouse_button_event (button : string) (is_down : bool)
  | mouse_move (dx dy : Z)
  | mouse_wheel (amount : Z).

Record KeyboardMouseController := {
  dry_run : bool;
  backend : backend_kind;
  pressed_keys : gset string;
  pressed_mouse_buttons : gset string;
  key_list : option (list string);
  mouse_button_list : option (list string) }.

(** An action: the [Mapping[str, Any]] handed to [step]. *)
Abbreviation action := (gmap string pyobj).

(** A call on the controller. *)
Inductive request :=
  | do_step (act : action)
  | do_reset.

(** Truth value of an optional list: [None] and [[]] are false. *)
Definition nonempty {A} (l : option (list A)) : bool :=
  match l with Some (_ :: _) => true | _ => false end.

(** The whitelist the constructor keeps: normalised, then filtered to the
    known names when anything is left to filter. *)
Definition init_list (normalize : string → string) (known : string → bool)
    (names : option (list string)) : option (list string) :=
  let l := if nonempty names then fmap normalize <$> names else None in
  if nonempty l then List.filter known <$> l else l.

Definition known_key (name : string) : bool :=
  bool_decide (is_Some (VK_CODE !! name)).

Definition known_button (name : string) : bool :=
  bool_decide (is_Some (MOUSE_BUTTON_FLAGS !! name)).

(** Fixed-width ctypes fields: a store into one keeps the low bits. *)
Definition WORD (z : Z) : Z := z mod 2 ^ 16.
Definition DWORD (z : Z) : Z := z mod 2 ^ 32.
Definition LONG (z : Z) : Z := (z + 2 ^ 31) mod 2 ^ 32 - 2 ^ 31.

Record MOUSEINPUT := {
  mi_dx : Z; mi_dy : Z; mouseData : Z; mi_dwFlags : Z; mi_time : Z;
  mi_dwExtraInfo : Z }.

Record KEYBDINPUT := {
  wVk : Z; wScan : Z; ki_dwFlags : Z; ki_time : Z; ki_dwExtraInfo : Z }.

(** The tagged union [INPUT]: [type] is [INPUT_MOUSE] or [INPUT_KEYBOARD]. *)
Inductive INPUT :=
  | INPUT_mouse (mi : MOUSEINPUT)
  | INPUT_keyboard (ki : KEYBDINPUT).

Definition KEYEVENTF_KEYUP : Z := 0x0002.
Definition KEYEVENTF_EXTENDEDKEY : Z := 0x0001.
Definition MOUSEEVENTF_MOVE : Z := 0x0001.
Definition MOUSEEVENTF_WHEEL : Z := 0x0800.

(** What reaches the operating system or the fallback library. *)
Inductive call :=
  | SendInput (inputs : list INPUT)
  | keyDown (key : string)
  | keyUp (key : string)
  | moveRel (dx dy : Z)
  | mouseDown (button : string)
  | mouseUp (button : string)
  | scroll (amount : Z).

(** [self.backend = bk] *)
Definition set_backend (bk : backend_kind) (self : KeyboardMouseController)
    : KeyboardMouseController :=
  {| dry_run := dry_run self; backend := bk;
     pressed_keys := pressed_keys self;
     pressed_mouse_buttons := pressed_mouse_buttons self;
     key_list := key_list self;
     mouse_button_list := mouse_button_list self |}.

Section Controller.
Variable str_to_int : string → option Z.
Variable str_to_float : string → option pyfloat.
(** Whether [user32] could be loaded, and whether [pyautogui] imports. *)
Variable SENDINPUT_AVAILABLE : bool.
Variable pyautogui_available : bool.

(** The constructor.  A native backend that is not available is
    replaced by the fallback; [None] is the [ImportError] raised when the
    fallback is wanted and missing. *)
Definition __init__ (dry : bool) (bk : backend_kind)
    (keys buttons : option (list string)) : option KeyboardMouseController :=
  let self :=
    {| dry_run := dry;
       backend := bk;
       pressed_keys := ∅;
       pressed_mouse_buttons := ∅;
       key_list := init_list normalize_key known_key keys;
       mouse_button_list :=
         init_list normalize_mouse_button known_button buttons |} in
  let self :=
    match backend self with
    | sendinput =>
        if negb SENDINPUT_AVAILABLE then set_backend pyautogui self else self
    | pyautogui => self
    end in
  match backend self with
  | pyautogui => if negb pyautogui_available then None else Some self
  | sendinput => Some self
  end.

Definition _value_from_action (value : pyobj) : Z :=
  match value with
  | OVal PNone => 0
  | _ =>
      let first :=
        if sized value && negb (is_str value)
        then item0 value ≫= int str_to_int else None in
      match first with
      | Some n => n
      | None => default 0 (int_obj str_to_int value)
      end
  end.

(** The loop of [_vector_to_names] over [zip(names, raw)]; [None] is an
    exception raised by [float(value)]. *)
Fixpoint select (names : list string) (values : list pyval)
    (selected : gset string) : option (gset string) :=
  match names, values with
  | name :: names', value :: values' =>
      f ← float str_to_float value;
      select names' values'
        (if float_gt0 f then selected ∪ {[ name ]} else selected)
  | _, _ => Some selected
  end.

Definition _vector_to_names (raw : pyobj) (names : list string)
    : option (gset string) :=
  match len raw with
  | None => None
  | Some n =>
      if bool_decide (n ≠ length names) then None
      else select names (iter raw) ∅
  end.

(** The candidate names before normalisation.  The code builds a set;
    the loop after it only adds to another set, so neither order nor
    multiplicity of this collection is observable. *)
Definition candidates (raw : pyobj) : list pyval :=
  match raw with
  | OMapping items => (filter (λ kv, truthy kv.2) items).*1
  | OList xs | OTuple xs | OSet xs => xs
  | _ => []
  end.

(** The normalising loop shared by the two extractors. *)
Definition normalized_names (normalize : string → string)
    (known : string → bool) (names : list pyval) : gset string :=
  foldl (λ normalized key,
           match key with
           | PStr s =>
               let name := normalize s in
               if known name then normalized ∪ {[ name ]} else normalized
           | _ => normalized
           end) ∅ names.

Definition extract (normalize : string → string) (known : string → bool)
    (whitelist : option (list string)) (raw : pyobj) : gset string :=
  let names := candidates raw in
  let vector :=
    if nonempty whitelist && negb (is_mapping raw)
    then _vector_to_names raw (default [] whitelist) else None in
  match vector with
  | Some selected => selected
  | None => normalized_names normalize known names
  end.

Definition _extract_keys (self : KeyboardMouseController) (raw : pyobj)
    : gset string :=
  extract normalize_key known_key (key_list self) raw.

Definition _extract_buttons (self : KeyboardMouseController) (raw : pyobj)
    : gset string :=
  extract normalize_mouse_button known_button (mouse_button_list self) raw.

(** What the non-dry-run branch of [step] sends, in program order. *)
Definition step_events (keys_to_release keys_to_press buttons_to_release
    buttons_to_press : gset string) (dx dy wheel : Z) : list event :=
  ((λ key, key_event key false) <$> elements keys_to_release)
  ++ ((λ key, key_event key true) <$> elements keys_to_press)
  ++ ((λ button, mouse_button_event button false)
        <$> elements buttons_to_release)
  ++ ((λ button, mouse_button_event button true)
        <$> elements buttons_to_press)
  ++ (if bool_decide (dx ≠ 0 ∨ dy ≠ 0) then [mouse_move dx dy] else [])
  ++ (if bool_decide (wheel ≠ 0) then [mouse_wheel wheel] else []).

Definition step (self : KeyboardMouseController) (act : action)
    : KeyboardMouseController * list event :=
  let desired_keys :=
    _extract_keys self (default (OList []) (act !! "keys")) in
  let desired_buttons :=
    _extract_buttons self (default (OList []) (act !! "mouse_buttons")) in
  let dx := _value_from_action (default (OVal (PInt 0)) (act !! "mouse_dx")) in
  let dy := _value_from_action (default (OVal (PInt 0)) (act !! "mouse_dy")) in
  let wheel :=
    _value_from_action (default (OVal (PInt 0)) (act !! "mouse_wheel")) in
  let keys_to_release := pressed_keys self ∖ desired_keys in
  let keys_to_press := desired_keys ∖ pressed_keys self in
  let buttons_to_release := pressed_mouse_buttons self ∖ desired_buttons in
  let buttons_to_press := desired_buttons ∖ pressed_mouse_buttons self in
  ({| dry_run := dry_run self;
      backend := backend self;
      pressed_keys := desired_keys;
      pressed_mouse_buttons := desired_buttons;
      key_list := key_list self;
      mouse_button_list := mouse_button_list self |},
   if dry_run self then []
   else step_events keys_to_release keys_to_press buttons_to_release
          buttons_to_press dx dy wheel).

Definition reset (self : KeyboardMouseController)
    : KeyboardMouseController * list event :=
  ({| dry_run := dry_run self;
      backend := backend self;
      pressed_keys := ∅;
      pressed_mouse_buttons := ∅;
      key_list := key_list self;
      mouse_button_list := mouse_button_list self |},
   if dry_run self then []
   else ((λ key, key_event key false) <$> elements (pressed_keys self))
        ++ ((λ button, mouse_button_event button false)
              <$> elements (pressed_mouse_buttons self))).

(** *** The two synthesis backends *)

Definition _send_input (inputs : list INPUT) : list call :=
  if negb SENDINPUT_AVAILABLE then []
  else if bool_decide (length inputs = 0%nat) then []
  else [SendInput inputs].

(** The four dispatch functions.  [None] is an exception: the
    [AttributeError] of a call on [pyautogui] when the import failed and
    the name is [None]; the [NameError] of [KEYBDINPUT], [MOUSEINPUT] and
    the flag constants, which are bound only under
    [if _SENDINPUT_AVAILABLE:]; the [KeyError] of
    [MOUSE_BUTTON_FLAGS[button]]. *)
Definition _key_event (self : KeyboardMouseController) (key : string)
    (is_down : bool) : option (list call) :=
  match backend self with
  | pyautogui =>
      if negb pyautogui_available then None
      else Some (if is_down then [keyDown key] else [keyUp key])
  | sendinput =>
      match VK_CODE !! key with
      | None => Some []
      | Some vk =>
          if negb SENDINPUT_AVAILABLE then None
          else
            let flags := 0 in
            let flags :=
              if negb is_down then Z.lor flags KEYEVENTF_KEYUP else flags in
            let flags :=
              if bool_decide (key ∈ EXTENDED_KEYS)
              then Z.lor flags KEYEVENTF_EXTENDEDKEY else flags in
            Some (_send_input [INPUT_keyboard
              {| wVk := WORD vk; wScan := WORD 0; ki_dwFlags := DWORD flags;
                 ki_time := DWORD 0; ki_dwExtraInfo := 0 |}])
      end
  end.

Definition _mouse_move (self : KeyboardMouseController) (dx dy : Z)
    : option (list call) :=
  match backend self with
  | pyautogui =>
      if negb pyautogui_available then None else Some [moveRel dx dy]
  | sendinput =>
      if negb SENDINPUT_AVAILABLE then None
      else
        Some (_send_input [INPUT_mouse
          {| mi_dx := LONG dx; mi_dy := LONG dy; mouseData := DWORD 0;
             mi_dwFlags := DWORD MOUSEEVENTF_MOVE; mi_time := DWORD 0;
             mi_dwExtraInfo := 0 |}])
  end.

Definition _mouse_button_event (self : KeyboardMouseController)
    (button : string) (is_down : bool) : option (list call) :=
  match backend self with
  | pyautogui =>
      if bool_decide (button ∉ ["left"; "right"; "middle"]) then Some []
      else if negb pyautogui_available then None
      else Some (if is_down then [mouseDown button] else [mouseUp button])
  | sendinput =>
      '(down_flag, up_flag, data) ← MOUSE_BUTTON_FLAGS !! button;
      let flag := if is_down then down_flag else up_flag in
      if negb SENDINPUT_AVAILABLE then None
      else
        Some (_send_input [INPUT_mouse
          {| mi_dx := LONG 0; mi_dy := LONG 0; mouseData := DWORD data;
             mi_dwFlags := DWORD flag; mi_time := DWORD 0;
             mi_dwExtraInfo := 0 |}])
  end.

Definition _mouse_wheel (self : KeyboardMouseController) (amount : Z)
    : option (list call) :=
  match backend self with
  | pyautogui =>
      if negb pyautogui_available then None else Some [scroll amount]
  | sendinput =>
      if negb SENDINPUT_AVAILABLE then None
      else
        Some (_send_input [INPUT_mouse
          {| mi_dx := LONG 0; mi_dy := LONG 0; mouseData := DWORD amount;
             mi_dwFlags := DWORD MOUSEEVENTF_WHEEL; mi_time := DWORD 0;
             mi_dwExtraInfo := 0 |}])
  end.

(** What one dispatch call does on the active backend. *)
Definition perform (self : KeyboardMouseController) (e : event)
    : option (list call) :=
  match e with
  | key_event key is_down => _key_event self key is_down
  | mouse_button_event button is_down =>
      _mouse_button_event self button is_down
  | mouse_move dx dy => _mouse_move self dx dy
  | mouse_wheel amount => _mouse_wheel self amount
  end.

(** The backend calls of a whole trace of dispatch calls. *)
Definition physical (self : KeyboardMouseController) (evs : list event)
    : option (list call) :=
  (λ calls, concat calls) <$> mapM (perform self) evs.

(** A scripted run: the controller after each call, and what each call
    emitted. *)
Fixpoint run (self : KeyboardMouseController) (script : list action)
    : list (KeyboardMouseController * list event) :=
  match script with
  | [] => []
  | act :: script' =>
      let r := step self act in r :: run r.1 script'
  end.

Definition serve (self : KeyboardMouseController) (r : request)
    : KeyboardMouseController :=
  match r with
  | do_step act => (step self act).1
  | do_reset => (reset self).1
  end.

End Controller.

(** *** Vocabulary of the properties *)

Definition is_press (e : event) : bool :=
  match e with
  | key_event _ true | mouse_button_event _ true => true
  | _ => false
  end.

Definition is_release (e : event) : bool :=
  match e with
  | key_event _ false | mouse_button_event _ false => true
  | _ => false
  end.

(** The position of a dispatch call in the order [step] sends them:
    key releases, key presses, button releases, button presses, the move,
    the wheel. *)
Definition phase (e : event) : nat :=
  match e with
  | key_event _ false => 0
  | key_event _ true => 1
  | mouse_button_event _ false => 2
  | mouse_button_event _ true => 3
  | mouse_move _ _ => 4
  | mouse_wheel _ => 5
  end.

Definition by_phase (e1 e2 : event) : Prop := (phase e1 ≤ phase e2)%nat.

Definition is_move (e : event) : bool :=
  match e with mouse_move _ _ => true | _ => false end.

Definition is_wheel (e : event) : bool :=
  match e with mouse_wheel _ => true | _ => false end.

(** Every release in a trace comes before every press in it. *)
Definition releases_before_presses (evs : list event) : Prop :=
  ∀ i j e1 e2,
    evs !! i = Some e1 → evs !! j = Some e2 →
    is_release e1 = true → is_press e2 = true → (i < j)%nat.

(** The same controller with the dry-run flag set as given. *)
Definition with_dry_run (d : bool) (c : KeyboardMouseController)
    : KeyboardMouseController :=
  {| dry_run := d; backend := backend c;
     pressed_keys := pressed_keys c;
     pressed_mouse_buttons := pressed_mouse_buttons c;
     key_list := key_list c; mouse_button_list := mouse_button_list c |}.

(** The held-input state of a controller, as a call leaves it. *)
Definition held {A} (r : KeyboardMouseController * A)
    : gset string * gset string :=
  (pressed_keys r.1, pressed_mouse_buttons r.1).

(** The release that undoes a press. *)
Definition release_of (e : event) : event :=
  match e with
  | key_event key _ => key_event key false
  | mouse_button_event button _ => mouse_button_event button false
  | _ => e
  end.

(** A number, as a positional vector holds them: an [int], a [float] or
    a [bool], the [int] small enough for [float] to take it. *)
Definition numeric (v : pyval) : bool :=
  match v with
  | PBool _ | PFloat _ => true
  | PInt z => Z.abs z <? FLOAT_OVERFLOW
  | _ => false
  end.

(** Its value is strictly greater than zero. *)
Definition positive (v : pyval) : bool :=
  match v with
  | PBool b => b
  | PInt z => 0 <? z
  | PFloat (FFin q) => 0 <? Qnum q
  | PFloat (FInf negative) => negb negative
  | _ => false
  end.

(** A list, a tuple or another sized sequence holding the values [vs]. *)
Definition sequence_of (vs : list pyval) (raw : pyobj) : Prop :=
  raw = OList vs ∨ raw = OTuple vs ∨ raw = OSeq vs.

(** Both whitelists hold known names only. *)
Definition whitelists_known (c : KeyboardMouseController) : Prop :=
  (∀ names, key_list c = Some names →
            Forall (λ n, known_key n = true) names)
  ∧ (∀ names, mouse_button_list c = Some names →
              Forall (λ n, known_button n = true) names).

(** What one call on the controller emits. *)
Definition emitted (str_to_int : string → option Z)
    (str_to_float : string → option pyfloat)
    (self : KeyboardMouseController) (r : request) : list event :=
  match r with
  | do_step act => (step str_to_int str_to_float self act).2
  | do_reset => (reset self).2
  end.

(** Everything a sequence of calls emits, in order. *)
Fixpoint trace (str_to_int : string → option Z)
    (str_to_float : string → option pyfloat)
    (self : KeyboardMouseController) (rs : list request) : list event :=
  match rs with
  | [] => []
  | r :: rs' =>
      emitted str_to_int str_to_float self r
      ++ trace str_to_int str_to_float
           (serve str_to_int str_to_float self r) rs'
  end.

(** The inputs that are physically down, as one dispatch call changes
    them: a press holds the name, a release lets it go. *)
Definition apply_event (down : gset string * gset string) (e : event)
    : gset string * gset string :=
  match e with
  | key_event key true => (down.1 ∪ {[ key ]}, down.2)
  | key_event key false => (down.1 ∖ {[ key ]}, down.2)
  | mouse_button_event button true => (down.1, down.2 ∪ {[ button ]})
  | mouse_button_event button false => (down.1, down.2 ∖ {[ button ]})
  | _ => down
  end.


(** *** Actions with elements that cannot be hashed

    [_extract_keys] and [_extract_buttons] start with [set(raw)] when
    [raw] is a list or a tuple, and that raises [TypeError] on an
    element that cannot be hashed.  The functions below are the same
    functions on actions that may hold such elements; [None] is the
    exception, which leaves [step] before anything is sent or stored. *)
Module raising.
Section Raising.
Variable str_to_int : string → option Z.
Variable str_to_float : string → option pyfloat.

(** The field once [set(raw)] has gone through. *)
Definition set_checked (raw : pyfield) : option pyobj :=
  match raw with
  | FObj o => Some o
  | FList xs => OList <$> hashed xs
  | FTuple xs => OTuple <$> hashed xs
  end.

Definition _extract_keys (self : KeyboardMouseController) (raw : pyfield)
    : option (gset string) :=
  o ← set_checked raw;
  Some (keyboard_mouse._extract_keys str_to_float self o).

Definition _extract_buttons (self : KeyboardMouseController) (raw : pyfield)
    : option (gset string) :=
  o ← set_checked raw;
  Some (keyboard_mouse._extract_buttons str_to_float self o).

(** [int(value[0])] on an element that cannot be hashed raises inside
    the [try], and so does [int(value)] on the list: the result is 0. *)
Definition _value_from_action (value : pyfield) : Z :=
  match value with
  | FObj o => keyboard_mouse._value_from_action str_to_int o
  | FList xs | FTuple xs =>
      match xs with
      | Hashable v :: _ => default 0 (int str_to_int v)
      | _ => 0
      end
  end.

Definition step (self : KeyboardMouseController)
    (act : gmap string pyfield)
    : option (KeyboardMouseController * list event) :=
  desired_keys ←
    _extract_keys self (default (FObj (OList [])) (act !! "keys"));
  desired_buttons ←
    _extract_buttons self
      (default (FObj (OList [])) (act !! "mouse_buttons"));
  let dx :=
    _value_from_action (default (FObj (OVal (PInt 0))) (act !! "mouse_dx")) in
  let dy :=
    _value_from_action (default (FObj (OVal (PInt 0))) (act !! "mouse_dy")) in
  let wheel :=
    _value_from_action
      (default (FObj (OVal (PInt 0))) (act !! "mouse_wheel")) in
  let keys_to_release := pressed_keys self ∖ desired_keys in
  let keys_to_press := desired_keys ∖ pressed_keys self in
  let buttons_to_release := pressed_mouse_buttons self ∖ desired_buttons in
  let buttons_to_press := desired_buttons ∖ pressed_mouse_buttons self in
  Some ({| dry_run := dry_run self;
           backend := backend self;
           pressed_keys := desired_keys;
           pressed_mouse_buttons := desired_buttons;
           key_list := key_list self;
           mouse_button_list := mouse_button_list self |},
        if dry_run self then []
        else step_events keys_to_release keys_to_press buttons_to_release
               buttons_to_press dx dy wheel).

(** A call on the controller. *)
Inductive request :=
  | do_step (act : gmap string pyfield)
  | do_reset.

(** The controller after a call; a [step] that raises leaves it as it
    was. *)
Definition serve (self : KeyboardMouseController) (r : request)
    : KeyboardMouseController :=
  match r with
  | do_step act =>
      match step self act with
      | Some r => r.1
      | None => self
      end
  | do_reset => (reset self).1
  end.


End Raising.
End raising.

End keyboard_mouse.

(** ** raw_input.py *)

Module raw_input.

Definition WM_INPUT : Z := 0x00FF.
Definition WM_CLOSE : Z := 0x0010.
Definition WM_DESTROY : Z := 0x0002.
Definition WM_MOUSEWHEEL : Z := 0x020A.

Definition RIM_TYPEMOUSE : Z := 0.
Definition RI_MOUSE_WHEEL : Z := 0x0400.
Definition MOUSE_MOVE_ABSOLUTE : Z := 0x0001.

(** [ctypes.c_short(z).value]: the low sixteen bits, read as signed. *)
Definition c_short (z : Z) : Z := (z + 2 ^ 15) mod 2 ^ 16 - 2 ^ 15.

(** What a foreign function without a declared [restype] returns: a
    [c_int], the low thirty-two bits of the system's return value read
    as signed.  The system's [UINT] [0xFFFFFFFF] arrives as [-1]. *)
Definition c_int (z : Z) : Z := (z + 2 ^ 31) mod 2 ^ 32 - 2 ^ 31.

Record RAWINPUTHEADER := {
  dwType : Z; dwSize : Z; hDevice : Z; wParam : Z }.

(** The mouse record as the code declares it: three [USHORT], a
    [ULONG], two [LONG] and a [ULONG], which ctypes places at the
    offsets 0, 2, 4, 8, 12, 16 and 20. *)
Record RAWMOUSE := {
  usFlags : Z; usButtonFlags : Z; usButtonData : Z; ulRawButtons : Z;
  lLastX : Z; lLastY : Z; ulExtraInformation : Z }.

Record RAWINPUT := { header : RAWINPUTHEADER; mouse : RAWMOUSE }.

(** The mouse record as the system writes it into the buffer
    ([winuser.h]): [usFlags] at offset 0, two bytes of padding, a union
    at offset 4 that holds [usButtonFlags] at 4 and [usButtonData] at 6,
    then [ulRawButtons] at 8, [lLastX] at 12, [lLastY] at 16 and
    [ulExtraInformation] at 20.  [padding] is what the two unused bytes
    hold. *)
Record system_RAWMOUSE := {
  sys_usFlags : Z; padding : Z; sys_usButtonFlags : Z; sys_usButtonData : Z;
  sys_ulRawButtons : Z; sys_lLastX : Z; sys_lLastY : Z;
  sys_ulExtraInformation : Z }.

(** The header has the same layout on both sides. *)
Record system_RAWINPUT := {
  sys_header : RAWINPUTHEADER; sys_mouse : system_RAWMOUSE }.

(** [ctypes.cast(buf, ctypes.POINTER(RAWINPUT)).contents]: every
    declared field reads the bytes at its own offset.  [usButtonFlags],
    declared at offset 2, reads the padding; [usButtonData], declared at
    offset 4, reads the system's button flags; the system's button data,
    at offset 6, lies in the gap ctypes leaves before [ulRawButtons]
    and is read by no field.  The other fields are where the system
    writes them. *)
Definition cast (buf : system_RAWINPUT) : RAWINPUT :=
  let m := sys_mouse buf in
  {| header := sys_header buf;
     mouse :=
       {| usFlags := sys_usFlags m;
          usButtonFlags := padding m;
          usButtonData := sys_usButtonFlags m;
          ulRawButtons := sys_ulRawButtons m;
          lLastX := sys_lLastX m;
          lLastY := sys_lLastY m;
          ulExtraInformation := sys_ulExtraInformation m |} |}.

(** What the two [GetRawInputData] calls on one handle give: the [UINT]
    the size query returns, [size.value] after it, the [UINT] the read
    returns, and what the buffer then holds. *)
Record raw_read := {
  query_result : Z; size : Z; read_size : Z; buffer : system_RAWINPUT }.

(** [raw], the buffer seen through the declared structure. *)
Definition contents (r : raw_read) : RAWINPUT := cast (buffer r).

(** The fields of [RawMouseHook] that the message handler and [poll]
    share; the thread, window and ready-event fields play no part in
    what is accumulated. *)
Record RawMouseHook := {
  capture_background : bool;
  _dx : Z;
  _dy : Z;
  _wheel : Z;
  _last_abs : option (Z * Z) }.

Definition __init__ (capture_background : bool) : RawMouseHook :=
  {| capture_background := capture_background;
     _dx := 0; _dy := 0; _wheel := 0; _last_abs := None |}.

(** One critical section: read the three counters and zero them. *)
Definition poll (self : RawMouseHook) : RawMouseHook * (Z * Z * Z) :=
  ({| capture_background := capture_background self;
      _dx := 0; _dy := 0; _wheel := 0;
      _last_abs := _last_abs self |},
   (_dx self, _dy self, _wheel self)).

(** The locals [dx], [dy] of [_handle_raw_input] once the absolute-mode
    branch has run. *)
Definition motion (self : RawMouseHook) (m : RAWMOUSE) : Z * Z :=
  let dx := lLastX m in
  let dy := lLastY m in
  if bool_decide (Z.land (usFlags m) MOUSE_MOVE_ABSOLUTE ≠ 0) then
    match _last_abs self with
    | Some last => (lLastX m - last.1, lLastY m - last.2)
    | None => (dx, dy)
    end
  else (dx, dy).

(** [_last_abs] after the same branch. *)
Definition next_abs (self : RawMouseHook) (m : RAWMOUSE) : option (Z * Z) :=
  if bool_decide (Z.land (usFlags m) MOUSE_MOVE_ABSOLUTE ≠ 0)
  then Some (lLastX m, lLastY m) else _last_abs self.

(** The local [wheel]. *)
Definition wheel_of (m : RAWMOUSE) : Z :=
  if bool_decide (Z.land (usButtonFlags m) RI_MOUSE_WHEEL ≠ 0)
  then c_short (usButtonData m) else 0.

(** Whether [_handle_raw_input] gets as far as the mouse record. *)
Definition readable (r : raw_read) : bool :=
  negb (c_int (query_result r) =? 0xFFFFFFFF)
  && negb (size r =? 0)
  && (c_int (read_size r) =? size r)
  && (dwType (header (contents r)) =? RIM_TYPEMOUSE).

(** What one message adds to the three counters. *)
Definition raw_delta (self : RawMouseHook) (r : raw_read) : Z * Z * Z :=
  if readable r then
    let m := mouse (contents r) in (motion self m, wheel_of m)
  else (0, 0, 0).

Section Hook.
(** The raw-input record behind a handle, as the system hands it out. *)
Variable GetRawInputData : Z → raw_read.

Definition _handle_raw_input (self : RawMouseHook) (h_raw_input : Z)
    : RawMouseHook :=
  let r := GetRawInputData h_raw_input in
  if c_int (query_result r) =? 0xFFFFFFFF then self
  else if size r =? 0 then self
  else if negb (c_int (read_size r) =? size r) then self
  else
    let raw := contents r in
    if negb (dwType (header raw) =? RIM_TYPEMOUSE) then self
    else
      let m := mouse raw in
      let '(dx, dy) := motion self m in
      let wheel := wheel_of m in
      (* with self._lock: *)
      {| capture_background := capture_background self;
         _dx := _dx self + dx;
         _dy := _dy self + dy;
         _wheel := _wheel self + wheel;
         _last_abs := next_abs self m |}.

(** What the window procedure asks of the system besides its return
    value. *)
Inductive reply := handled | DestroyWindow | PostQuitMessage | DefWindowProc.

Definition _handle_message (self : RawMouseHook) (msg wparam lparam : Z)
    : RawMouseHook * reply :=
  if msg =? WM_INPUT then (_handle_raw_input self lparam, handled)
  else if msg =? WM_MOUSEWHEEL then
    let delta := c_short (Z.land (Z.shiftr wparam 16) 0xFFFF) in
    ({| capture_background := capture_background self;
        _dx := _dx self; _dy := _dy self;
        _wheel := _wheel self + delta;
        _last_abs := _last_abs self |}, handled)
  else if msg =? WM_CLOSE then (self, DestroyWindow)
  else if msg =? WM_DESTROY then (self, PostQuitMessage)
  else (self, DefWindowProc).

Record message := { msg : Z; wparam : Z; lparam : Z }.

(** What a message adds to the counters, from the message alone and the
    last absolute sample. *)
Definition delta (self : RawMouseHook) (m : message) : Z * Z * Z :=
  if msg m =? WM_INPUT then raw_delta self (GetRawInputData (lparam m))
  else if msg m =? WM_MOUSEWHEEL
  then (0, 0, c_short (Z.land (Z.shiftr (wparam m) 16) 0xFFFF))
  else (0, 0, 0).

(** The message pump: every dispatched message runs the handler. *)
Definition pump (self : RawMouseHook) (ms : list message) : RawMouseHook :=
  foldl (λ h m, (_handle_message h (msg m) (wparam m) (lparam m)).1) self ms.

(** The deltas a run of messages contributes, one per message. *)
Fixpoint deltas (self : RawMouseHook) (ms : list message)
    : list (Z * Z * Z) :=
  match ms with
  | [] => []
  | m :: ms' => delta self m :: deltas (pump self [m]) ms'
  end.
End Hook.

(** Componentwise sum of a list of triples. *)
Definition total (ds : list (Z * Z * Z)) : Z * Z * Z :=
  foldr (λ d acc, (d.1.1 + acc.1.1, d.1.2 + acc.1.2, d.2 + acc.2)) (0, 0, 0) ds.

(** A raw-input message whose record can be read and reports, in
    absolute mode, the pointer at [pos]. *)
Definition absolute_at (GetRawInputData : Z → raw_read) (m : message)
    (pos : Z * Z) : Prop :=
  let r := GetRawInputData (lparam m) in
  msg m = WM_INPUT
  ∧ readable r = true
  ∧ Z.land (usFlags (mouse (contents r))) MOUSE_MOVE_ABSOLUTE ≠ 0
  ∧ (lLastX (mouse (contents r)), lLastY (mouse (contents r))) = pos.

(** *** The specification's reading of a message (section 4.3) *)

(** What a dispatched message is to the specification: a raw mouse
    event in absolute or in relative mode, with the coordinates or the
    motion it reports and, when it carries the wheel flag, the signed
    wheel delta of its auxiliary data; a wheel message with its delta;
    or something to skip (a payload that cannot be read, a record that
    is not a mouse record, any other message). *)
Inductive capture_event :=
  | raw_mouse (absolute : bool) (x y : Z) (wheel : option Z)
  | wheel_message (wheel : Z)
  | skipped.

(** Whether the values are ones the system can return: two [UINT]
    return values and the size of a record of less than 2 GiB. *)
Definition system_values (r : raw_read) : Prop :=
  0 ≤ query_result r < 2 ^ 32 ∧ 0 ≤ size r < 2 ^ 31
  ∧ 0 ≤ read_size r < 2 ^ 32.

(** The event a message stands for, read off the record as the system
    lays it out. *)
Definition event_of (GetRawInputData : Z → raw_read) (m : message)
    : capture_event :=
  if msg m =? WM_INPUT then
    let r := GetRawInputData (lparam m) in
    if negb (size r =? 0) && (read_size r =? size r)
       && (dwType (sys_header (buffer r)) =? RIM_TYPEMOUSE)
    then
      let s := sys_mouse (buffer r) in
      raw_mouse
        (bool_decide (Z.land (sys_usFlags s) MOUSE_MOVE_ABSOLUTE ≠ 0))
        (sys_lLastX s) (sys_lLastY s)
        (if bool_decide (Z.land (sys_usButtonFlags s) RI_MOUSE_WHEEL ≠ 0)
         then Some (c_short (sys_usButtonData s)) else None)
    else skipped
  else if msg m =? WM_MOUSEWHEEL
  then wheel_message (c_short (Z.land (Z.shiftr (wparam m) 16) 0xFFFF))
  else skipped.

(** What an event contributes, as the specification words it: an
    absolute-mode event the move from the last stored absolute sample,
    and exactly zero when there is none; a relative-mode event the
    reported delta; a wheel flag or a wheel message its signed wheel
    delta; a skipped message nothing. *)
Definition spec_contribution (last : option (Z * Z)) (e : capture_event)
    : Z * Z * Z :=
  match e with
  | raw_mouse true x y wheel =>
      (match last with
       | Some p => (x - p.1, y - p.2)
       | None => (0, 0)
       end, default 0 wheel)
  | raw_mouse false dx dy wheel => (dx, dy, default 0 wheel)
  | wheel_message wheel => (0, 0, wheel)
  | skipped => (0, 0, 0)
  end.

(** The absolute sample stored after an event. *)
Definition spec_sample (last : option (Z * Z)) (e : capture_event)
    : option (Z * Z) :=
  match e with
  | raw_mouse true x y _ => Some (x, y)
  | _ => last
  end.

(** The contributions of a run of events, one per event. *)
Fixpoint spec_contributions (last : option (Z * Z))
    (es : list capture_event) : list (Z * Z * Z) :=
  match es with
  | [] => []
  | e :: es' =>
      spec_contribution last e :: spec_contributions (spec_sample last e) es'
  end.

(** No absolute-mode event of the run comes without an absolute sample
    before it. *)
Fixpoint sampled_before (last : option (Z * Z)) (es : list capture_event)
    : Prop :=
  match es with
  | [] => True
  | e :: es' =>
      match e with
      | raw_mouse true _ _ _ => is_Some last
      | _ => True
      end
      ∧ sampled_before (spec_sample last e) es'
  end.

(** A raw-input message whose record has the wheel bit neither in the
    system's button flags nor in the padding before them. *)
Definition wheel_free (GetRawInputData : Z → raw_read) (m : message)
    : Prop :=
  msg m = WM_INPUT →
  let s := sys_mouse (buffer (GetRawInputData (lparam m))) in
  Z.land (sys_usButtonFlags s) RI_MOUSE_WHEEL = 0
  ∧ Z.land (padding s) RI_MOUSE_WHEEL = 0.

End raw_input.

(** ** keyboard_mouse_state.py *)

Module keyboard_mouse_state.
Import keymap.

(** What the host answers during one [sample] call.  [poll] is the
    outcome of [self._raw_mouse.poll()], [None] when it raises. *)
Record host := {
  GetAsyncKeyState : Z → Z;
  GetCursorPos : Z * Z;
  poll : option (Z * Z * Z);
  time : Q }.

Record KeyboardMouseState := {
  keys : list string;
  mouse_buttons : list string;
  _prev_pos : option (Z * Z);
  (** whether [_raw_mouse is not None] *)
  _raw_mouse : bool }.

(** The returned dictionary. *)
Record snapshot := {
  timestamp : Q;
  snap_keys : list string;
  keys_vec : list Z;
  snap_mouse_buttons : list string;
  mouse_buttons_vec : list Z;
  mouse_dx : Z;
  mouse_dy : Z;
  mouse_wheel : Z;
  mouse_pos : Z * Z }.

(** The constructor loops: normalise, keep known names, drop repeats. *)
Definition configured (normalize : string → string) (known : string → bool)
    (names : list string) : list string :=
  foldl (λ acc name,
           let norm := normalize name in
           if known norm && negb (bool_decide (norm ∈ acc))
           then acc ++ [norm] else acc) [] names.

Definition known_key (name : string) : bool :=
  bool_decide (is_Some (VK_CODE !! name)).

Definition known_button (name : string) : bool :=
  bool_decide (is_Some (MOUSE_BUTTON_VK !! name)).

Definition __init__ (keys mouse_buttons : list string) (raw_mouse : bool)
    : KeyboardMouseState :=
  {| keys := configured normalize_key known_key keys;
     mouse_buttons :=
       configured normalize_mouse_button known_button mouse_buttons;
     _prev_pos := None;
     _raw_mouse := raw_mouse |}.

Definition _cursor_delta (self : KeyboardMouseState) (x y : Z)
    : KeyboardMouseState * (Z * Z * Z) :=
  let '(dx, dy) :=
    match _prev_pos self with
    | None => (0, 0)
    | Some prev => (x - prev.1, y - prev.2)
    end in
  ({| keys := keys self; mouse_buttons := mouse_buttons self;
      _prev_pos := Some (x, y); _raw_mouse := _raw_mouse self |},
   (dx, dy, 0)).

(** One of the two polling loops of [sample]: the 0/1 vector and the
    pressed names, in configuration order.  [None] is the [KeyError] of
    a name missing from the table. *)
Fixpoint pressed (w : host) (table : gmap string Z) (names : list string)
    : option (list Z * list string) :=
  match names with
  | [] => Some ([], [])
  | name :: names' =>
      vk ← table !! name;
      let is_pressed :=
        negb (Z.land (GetAsyncKeyState w vk) 0x8000 =? 0) in
      '(vec, held) ← pressed w table names';
      Some ((if is_pressed then 1 else 0) :: vec,
            if is_pressed then name :: held else held)
  end.

(** The motion branch of [sample]: the capture handle when there is one
    and its [poll] returns, cursor differencing otherwise. *)
Definition sample_motion (self : KeyboardMouseState) (w : host) (x y : Z)
    : KeyboardMouseState * (Z * Z * Z) :=
  if _raw_mouse self then
    match poll w with
    | Some d => (self, d)
    | None => _cursor_delta self x y
    end
  else _cursor_delta self x y.

Definition sample (self : KeyboardMouseState) (w : host)
    : option (KeyboardMouseState * snapshot) :=
  '(keys_vec, pressed_keys) ← pressed w VK_CODE (keys self);
  '(buttons_vec, pressed_buttons) ←
    pressed w MOUSE_BUTTON_VK (mouse_buttons self);
  let '(x, y) := GetCursorPos w in
  let '(self', (dx, dy, wheel)) := sample_motion self w x y in
  Some (self',
        {| timestamp := time w;
           snap_keys := pressed_keys;
           keys_vec := keys_vec;
           snap_mouse_buttons := pressed_buttons;
           mouse_buttons_vec := buttons_vec;
           mouse_dx := dx;
           mouse_dy := dy;
           mouse_wheel := wheel;
           mouse_pos := (x, y) |}).

(** Successive [sample] calls, one per host answer. *)
Fixpoint samples (self : KeyboardMouseState) (ws : list host)
    : option (KeyboardMouseState * list snapshot) :=
  match ws with
  | [] => Some (self, [])
  | w :: ws' =>
      '(self', s) ← sample self w;
      '(self'', ss) ← samples self' ws';
      Some (self'', s :: ss)
  end.

(** The motion triple of a snapshot. *)
Definition motion_of (s : snapshot) : Z * Z * Z :=
  (mouse_dx s, mouse_dy s, mouse_wheel s).

(** Every configured name has an entry in the table [sample] indexes. *)
Definition configured_ok (self : KeyboardMouseState) : Prop :=
  Forall (λ n, known_key n = true) (keys self)
  ∧ Forall (λ n, known_button n = true) (mouse_buttons self).

(** Cursor-position differencing: the move from the previous sampled
    position to [pos], zero when there is no previous position, and no
    wheel. *)
Definition cursor_diff (prev : option (Z * Z)) (pos : Z * Z) : Z * Z * Z :=
  match prev with
  | None => (0, 0, 0)
  | Some p => (pos.1 - p.1, pos.2 - p.2, 0)
  end.

(** The cursor position seen by the last sample whose [poll] raised. *)
Definition last_failed (ws : list host) : option (Z * Z) :=
  GetCursorPos <$> last (filter (λ w, poll w = None) ws).

(** Whether the host reports the name as down: the high bit of the
    16-bit state of its virtual key. *)
Definition down (w : host) (table : gmap string Z) (name : string) : bool :=
  match table !! name with
  | Some vk => Z.testbit (GetAsyncKeyState w vk) 15
  | None => false
  end.

(** What a snapshot holds besides the motion, for the configured names
    [ks] and [bs] and the host's answers. *)
Definition reports (ks bs : list string) (w : host) (s : snapshot) : Prop :=
  keys_vec s = (λ n, if down w VK_CODE n then 1 else 0) <$> ks
  ∧ snap_keys s = filter (λ n, down w VK_CODE n) ks
  ∧ mouse_buttons_vec s
    = (λ n, if down w MOUSE_BUTTON_VK n then 1 else 0) <$> bs
  ∧ snap_mouse_buttons s = filter (λ n, down w MOUSE_BUTTON_VK n) bs
  ∧ mouse_pos s = GetCursorPos w
  ∧ timestamp s = time w.

End keyboard_mouse_state.

(** Concrete controllers and actions, to run the model on. *)
Module examples.
Import Py keymap keyboard_mouse.

(** A controller as the constructor leaves it, with no whitelist. *)
Definition plain : KeyboardMouseController :=
  {| dry_run := false; backend := sendinput;
     pressed_keys := ∅; pressed_mouse_buttons := ∅;
     key_list := None; mouse_button_list := None |}.

(** The same with the key whitelist [["w", "a", "s", "d"]]. *)
Definition wasd : KeyboardMouseController :=
  {| dry_run := false; backend := sendinput;
     pressed_keys := ∅; pressed_mouse_buttons := ∅;
     key_list := Some ["w"; "a"; "s"; "d"]; mouse_button_list := None |}.

Definition hold_left : action :=
  {[ "mouse_buttons" := OList [PStr "left"] ]}.

Definition hold_w : action := {[ "keys" := OList [PStr "w"] ]}.

Definition keys_1001 : action :=
  {[ "keys" := OList [PInt 1; PInt 0; PInt 0; PInt 1] ]}.

Definition keys_0000 : action :=
  {[ "keys" := OList [PInt 0; PInt 0; PInt 0; PInt 0] ]}.

(** A raw-input record as an absolute-mode pointer reports it: position
    (100, 200), no wheel. *)
Definition absolute_sample : raw_input.raw_read :=
  {| raw_input.query_result := 0;
     raw_input.size := 48;
     raw_input.read_size := 48;
     raw_input.buffer :=
       {| raw_input.sys_header :=
            {| raw_input.dwType := 0; raw_input.dwSize := 48;
               raw_input.hDevice := 1; raw_input.wParam := 0 |};
          raw_input.sys_mouse :=
            {| raw_input.sys_usFlags := 1; raw_input.padding := 0;
               raw_input.sys_usButtonFlags := 0;
               raw_input.sys_usButtonData := 0;
               raw_input.sys_ulRawButtons := 0;
               raw_input.sys_lLastX := 100; raw_input.sys_lLastY := 200;
               raw_input.sys_ulExtraInformation := 0 |} |} |}.

(** A host with no key down, the cursor at [(x, y)] and the given
    outcome of [poll]. *)
Definition host_at (x y : Z) (polled : option (Z * Z * Z))
    : keyboard_mouse_state.host :=
  {| keyboard_mouse_state.GetAsyncKeyState := λ _, 0;
     keyboard_mouse_state.GetCursorPos := (x, y);
     keyboard_mouse_state.poll := polled;
     keyboard_mouse_state.time := 0%Q |}.

(** A system that reports, behind the handle [h], an absolute-mode
    pointer at [(100 h, 200 h)] and no wheel. *)
Definition absolute_samples (h : Z) : raw_input.raw_read :=
  {| raw_input.query_result := 0;
     raw_input.size := 48;
     raw_input.read_size := 48;
     raw_input.buffer :=
       {| raw_input.sys_header :=
            {| raw_input.dwType := 0; raw_input.dwSize := 48;
               raw_input.hDevice := 1; raw_input.wParam := 0 |};
          raw_input.sys_mouse :=
            {| raw_input.sys_usFlags := 1; raw_input.padding := 0;
               raw_input.sys_usButtonFlags := 0;
               raw_input.sys_usButtonData := 0;
               raw_input.sys_ulRawButtons := 0;
               raw_input.sys_lLastX := 100 * h;
               raw_input.sys_lLastY := 200 * h;
               raw_input.sys_ulExtraInformation := 0 |} |} |}.

(** The raw-input message for the handle [h]. *)
Definition input_message (h : Z) : raw_input.message :=
  {| raw_input.msg := raw_input.WM_INPUT; raw_input.wparam := 0;
     raw_input.lparam := h |}.

(** The controller with the key whitelist [["w", "a", "s", "d"]] and the
    button whitelist [["left"]]. *)
Definition wasd_left : KeyboardMouseController :=
  {| dry_run := false; backend := sendinput;
     pressed_keys := ∅; pressed_mouse_buttons := ∅;
     key_list := Some ["w"; "a"; "s"; "d"];
     mouse_button_list := Some ["left"] |}.

(** A host with the key [w] (virtual key 0x57) down and nothing else,
    the cursor at the origin and no capture handle answering. *)
Definition host_w_down : keyboard_mouse_state.host :=
  {| keyboard_mouse_state.GetAsyncKeyState :=
       λ vk, if vk =? 0x57 then 0x8000 else 0;
     keyboard_mouse_state.GetCursorPos := (0, 0);
     keyboard_mouse_state.poll := None;
     keyboard_mouse_state.time := 0%Q |}.

(** A raw-input record as a relative-mode mouse reports one notch of
    the wheel away from the user while moving by (5, -10): the wheel
    flag in the button flags, 120 in the button data, and [pad] in the
    two padding bytes. *)
Definition wheel_turn (pad : Z) : raw_input.raw_read :=
  {| raw_input.query_result := 0;
     raw_input.size := 48;
     raw_input.read_size := 48;
     raw_input.buffer :=
       {| raw_input.sys_header :=
            {| raw_input.dwType := 0; raw_input.dwSize := 48;
               raw_input.hDevice := 1; raw_input.wParam := 0 |};
          raw_input.sys_mouse :=
            {| raw_input.sys_usFlags := 0; raw_input.padding := pad;
               raw_input.sys_usButtonFlags := 0x0400;
               raw_input.sys_usButtonData := 120;
               raw_input.sys_ulRawButtons := 0;
               raw_input.sys_lLastX := 5;
               raw_input.sys_lLastY := -10;
               raw_input.sys_ulExtraInformation := 0 |} |} |}.



(** A system that reports, behind every handle, a relative-mode move by
    (3, 4) with no wheel. *)
Definition relative_move : raw_input.raw_read :=
  {| raw_input.query_result := 0;
     raw_input.size := 48;
     raw_input.read_size := 48;
     raw_input.buffer :=
       {| raw_input.sys_header :=
            {| raw_input.dwType := 0; raw_input.dwSize := 48;
               raw_input.hDevice := 1; raw_input.wParam := 0 |};
          raw_input.sys_mouse :=
            {| raw_input.sys_usFlags := 0; raw_input.padding := 0;
               raw_input.sys_usButtonFlags := 0;
               raw_input.sys_usButtonData := 0;
               raw_input.sys_ulRawButtons := 0;
               raw_input.sys_lLastX := 3;
               raw_input.sys_lLastY := 4;
               raw_input.sys_ulExtraInformation := 0 |} |} |}.

(** The mouse-wheel message of one notch towards the user: -120 in
    the high word of [wparam]. *)
Definition wheel_notch_back : raw_input.message :=
  {| raw_input.msg := raw_input.WM_MOUSEWHEEL;
     raw_input.wparam := 0xFF880000;
     raw_input.lparam := 0 |}.

End examples.

(** * Properties *)

(** ** The model on concrete input *)

Example normalize_key_escape : keymap.normalize_key "  Escape " = "esc".
Proof. reflexivity. Qed.

(** A no-break space (U+00A0) before and a next-line character (U+0085)
    after the capital are stripped like any white space. *)
Example normalize_key_latin1 :
  keymap.normalize_key
    (String (ascii_of_N 160) (String "W" (String (ascii_of_N 133) EmptyString)))
  = "w".
Proof. vm_compute. reflexivity. Qed.

Example normalize_mouse_button_4 :
  keymap.normalize_mouse_button "Mouse4" = "x1".
Proof. vm_compute. reflexivity. Qed.

Example decimal_int_neg : Py.decimal_int "-12" = Some (-12).
Proof. reflexivity. Qed.

(** The example controllers are what the constructor builds. *)
Example plain_constructed :
  keyboard_mouse.__init__ true true false keyboard_mouse.sendinput None None
  = Some examples.plain.
Proof. reflexivity. Qed.

Example wasd_constructed :
  keyboard_mouse.__init__ true true false keyboard_mouse.sendinput
    (Some ["W"; "a "; "S"; "d"; "no such key"]) None
  = Some examples.wasd.
Proof. vm_compute. reflexivity. Qed.

(** Without the native backend the constructor falls back, and fails
    when the fallback is missing too. *)
Example fallback_constructed :
  keyboard_mouse.backend
    <$> keyboard_mouse.__init__ false true false keyboard_mouse.sendinput
          None None
  = Some keyboard_mouse.pyautogui
  ∧ keyboard_mouse.__init__ false false false keyboard_mouse.sendinput
      None None = None.
Proof. split; reflexivity. Qed.

(** Names are normalised; unknown names and values that are not strings
    are dropped. *)
Example extract_names :
  keyboard_mouse._extract_keys Py.decimal_float examples.plain
    (Py.OList [Py.PStr " W"; Py.PStr "Escape"; Py.PStr "nope"; Py.PInt 3;
               Py.PNone])
  = {[ "w"; "esc" ]}.
Proof. vm_compute. reflexivity. Qed.

Example extract_mapping :
  keyboard_mouse._extract_keys Py.decimal_float examples.wasd
    (Py.OMapping [(Py.PStr "a", Py.PBool true); (Py.PStr "s", Py.PInt 0);
                  (Py.PStr "f5", Py.PStr "yes")])
  = {[ "a"; "f5" ]}.
Proof. vm_compute. reflexivity. Qed.

(** Strings that [float] reads are taken as a vector when their number
    fits the whitelist, and as names otherwise. *)
Example extract_digit_strings :
  keyboard_mouse._extract_keys Py.decimal_float examples.wasd
    (Py.OList [Py.PStr "1"; Py.PStr "0"; Py.PStr "0"; Py.PStr "1"])
  = {[ "w"; "d" ]}
  ∧ keyboard_mouse._extract_keys Py.decimal_float examples.wasd
      (Py.OList [Py.PStr "1"; Py.PStr "0"])
    = {[ "1"; "0" ]}.
Proof. split; vm_compute; reflexivity. Qed.

Example value_from_action :
  keyboard_mouse._value_from_action Py.decimal_int
    (Py.OList [Py.PFloat (Py.FFin (-7 # 2))]) = -3
  ∧ keyboard_mouse._value_from_action Py.decimal_int
      (Py.OVal (Py.PStr "12")) = 12
  ∧ keyboard_mouse._value_from_action Py.decimal_int
      (Py.OSet [Py.PInt 5]) = 0
  ∧ keyboard_mouse._value_from_action Py.decimal_int (Py.OList []) = 0
  ∧ keyboard_mouse._value_from_action Py.decimal_int
      (Py.OVal (Py.PFloat Py.FNan)) = 0.
Proof. repeat split; reflexivity. Qed.

(** The release of an extended key on the native backend: key-up and
    extended-key flags together. *)
Example key_event_up_release :
  keyboard_mouse._key_event true true examples.plain "up" false
  = Some [keyboard_mouse.SendInput
            [keyboard_mouse.INPUT_keyboard
               {| keyboard_mouse.wVk := 0x26; keyboard_mouse.wScan := 0;
                  keyboard_mouse.ki_dwFlags := 3; keyboard_mouse.ki_time := 0;
                  keyboard_mouse.ki_dwExtraInfo := 0 |}]].
Proof. vm_compute. reflexivity. Qed.

(** A wheel turn towards the user, as the high word of [wparam]. *)
Example c_short_negative : raw_input.c_short 0xFF88 = -120.
Proof. reflexivity. Qed.

(** ** The actuation controller *)

Section ControllerProps.
Import Py keymap keyboard_mouse.
Variable str_to_int : string → option Z.
Variable str_to_float : string → option pyfloat.
Local Abbreviation step := (keyboard_mouse.step str_to_int str_to_float).
Local Abbreviation run := (keyboard_mouse.run str_to_int str_to_float).
Local Abbreviation value := (keyboard_mouse._value_from_action str_to_int).
Local Abbreviation extract_keys :=
  (keyboard_mouse._extract_keys str_to_float).
Local Abbreviation serve := (keyboard_mouse.serve str_to_int str_to_float).
Local Abbreviation extract_buttons :=
  (keyboard_mouse._extract_buttons str_to_float).

Variable SENDINPUT_AVAILABLE : bool.
Variable pyautogui_available : bool.
Local Abbreviation physical :=
  (keyboard_mouse.physical SENDINPUT_AVAILABLE pyautogui_available).
Local Abbreviation extract := (keyboard_mouse.extract str_to_float).

(** *** Order of emission *)

Lemma block_by_phase {A} (f : A → event) (l : list A) n :
  (∀ x, phase (f x) = n) → StronglySorted by_phase (f <$> l).
Proof.
  intros Hf. induction l as [|x l IH]; simpl; constructor; [done|].
  apply Forall_fmap, Forall_forall. intros y _. unfold by_phase; simpl.
  by rewrite !Hf.
Qed.

Lemma tail_by_phase dx dy wheel :
  StronglySorted by_phase
    ((if bool_decide (dx ≠ 0 ∨ dy ≠ 0) then [mouse_move dx dy] else [])
     ++ (if bool_decide (wheel ≠ 0) then [mouse_wheel wheel] else [])).
Proof. repeat case_bool_decide; simpl; repeat constructor. Qed.

(** Everything in a block comes no later in phase than what follows. *)
Ltac cross :=
  let x1 := fresh "x" in let x2 := fresh "y" in
  let Hx := fresh "Hx" in let Hy := fresh "Hy" in
  intros x1 x2 Hx Hy;
  apply list_elem_of_fmap in Hx as (? & -> & _);
  revert x2 Hy; apply Forall_forall;
  rewrite ?Forall_app, ?Forall_fmap; repeat split;
  first [ case_bool_decide; repeat constructor
        | apply Forall_true; intros ? ];
  unfold by_phase, compose; simpl; lia.

Lemma step_events_sorted kr kp br bp dx dy wheel :
  StronglySorted by_phase (step_events kr kp br bp dx dy wheel).
Proof.
  unfold step_events.
  apply StronglySorted_app_2; [cross | by apply (block_by_phase _ _ 0%nat) |].
  apply StronglySorted_app_2; [cross | by apply (block_by_phase _ _ 1%nat) |].
  apply StronglySorted_app_2; [cross | by apply (block_by_phase _ _ 2%nat) |].
  apply StronglySorted_app_2; [cross | by apply (block_by_phase _ _ 3%nat) |].
  apply tail_by_phase.
Qed.

Lemma sorted_lookup {A} (R : relation A) l i j x y :
  StronglySorted R l → (i < j)%nat →
  l !! i = Some x → l !! j = Some y → R x y.
Proof.
  intros Hl. revert i j.
  induction Hl as [|a l Hl IH Ha]; intros i j Hij Hi Hj; [done|].
  destruct j as [|j]; [lia|]. destruct i as [|i]; simplify_eq/=.
  - rewrite Forall_forall in Ha. eapply Ha, list_elem_of_lookup_2, Hj.
  - eapply (IH i j); [lia|done..].
Qed.

Lemma filter_block {A} (P : event → bool) (f : A → event) (l : list A) :
  (∀ x, P (f x) = false) → filter P (f <$> l) = [].
Proof.
  intros Hf. induction l as [|x l IH]; [done|]. rewrite fmap_cons.
  rewrite filter_cons, IH. case_decide as H; [|done]. by rewrite Hf in H.
Qed.

Lemma step_events_moves kr kp br bp dx dy wheel :
  filter is_move (step_events kr kp br bp dx dy wheel)
  = if bool_decide (dx ≠ 0 ∨ dy ≠ 0) then [mouse_move dx dy] else [].
Proof.
  unfold step_events. rewrite !filter_app, !filter_block by done.
  by repeat case_bool_decide.
Qed.

Lemma step_events_wheels kr kp br bp dx dy wheel :
  filter is_wheel (step_events kr kp br bp dx dy wheel)
  = if bool_decide (wheel ≠ 0) then [mouse_wheel wheel] else [].
Proof.
  unfold step_events. rewrite !filter_app, !filter_block by done.
  by repeat case_bool_decide.
Qed.

Lemma step_events_wheel_last kr kp br bp dx dy wheel e :
  e ∈ step_events kr kp br bp dx dy wheel → is_wheel e = true →
  last (step_events kr kp br bp dx dy wheel) = Some e.
Proof.
  intros He Hw.
  assert (Hin : e ∈ filter is_wheel (step_events kr kp br bp dx dy wheel)).
  { apply list_elem_of_filter. by rewrite Hw. }
  rewrite step_events_wheels in Hin.
  case_bool_decide as Hz; [|by apply elem_of_nil in Hin].
  apply list_elem_of_singleton in Hin as ->.
  unfold step_events. rewrite !app_assoc.
  rewrite (bool_decide_true (wheel ≠ 0)) by done. apply last_snoc.
Qed.

(** C1 (amended).  Unless the controller is in dry-run mode, where it
    sends nothing, [step] sends key releases, then key presses, then
    button releases, then button presses, then one move if [dx] or
    [dy] is not zero, then one wheel event, last of all, if [wheel] is
    not zero.  Releases so precede presses among the key events and
    among the button events, and every key event precedes every button
    event. *)
Theorem step_emission_order c act :
  let evs := (step c act).2 in
  let dx := value (default (OVal (PInt 0)) (act !! "mouse_dx")) in
  let dy := value (default (OVal (PInt 0)) (act !! "mouse_dy")) in
  let wheel := value (default (OVal (PInt 0)) (act !! "mouse_wheel")) in
  StronglySorted by_phase evs
  ∧ (∀ i j e1 e2, evs !! i = Some e1 → evs !! j = Some e2 →
       (phase e1 < phase e2)%nat → (i < j)%nat)
  ∧ filter is_move evs
    = (if dry_run c then []
       else if bool_decide (dx ≠ 0 ∨ dy ≠ 0) then [mouse_move dx dy] else [])
  ∧ filter is_wheel evs
    = (if dry_run c then []
       else if bool_decide (wheel ≠ 0) then [mouse_wheel wheel] else [])
  ∧ (∀ e, e ∈ evs → is_wheel e = true → last evs = Some e)
  ∧ (dry_run c = true → evs = []).
Proof.
  intros evs dx dy wheel.
  assert (Hs : StronglySorted by_phase evs).
  { subst evs. unfold keyboard_mouse.step; simpl.
    destruct (dry_run c); [constructor | apply step_events_sorted]. }
  split; [done|]. split.
  { intros i j e1 e2 Hi Hj Hlt.
    destruct (decide (i < j)%nat) as [|Hge]; [done|].
    assert (i ≠ j) by (intros ->; simplify_eq; lia).
    assert (by_phase e2 e1); [|unfold by_phase in *; lia].
    eapply (sorted_lookup _ evs j i); [done|lia|done..]. }
  subst evs. unfold keyboard_mouse.step; simpl.
  destruct (dry_run c).
  { split; [done|]. split; [done|]. split; [|done].
    by intros e ?%elem_of_nil. }
  rewrite step_events_moves, step_events_wheels.
  split; [done|]. split; [done|]. split; [|done].
  apply step_events_wheel_last.
Qed.

(** *** Idempotence *)

Lemma quiet_tail dx dy wheel :
  filter (λ e, is_press e || is_release e)
    ((if bool_decide (dx ≠ 0 ∨ dy ≠ 0) then [mouse_move dx dy] else [])
     ++ (if bool_decide (wheel ≠ 0) then [mouse_wheel wheel] else [])) = [].
Proof. by repeat case_bool_decide. Qed.

(** C3.  Whatever is held and whatever the action, the second of two
    successive [step] calls with the same action sends no press and no
    release, and leaves the held sets as the first call set them. *)
Theorem step_idempotent c act :
  let first := step c act in
  let second := step first.1 act in
  filter (λ e, is_press e || is_release e) second.2 = []
  ∧ pressed_keys second.1 = pressed_keys first.1
  ∧ pressed_mouse_buttons second.1 = pressed_mouse_buttons first.1.
Proof.
  cbv zeta. split; [|done].
  unfold keyboard_mouse.step at 1. simpl.
  destruct (dry_run c); [done|].
  unfold step_events, _extract_keys, _extract_buttons; simpl.
  rewrite !difference_diag_L, elements_empty. simpl.
  apply quiet_tail.
Qed.

(** *** Dry run *)

Lemma step_with_dry_run d c act :
  (step (with_dry_run d c) act).1 = with_dry_run d (step c act).1.
Proof. reflexivity. Qed.

Lemma step_dry_run_silent c act : (step (with_dry_run true c) act).2 = [].
Proof. reflexivity. Qed.

Lemma run_held d c script :
  held <$> run (with_dry_run d c) script = held <$> run c script.
Proof.
  revert c. induction script as [|act script IH]; intros c; [done|].
  cbn [keyboard_mouse.run fmap list_fmap]. rewrite step_with_dry_run, IH.
  done.
Qed.

Lemma run_dry_silent c script :
  Forall (λ r, r.2 = [] ∧ physical r.1 r.2 = Some [])
    (run (with_dry_run true c) script).
Proof.
  revert c. induction script as [|act script IH]; intros c; [constructor|].
  cbn [keyboard_mouse.run]. constructor; [done|].
  rewrite step_with_dry_run. apply IH.
Qed.

(** C5.  Over any script of actions, the dry-run controller and the
    normal one go through the same pressed-key and pressed-button sets,
    and every dry-run call sends nothing: no dispatch call is made, so
    nothing reaches a backend. *)
Theorem dry_run_equivalence c script :
  held <$> run (with_dry_run true c) script
  = held <$> run (with_dry_run false c) script
  ∧ length (run (with_dry_run true c) script) = length script
  ∧ Forall (λ r, r.2 = [] ∧ physical r.1 r.2 = Some [])
      (run (with_dry_run true c) script).
Proof.
  split; [by rewrite !run_held|]. split; [|apply run_dry_silent].
  generalize (with_dry_run true c). induction script; intros; simpl; auto.
Qed.

(** *** Release completeness *)

Lemma extract_nothing normalize known whitelist :
  extract normalize known whitelist (OList []) = ∅.
Proof.
  unfold keyboard_mouse.extract.
  destruct whitelist as [[|name names]|]; reflexivity.
Qed.

Lemma filter_whole {A} (P : event → bool) (f : A → event) (l : list A) :
  (∀ x, P (f x) = true) → filter P (f <$> l) = f <$> l.
Proof.
  intros Hf. induction l as [|x l IH]; [done|]. rewrite fmap_cons.
  rewrite filter_cons, IH. case_decide as H; [done|]. by rewrite Hf in H.
Qed.

Lemma step_events_presses kr kp br bp dx dy wheel :
  filter is_press (step_events kr kp br bp dx dy wheel)
  = ((λ key, key_event key true) <$> elements kp)
    ++ ((λ button, mouse_button_event button true) <$> elements bp).
Proof.
  unfold step_events.
  rewrite !filter_app.
  rewrite (filter_block is_press (λ k, key_event k false)) by done.
  rewrite (filter_block is_press (λ k, mouse_button_event k false)) by done.
  rewrite !filter_whole by done.
  repeat case_bool_decide; simpl; by rewrite ?app_nil_r.
Qed.

Lemma step_events_releases kr kp br bp dx dy wheel :
  filter is_release (step_events kr kp br bp dx dy wheel)
  = ((λ key, key_event key false) <$> elements kr)
    ++ ((λ button, mouse_button_event button false) <$> elements br).
Proof.
  unfold step_events.
  rewrite !filter_app.
  rewrite (filter_block is_release (λ k, key_event k true)) by done.
  rewrite (filter_block is_release (λ k, mouse_button_event k true)) by done.
  rewrite !filter_whole by done.
  repeat case_bool_decide; simpl; by rewrite ?app_nil_r.
Qed.

Lemma releases_NoDup (ks bs : gset string) :
  NoDup (((λ key, key_event key false) <$> elements ks)
         ++ ((λ button, mouse_button_event button false) <$> elements bs)).
Proof.
  apply NoDup_app. split; [|split].
  - apply NoDup_fmap_2; [by intros ?? [=]|apply NoDup_elements].
  - intros e (? & -> & _)%list_elem_of_fmap (? & ? & _)%list_elem_of_fmap.
    done.
  - apply NoDup_fmap_2; [by intros ?? [=]|apply NoDup_elements].
Qed.

Lemma step_release_all c :
  let r := step c ∅ in
  r.2 = (if dry_run c then []
         else ((λ key, key_event key false) <$> elements (pressed_keys c))
              ++ ((λ button, mouse_button_event button false)
                    <$> elements (pressed_mouse_buttons c)))
  ∧ pressed_keys r.1 = ∅ ∧ pressed_mouse_buttons r.1 = ∅.
Proof.
  cbv zeta. unfold keyboard_mouse.step, _extract_keys, _extract_buttons.
  rewrite !lookup_empty. cbn [default fst snd pressed_keys pressed_mouse_buttons].
  rewrite !extract_nothing. split; [|done].
  destruct (dry_run c); [done|]. unfold step_events.
  rewrite !difference_empty_L, !difference_disjoint_L by set_solver.
  rewrite elements_empty. simpl. by rewrite !app_nil_r.
Qed.

Lemma step_unfold c act :
  (step c act).2
  = if dry_run c then []
    else step_events
           (pressed_keys c ∖ extract_keys c (default (OList []) (act !! "keys")))
           (extract_keys c (default (OList []) (act !! "keys")) ∖ pressed_keys c)
           (pressed_mouse_buttons c
              ∖ extract_buttons c (default (OList []) (act !! "mouse_buttons")))
           (extract_buttons c (default (OList []) (act !! "mouse_buttons"))
              ∖ pressed_mouse_buttons c)
           (value (default (OVal (PInt 0)) (act !! "mouse_dx")))
           (value (default (OVal (PInt 0)) (act !! "mouse_dy")))
           (value (default (OVal (PInt 0)) (act !! "mouse_wheel"))).
Proof. reflexivity. Qed.

Lemma step_from_empty c act :
  pressed_keys c = ∅ → pressed_mouse_buttons c = ∅ →
  filter is_press (step c act).2
  = (if dry_run c then []
     else ((λ key, key_event key true)
             <$> elements (pressed_keys (step c act).1))
          ++ ((λ button, mouse_button_event button true)
                <$> elements (pressed_mouse_buttons (step c act).1))).
Proof.
  intros Hk Hb. unfold keyboard_mouse.step. simpl.
  destruct (dry_run c); [done|].
  rewrite step_events_presses, Hk, Hb. by rewrite !difference_empty_L.
Qed.

(** On either backend the release of a key or button reaches the system
    exactly when its press does: the fallback library takes no [x1] or
    [x2] button, in either direction. *)
Lemma release_performed_like_press c e :
  is_press e = true →
  length <$> keyboard_mouse.perform SENDINPUT_AVAILABLE pyautogui_available
               c (release_of e)
  = length <$> keyboard_mouse.perform SENDINPUT_AVAILABLE pyautogui_available
                 c e.
Proof.
  destruct e as [key [|]|button [|]| |]; try done; intros _; simpl.
  - unfold _key_event. destruct (backend c).
    + destruct (VK_CODE !! key); [|done]. unfold _send_input.
      by destruct SENDINPUT_AVAILABLE.
    + by destruct pyautogui_available.
  - unfold _mouse_button_event. destruct (backend c).
    + destruct (MOUSE_BUTTON_FLAGS !! button) as [[[down up] data]|]; [|done].
      simpl. unfold _send_input. by destruct SENDINPUT_AVAILABLE.
    + case_bool_decide; [done|]. by destruct pyautogui_available.
Qed.

(** C4.  From an empty held state, [step(A)] followed by [step] of the
    empty action: the second call sends releases only, no release twice,
    and they are, up to order, the releases of the presses the first
    call sent, one for each key and button it left held; both held sets
    end empty.  With the whitelist [w; a; s; d], the vector [1; 0; 0; 1]
    leaves [w] and [d] held, and the vector [0; 0; 0; 0] after it sends
    the two releases of [w] and [d] and empties the key set. *)
Theorem release_completeness c :
  pressed_keys c = ∅ → pressed_mouse_buttons c = ∅ →
  (∀ act,
     let first := step c act in
     let second := step first.1 ∅ in
     second.2 = filter is_release second.2
     ∧ NoDup second.2
     ∧ second.2 ≡ₚ release_of <$> filter is_press first.2
     ∧ (dry_run c = false →
        second.2 ≡ₚ
          ((λ key, key_event key false) <$> elements (pressed_keys first.1))
          ++ ((λ button, mouse_button_event button false)
                <$> elements (pressed_mouse_buttons first.1)))
     ∧ pressed_keys second.1 = ∅
     ∧ pressed_mouse_buttons second.1 = ∅)
  ∧ (key_list c = Some ["w"; "a"; "s"; "d"] → dry_run c = false →
     let first := step c examples.keys_1001 in
     let second := step first.1 examples.keys_0000 in
     pressed_keys first.1 = {[ "w"; "d" ]}
     ∧ second.2 ≡ₚ [key_event "w" false; key_event "d" false]
     ∧ pressed_keys second.1 = ∅).
Proof.
  intros Hk Hb. split.
  - intros act first second.
    destruct (step_release_all first.1) as (Hev & Hk2 & Hb2).
    fold second in Hev, Hk2, Hb2.
    assert (Hdry : dry_run first.1 = dry_run c) by done.
    rewrite Hdry in Hev.
    pose proof (step_from_empty c act Hk Hb) as Hp. fold first in Hp.
    split; [|split; [|split; [|split]]]; [| | | |done].
    + rewrite Hev. destruct (dry_run c); [done|].
      rewrite filter_app, !filter_whole by done. done.
    + rewrite Hev. destruct (dry_run c); [constructor|apply releases_NoDup].
    + rewrite Hev, Hp. destruct (dry_run c); [done|].
      rewrite fmap_app, <- !list_fmap_compose. done.
    + intros Hd. rewrite Hev, Hd. done.
  - intros Hl Hd first second.
    assert (Hf : pressed_keys first.1 = {[ "w"; "d" ]}).
    { subst first. unfold keyboard_mouse.step, _extract_keys. simpl.
      rewrite Hl. vm_compute. reflexivity. }
    assert (Hfb : pressed_mouse_buttons first.1 = ∅).
    { subst first. unfold keyboard_mouse.step, _extract_buttons. simpl.
      apply extract_nothing. }
    assert (Hs : pressed_keys second.1 = ∅).
    { subst second first. unfold keyboard_mouse.step, _extract_keys. simpl.
      rewrite Hl. vm_compute. reflexivity. }
    split; [done|]. split; [|done].
    assert (He : extract_keys first.1
      (default (OList []) (examples.keys_0000 !! "keys")) = ∅) by exact Hs.
    assert (Heb : extract_buttons first.1
      (default (OList []) (examples.keys_0000 !! "mouse_buttons")) = ∅).
    { apply extract_nothing. }
    subst second. rewrite step_unfold.
    change (dry_run first.1) with (dry_run c).
    rewrite Hd, He, Heb, Hf, Hfb.
    vm_compute. reflexivity.
Qed.

(** *** Positional decoding *)

Lemma float_numeric v :
  numeric v = true →
  ∃ f, float str_to_float v = Some f ∧ float_gt0 f = positive v.
Proof.
  destruct v as [|b|z|f|s]; try done; simpl.
  - intros _. eexists; split; [done|]. by destruct b.
  - intros ->. eexists; split; [done|]. done.
  - intros _. eexists; split; [done|]. by destruct f.
Qed.

Lemma select_numeric names vs selected :
  Forall (λ v, numeric v = true) vs → length vs = length names →
  ∃ s, select str_to_float names vs selected = Some s
       ∧ ∀ k, k ∈ s ↔ k ∈ selected
                      ∨ ∃ i v, names !! i = Some k ∧ vs !! i = Some v
                               ∧ positive v = true.
Proof.
  revert vs selected.
  induction names as [|name names IH]; intros [|v vs] selected Hn Hl;
    simplify_eq/=.
  - exists selected. split; [done|]. intros k. split; [by left|].
    intros [?|(i & v & Hi & _)]; [done|]. by destruct i.
  - apply Forall_cons in Hn as [Hv Hn].
    destruct (float_numeric v Hv) as (f & -> & Hf). simpl.
    destruct (IH vs (if float_gt0 f then selected ∪ {[name]} else selected)
                Hn Hl) as (s & -> & Hs).
    exists s. split; [done|]. intros k. rewrite Hs, Hf. split.
    + intros [Hk|(i & w & Hi & Hw & Hp)].
      * destruct (positive v) eqn:Hp; [|by left].
        apply elem_of_union in Hk as [?|Hk]; [by left|].
        apply elem_of_singleton in Hk as ->.
        right. by exists 0%nat, v.
      * right. by exists (S i), w.
    + intros [Hk|(i & w & Hi & Hw & Hp)].
      * left. destruct (positive v); [|done]. apply elem_of_union. by left.
      * destruct i as [|i]; simplify_eq/=.
        -- left. rewrite Hp. apply elem_of_union. right.
           by apply elem_of_singleton.
        -- right. by exists i, w.
Qed.

Lemma normalized_numbers normalize known vs :
  Forall (λ v, numeric v = true) vs → normalized_names normalize known vs = ∅.
Proof.
  unfold normalized_names. generalize (∅ : gset string).
  induction vs as [|v vs IH]; intros acc Hn; [done|].
  apply Forall_cons in Hn as [Hv Hn]. simpl. rewrite IH by done.
  by destruct v.
Qed.

Lemma extract_vector normalize known names raw vs :
  sequence_of vs raw → Forall (λ v, numeric v = true) vs →
  (length vs = length names →
   ∀ k, k ∈ extract normalize known (Some names) raw
        ↔ ∃ i v, names !! i = Some k ∧ vs !! i = Some v ∧ positive v = true)
  ∧ (length vs ≠ length names →
     extract normalize known (Some names) raw = ∅).
Proof.
  intros Hraw Hn.
  assert (Hlen : len raw = Some (length vs))
    by (destruct Hraw as [-> | [-> | ->]]; done).
  assert (Hiter : iter raw = vs) by (destruct Hraw as [-> | [-> | ->]]; done).
  assert (Hmap : is_mapping raw = false)
    by (destruct Hraw as [-> | [-> | ->]]; done).
  assert (Hcand : normalized_names normalize known (candidates raw) = ∅).
  { destruct Hraw as [-> | [-> | ->]]; simpl;
      first [by apply normalized_numbers | done]. }
  unfold keyboard_mouse.extract. rewrite Hmap, Hcand.
  destruct names as [|name names].
  { simpl. split; [|done]. intros Hl k. split; [done|].
    intros (i & v & ? & _); by destruct i. }
  cbn [nonempty andb negb from_option id].
  unfold _vector_to_names. rewrite Hlen, Hiter. split.
  - intros Hl. rewrite bool_decide_false by (by intros ?).
    destruct (select_numeric (name :: names) vs ∅ Hn Hl) as (s & -> & Hs).
    intros k. rewrite Hs. split; [|by right].
    intros [Hk|?]; [|done]. by apply not_elem_of_empty in Hk.
  - intros Hl. by rewrite bool_decide_true.
Qed.

(** C6.  With the key whitelist [names] configured, a sequence of numbers
    given as the keys field selects the name at index [i] exactly when
    the number at [i] is strictly greater than zero, provided the
    sequence is as long as the whitelist; a sequence of any other length
    selects nothing.  So [1; 0; 0; 1] against [w; a; s; d] gives [w] and
    [d], and three numbers against it give the empty set. *)
Theorem vector_decoding c names raw vs :
  key_list c = Some names →
  sequence_of vs raw →
  Forall (λ v, numeric v = true) vs →
  (length vs = length names →
   ∀ k, k ∈ extract_keys c raw
        ↔ ∃ i v, names !! i = Some k ∧ vs !! i = Some v ∧ positive v = true)
  ∧ (length vs ≠ length names → extract_keys c raw = ∅)
  ∧ (names = ["w"; "a"; "s"; "d"] →
     extract_keys c (OList [PInt 1; PInt 0; PInt 0; PInt 1]) = {[ "w"; "d" ]}
     ∧ (length vs = 3%nat → extract_keys c raw = ∅)).
Proof.
  intros Hc Hraw Hn. unfold _extract_keys. rewrite Hc.
  destruct (extract_vector normalize_key known_key names raw vs Hraw Hn)
    as [Heq Hne].
  split; [done|]. split; [done|].
  intros ->. split; [vm_compute; reflexivity|].
  intros H3. apply Hne. rewrite H3. done.
Qed.

(** *** Stored names *)

Lemma select_within names vs selected s :
  select str_to_float names vs selected = Some s →
  ∀ k, k ∈ s → k ∈ selected ∨ k ∈ names.
Proof.
  revert vs selected.
  induction names as [|name names IH]; intros [|v vs] selected Hs k Hk;
    simplify_eq/=; try by left.
  destruct (float str_to_float v) as [f|]; simplify_eq/=.
  destruct (IH _ _ Hs k Hk) as [Hin|Hin].
  - destruct (float_gt0 f); [|by left].
    apply elem_of_union in Hin as [?|Hin]; [by left|].
    apply elem_of_singleton in Hin as ->. right. by left.
  - right. by right.
Qed.

Lemma normalized_names_spec normalize known xs k :
  k ∈ normalized_names normalize known xs
  ↔ ∃ s, PStr s ∈ xs ∧ normalize s = k ∧ known k = true.
Proof.
  unfold normalized_names.
  assert (Hgen : ∀ acc : gset string,
    k ∈ foldl (λ normalized key,
                 match key with
                 | PStr s =>
                     let name := normalize s in
                     if known name then normalized ∪ {[ name ]} else normalized
                 | _ => normalized
                 end) acc xs
    ↔ k ∈ acc ∨ ∃ s, PStr s ∈ xs ∧ normalize s = k ∧ known k = true).
  { induction xs as [|x xs IH]; intros acc; simpl.
    - split; [by left|]. intros [?|(s & Hs%elem_of_nil & _)]; done.
    - rewrite IH. split.
      + intros [Hk|(s & Hs & Hn & Hkn)].
        * destruct x as [| | | |s]; try by left.
          simpl in Hk. destruct (known (normalize s)) eqn:Hkn; [|by left].
          apply elem_of_union in Hk as [?|Hk]; [by left|].
          apply elem_of_singleton in Hk as ->. right. exists s.
          split; [by left|done].
        * right. exists s. split; [by right|done].
      + intros [Hk|(s & Hs & Hn & Hkn)].
        * left. destruct x as [| | | |s]; try done. simpl.
          destruct (known (normalize s)); [|done]. apply elem_of_union. by left.
        * apply elem_of_cons in Hs as [<-|Hs].
          -- left. simpl. rewrite Hn, Hkn. apply elem_of_union. right.
             by apply elem_of_singleton.
          -- right. by exists s. }
  rewrite Hgen. split; [|by right].
  intros [Hk|?]; [|done]. by apply not_elem_of_empty in Hk.
Qed.

Lemma extract_known normalize known whitelist raw k :
  (∀ names, whitelist = Some names → Forall (λ n, known n = true) names) →
  k ∈ extract normalize known whitelist raw → known k = true.
Proof.
  intros Hwl. unfold keyboard_mouse.extract.
  assert (Hnames : k ∈ normalized_names normalize known (candidates raw) →
                   known k = true).
  { rewrite normalized_names_spec. by intros (s & _ & _ & ?). }
  destruct whitelist as [[|name names]|]; [done| |done].
  destruct (is_mapping raw); [done|].
  cbn [nonempty andb negb from_option id].
  destruct (_vector_to_names str_to_float raw (name :: names)) as [s|] eqn:Hv;
    [|done].
  unfold _vector_to_names in Hv.
  destruct (len raw); [|done]. case_bool_decide; [done|].
  intros Hk. destruct (select_within _ _ _ _ Hv k Hk) as [Hin|Hin].
  - by apply not_elem_of_empty in Hin.
  - specialize (Hwl _ eq_refl). rewrite Forall_forall in Hwl. auto.
Qed.



Lemma known_key_canonical k :
  known_key k = true → canonical_key k.
Proof.
  intros Hk%bool_decide_eq_true. split; [done|].
  apply elem_of_dom, elem_of_elements in Hk. revert k Hk.
  apply Forall_forall. vm_compute elements.
  repeat (apply Forall_cons; split; [vm_compute; reflexivity|]).
  apply Forall_nil_2.
Qed.

Lemma known_button_canonical b :
  known_button b = true → canonical_button b.
Proof.
  intros Hb%bool_decide_eq_true. split; [done|].
  apply elem_of_dom, elem_of_elements in Hb. revert b Hb.
  apply Forall_forall. vm_compute elements.
  repeat (apply Forall_cons; split;
            [vm_compute; split; [eexists|]; reflexivity|]).
  apply Forall_nil_2.
Qed.


Lemma serve_whitelists c r :
  whitelists_known c → whitelists_known (serve c r).
Proof. by destruct r. Qed.

Lemma serve_canonical c r :
  whitelists_known c →
  (∀ k, k ∈ pressed_keys (serve c r) → canonical_key k)
  ∧ (∀ b, b ∈ pressed_mouse_buttons (serve c r) → canonical_button b).
Proof.
  intros [Hk Hb]. destruct r as [act|]; simpl.
  - split; intros n Hn.
    + by eapply known_key_canonical, extract_known.
    + by eapply known_button_canonical, extract_known.
  - split; intros n Hn; by apply not_elem_of_empty in Hn.
Qed.

Lemma served_canonical c rs :
  whitelists_known c →
  (∀ k, k ∈ pressed_keys c → canonical_key k) →
  (∀ b, b ∈ pressed_mouse_buttons c → canonical_button b) →
  (∀ k, k ∈ pressed_keys (foldl serve c rs) → canonical_key k)
  ∧ (∀ b, b ∈ pressed_mouse_buttons (foldl serve c rs) → canonical_button b).
Proof.
  revert c. induction rs as [|r rs IH]; intros c Hwl Hk Hb; [done|].
  simpl. destruct (serve_canonical c r Hwl).
  apply IH; [by apply serve_whitelists|done..].
Qed.

End ControllerProps.

(** ** Raw mouse capture *)

Section HookProps.
Import raw_input.
Variable GetRawInputData : Z → raw_read.
Local Abbreviation handle := (raw_input._handle_message GetRawInputData).
Local Abbreviation pump := (raw_input.pump GetRawInputData).
Local Abbreviation delta := (raw_input.delta GetRawInputData).
Local Abbreviation deltas := (raw_input.deltas GetRawInputData).

(** One message adds its delta to the three counters, whatever they
    hold. *)
Lemma handle_adds self m :
  let self' := (handle self (msg m) (wparam m) (lparam m)).1 in
  (_dx self', _dy self', _wheel self')
  = (_dx self + (delta self m).1.1, _dy self + (delta self m).1.2,
     _wheel self + (delta self m).2).
Proof.
  unfold _handle_message, raw_input.delta, _handle_raw_input, raw_delta,
    readable.
  repeat case_match; simplify_eq/=; f_equal; try f_equal; lia.
Qed.

Lemma pump_adds ms : ∀ self,
  let self' := pump self ms in
  (_dx self', _dy self', _wheel self')
  = (_dx self + (total (deltas self ms)).1.1,
     _dy self + (total (deltas self ms)).1.2,
     _wheel self + (total (deltas self ms)).2).
Proof.
  induction ms as [|m ms IH]; intros self; simpl.
  - f_equal; [f_equal|]; lia.
  - specialize (IH (handle self (msg m) (wparam m) (lparam m)).1).
    simpl in IH. unfold raw_input.pump in IH |- *. rewrite IH.
    pose proof (handle_adds self m) as Hm. simpl in Hm.
    injection Hm as -> -> ->. f_equal; [f_equal|]; lia.
Qed.

(** After a poll, or on a fresh hook, the handled messages each add
    what the handler computes for them; the next poll returns the three
    sums and leaves the counters at zero. *)
Lemma poll_after_pump self ms :
  let polled := (poll self).1 in
  let r := poll (pump polled ms) in
  r.2 = total (deltas polled ms)
  ∧ (poll r.1).2 = (0, 0, 0)
  ∧ (poll polled).2 = (0, 0, 0).
Proof.
  cbv zeta. split; [|split; done].
  unfold poll at 1. cbn [snd].
  pose proof (pump_adds ms (poll self).1) as H. cbv zeta in H. rewrite H.
  simpl. by destruct (total _) as [[??]?].
Qed.

Lemma c_int_range z : - 2 ^ 31 ≤ c_int z < 2 ^ 31.
Proof.
  unfold c_int.
  pose proof (Z.mod_pos_bound (z + 2 ^ 31) (2 ^ 32) ltac:(lia)). lia.
Qed.

Lemma c_int_small z : 0 ≤ z < 2 ^ 31 → c_int z = z.
Proof. intros Hz. unfold c_int. rewrite Z.mod_small; lia. Qed.

Lemma c_int_large z : 2 ^ 31 ≤ z < 2 ^ 32 → c_int z = z - 2 ^ 32.
Proof.
  intros Hz. unfold c_int.
  replace (z + 2 ^ 31) with (z - 2 ^ 31 + 1 * 2 ^ 32) by lia.
  rewrite Z.mod_add by lia. rewrite Z.mod_small; lia.
Qed.

(** The comparison of the size query's return value with [0xFFFFFFFF]
    never holds. *)
Lemma query_test_dead z : (c_int z =? 0xFFFFFFFF) = false.
Proof. apply Z.eqb_neq. pose proof (c_int_range z). lia. Qed.

(** For values the system can return, the handler gets as far as the
    mouse record exactly when the read filled the buffer with a mouse
    record. *)
Lemma readable_payload r :
  system_values r →
  readable r
  = negb (size r =? 0) && (read_size r =? size r)
    && (dwType (sys_header (buffer r)) =? RIM_TYPEMOUSE).
Proof.
  intros (_ & Hs & Hr). unfold readable. rewrite query_test_dead.
  cbn [negb andb].
  assert (He : (c_int (read_size r) =? size r) = (read_size r =? size r)).
  { destruct (decide (read_size r < 2 ^ 31)).
    - by rewrite c_int_small by lia.
    - rewrite c_int_large by lia.
      rewrite (proj2 (Z.eqb_neq _ _)) by lia.
      symmetry. apply Z.eqb_neq. lia. }
  by rewrite He.
Qed.

(** On a message without a raw wheel and without a first absolute
    sample, the handler adds what the specification says the event
    contributes, and stores the sample it says. *)
Lemma delta_spec self m :
  (msg m = WM_INPUT → system_values (GetRawInputData (lparam m))) →
  wheel_free GetRawInputData m →
  sampled_before (_last_abs self) [event_of GetRawInputData m] →
  delta self m
  = spec_contribution (_last_abs self) (event_of GetRawInputData m)
  ∧ _last_abs (handle self (msg m) (wparam m) (lparam m)).1
    = spec_sample (_last_abs self) (event_of GetRawInputData m).
Proof.
  intros Hv Hw [Hs _].
  unfold raw_input.delta, event_of, _handle_message in *.
  destruct (msg m =? WM_INPUT) eqn:Hm.
  - apply Z.eqb_eq in Hm. specialize (Hv Hm). destruct (Hw Hm) as [Hf Hp].
    cbv zeta in Hf, Hp.
    pose proof (readable_payload _ Hv) as Hr.
    unfold raw_delta. cbn [fst].
    assert (Hh : _handle_raw_input GetRawInputData self (lparam m)
      = if readable (GetRawInputData (lparam m)) then
          {| capture_background := capture_background self;
             _dx := _dx self
                    + (motion self (mouse (contents (GetRawInputData (lparam m))))).1;
             _dy := _dy self
                    + (motion self (mouse (contents (GetRawInputData (lparam m))))).2;
             _wheel := _wheel self
                       + wheel_of (mouse (contents (GetRawInputData (lparam m))));
             _last_abs :=
               next_abs self (mouse (contents (GetRawInputData (lparam m)))) |}
        else self).
    { unfold _handle_raw_input, readable. cbv zeta.
      destruct (c_int (query_result (GetRawInputData (lparam m)))
                =? 0xFFFFFFFF); [done|].
      destruct (size (GetRawInputData (lparam m)) =? 0); [done|].
      destruct (c_int (read_size (GetRawInputData (lparam m)))
                =? size (GetRawInputData (lparam m))); [|done].
      destruct (dwType (header (contents (GetRawInputData (lparam m))))
                =? RIM_TYPEMOUSE); [|done].
      cbn [negb andb].
      by destruct (motion self
                     (mouse (contents (GetRawInputData (lparam m))))). }
    rewrite Hh, Hr. clear Hh.
    change (dwType (header (contents (GetRawInputData (lparam m)))))
      with (dwType (sys_header (buffer (GetRawInputData (lparam m))))) in *.
    destruct (negb (size (GetRawInputData (lparam m)) =? 0)
              && (read_size (GetRawInputData (lparam m))
                  =? size (GetRawInputData (lparam m)))
              && (dwType (sys_header (buffer (GetRawInputData (lparam m))))
                  =? RIM_TYPEMOUSE)); [|done].
    unfold motion, next_abs, wheel_of, contents, cast.
    cbn [mouse usFlags usButtonFlags usButtonData lLastX lLastY _last_abs].
    rewrite (bool_decide_false
               (Z.land (padding (sys_mouse (buffer (GetRawInputData (lparam m)))))
                  RI_MOUSE_WHEEL ≠ 0)) by (intros H; by apply H).
    rewrite (bool_decide_false
               (Z.land (sys_usButtonFlags
                          (sys_mouse (buffer (GetRawInputData (lparam m)))))
                  RI_MOUSE_WHEEL ≠ 0)) in * by (intros H; by apply H).
    case_bool_decide as Habs; cbn [spec_contribution spec_sample from_option id].
    + destruct Hs as [p Hp']. rewrite Hp'. done.
    + done.
  - destruct (msg m =? WM_MOUSEWHEEL); [by cbn|].
    split; [done|]. by repeat case_match.
Qed.

Lemma deltas_spec ms : ∀ self,
  Forall (λ m, msg m = WM_INPUT → system_values (GetRawInputData (lparam m)))
    ms →
  Forall (wheel_free GetRawInputData) ms →
  sampled_before (_last_abs self) (event_of GetRawInputData <$> ms) →
  deltas self ms
  = spec_contributions (_last_abs self) (event_of GetRawInputData <$> ms).
Proof.
  induction ms as [|m ms IH]; intros self Hv Hw Hs; [done|].
  apply Forall_cons in Hv as [Hv Hvs]. apply Forall_cons in Hw as [Hw Hws].
  cbn [fmap list_fmap sampled_before] in Hs. destruct Hs as [Hs Hss].
  destruct (delta_spec self m Hv Hw) as [Hd Hl]; [by split|].
  cbn [raw_input.deltas fmap list_fmap spec_contributions].
  rewrite Hd. f_equal.
  change (raw_input.pump GetRawInputData self [m])
    with (handle self (msg m) (wparam m) (lparam m)).1.
  rewrite <- Hl in Hss. rewrite (IH _ Hvs Hws Hss). by rewrite Hl.
Qed.

End HookProps.

(** C7.  Where the handler computes what the specification says an
    event contributes, the accumulator is as claimed: over a run of
    messages with no raw wheel turn and no first absolute sample, the
    poll after the run returns the three sums of the contributions and
    the poll after that returns zeros, as does a poll with nothing
    accumulated; two moves by (3, 4) around a wheel message of -120
    poll as (6, 8, -120).  A raw wheel turn, however, is lost.  The
    record of one notch (wheel flag, data 120) with the motion (5, -10)
    contributes (5, -10, 120), and the poll after it returns the wheel
    0, or 1024 when the padding bytes happen to hold the wheel bit,
    never 120: the declared structure reads the flag from the padding
    and the amount from the system's flags. *)
Theorem raw_wheel_not_accumulated :
  (∀ pad,
     let system := λ _ : Z, examples.wheel_turn pad in
     let m := examples.input_message 1 in
     raw_input.system_values (system 1)
     ∧ raw_input.event_of system m
       = raw_input.raw_mouse false 5 (-10) (Some 120)
     ∧ raw_input.total
         (raw_input.spec_contributions None [raw_input.event_of system m])
       = (5, -10, 120)
     ∧ (raw_input.poll
          (raw_input.pump system (raw_input.__init__ true) [m])).2
       = (5, -10,
          if bool_decide (Z.land pad raw_input.RI_MOUSE_WHEEL ≠ 0)
          then 1024 else 0))
  ∧ (∀ system self ms,
       Forall (λ m, raw_input.msg m = raw_input.WM_INPUT →
                    raw_input.system_values (system (raw_input.lparam m)))
         ms →
       Forall (raw_input.wheel_free system) ms →
       raw_input.sampled_before (raw_input._last_abs self)
         (raw_input.event_of system <$> ms) →
       let polled := (raw_input.poll self).1 in
       let r := raw_input.poll (raw_input.pump system polled ms) in
       r.2 = raw_input.total
               (raw_input.spec_contributions (raw_input._last_abs self)
                  (raw_input.event_of system <$> ms))
       ∧ (raw_input.poll r.1).2 = (0, 0, 0)
       ∧ (raw_input.poll polled).2 = (0, 0, 0))
  ∧ (let system := λ _ : Z, examples.relative_move in
     let ms := [examples.input_message 1; examples.wheel_notch_back;
                examples.input_message 2] in
     raw_input.event_of system <$> ms
     = [raw_input.raw_mouse false 3 4 None; raw_input.wheel_message (-120);
        raw_input.raw_mouse false 3 4 None]
     ∧ (raw_input.poll
          (raw_input.pump system (raw_input.__init__ true) ms)).2
       = (6, 8, -120)).
Proof.
  split; [|split; [|by vm_compute]].
  - intros pad. cbv zeta.
    split; [vm_compute; repeat split; congruence|].
    split; [reflexivity|]. split; [reflexivity|].
    unfold raw_input.poll, raw_input.pump. cbn [foldl snd fst].
    unfold raw_input._handle_message, examples.input_message.
    cbn [raw_input.msg raw_input.lparam raw_input.wparam].
    change (raw_input.WM_INPUT =? raw_input.WM_INPUT) with true.
    cbv iota. cbn [fst].
    unfold raw_input._handle_raw_input, examples.wheel_turn,
      raw_input.wheel_of, raw_input.contents, raw_input.cast.
    cbn [raw_input.buffer raw_input.sys_mouse raw_input.mouse
         raw_input.usButtonFlags raw_input.padding].
    destruct (bool_decide (Z.land pad raw_input.RI_MOUSE_WHEEL ≠ 0));
      vm_compute; reflexivity.
  - intros system self ms Hv Hw Hs. cbv zeta.
    destruct (poll_after_pump system self ms) as (Hr & Hz & Hp).
    cbv zeta in Hr, Hz, Hp. split; [|split; assumption].
    rewrite Hr. f_equal.
    by apply (deltas_spec system ms (raw_input.poll self).1).
Qed.

(** ** State sampler *)

Section SamplerProps.
Import keymap keyboard_mouse_state.

Lemma configured_known normalize known names :
  Forall (λ n, known n = true) (configured normalize known names).
Proof.
  unfold configured.
  assert (Hgen : ∀ acc, Forall (λ n, known n = true) acc →
    Forall (λ n, known n = true)
      (foldl (λ acc name,
                let norm := normalize name in
                if known norm && negb (bool_decide (norm ∈ acc))
                then acc ++ [norm] else acc) acc names)).
  { induction names as [|name names IH]; intros acc Hacc; [done|].
    simpl. apply IH.
    destruct (known (normalize name)) eqn:Hk; [|done].
    destruct (negb _); [|done]. simpl. apply Forall_app. split; [done|].
    by apply Forall_singleton. }
  by apply Hgen.
Qed.

Lemma init_ok ks bs raw : configured_ok (__init__ ks bs raw).
Proof. split; apply configured_known. Qed.

Lemma pressed_total w (table : gmap string Z) names :
  Forall (λ n, is_Some (table !! n)) names →
  ∃ vec held, pressed w table names = Some (vec, held)
              ∧ length vec = length names
              ∧ ∀ n, n ∈ held → n ∈ names.
Proof.
  induction names as [|name names IH]; intros Hn.
  - exists [], []. split; [done|]. split; [done|]. by intros n ?%elem_of_nil.
  - apply Forall_cons in Hn as [[vk Hvk] Hn].
    destruct (IH Hn) as (vec & held & Hp & Hlen & Hheld).
    simpl. rewrite Hvk, Hp. simpl. eexists _, _. split; [done|].
    split; [simpl; by rewrite Hlen|].
    intros n Hin. destruct (negb _).
    + apply elem_of_cons in Hin as [->|Hin]; [by left|]. right. auto.
    + right. auto.
Qed.

Lemma sample_motion_config self w x y :
  let self' := (sample_motion self w x y).1 in
  keys self' = keys self ∧ mouse_buttons self' = mouse_buttons self
  ∧ _raw_mouse self' = _raw_mouse self.
Proof.
  unfold sample_motion, _cursor_delta.
  destruct (_raw_mouse self) eqn:Hr, (poll w), (_prev_pos self); by simpl.
Qed.

Lemma sample_total self w :
  configured_ok self →
  ∃ s, sample self w
       = Some ((sample_motion self w (GetCursorPos w).1 (GetCursorPos w).2).1, s)
       ∧ motion_of s
         = (sample_motion self w (GetCursorPos w).1 (GetCursorPos w).2).2
       ∧ mouse_pos s = GetCursorPos w
       ∧ (∀ k, k ∈ snap_keys s → k ∈ keys self)
       ∧ (∀ b, b ∈ snap_mouse_buttons s → b ∈ mouse_buttons self).
Proof.
  intros [Hk Hb]. unfold sample.
  destruct (pressed_total w VK_CODE (keys self)) as (kv & kh & -> & _ & Hkh).
  { eapply Forall_impl; [exact Hk|]. by intros n ?%bool_decide_eq_true. }
  destruct (pressed_total w MOUSE_BUTTON_VK (mouse_buttons self))
    as (bv & bh & -> & _ & Hbh).
  { eapply Forall_impl; [exact Hb|]. by intros n ?%bool_decide_eq_true. }
  simpl. destruct (GetCursorPos w) as [x y]. simpl.
  destruct (sample_motion self w x y) as [self' [[dx dy] wheel]].
  eexists. split; [done|]. by repeat split.
Qed.

Lemma sample_ok self w self' s :
  configured_ok self → sample self w = Some (self', s) →
  configured_ok self' ∧ _raw_mouse self' = _raw_mouse self.
Proof.
  intros Hok Hs. destruct (sample_total self w Hok) as (s' & Hs' & _).
  rewrite Hs in Hs'. injection Hs' as -> _.
  destruct (sample_motion_config self w (GetCursorPos w).1 (GetCursorPos w).2)
    as (Hk & Hb & Hr).
  split; [|done]. destruct Hok. split; [by rewrite Hk|by rewrite Hb].
Qed.

Lemma samples_total ws : ∀ self,
  configured_ok self →
  ∃ self' snaps, samples self ws = Some (self', snaps)
                 ∧ configured_ok self'
                 ∧ _raw_mouse self' = _raw_mouse self
                 ∧ length snaps = length ws.
Proof.
  induction ws as [|w ws IH]; intros self Hok.
  - by exists self, [].
  - destruct (sample_total self w Hok) as (s & Hs & _).
    destruct (sample_ok _ _ _ _ Hok Hs) as [Hok' Hr'].
    destruct (IH _ Hok') as (self'' & snaps & Hss & Hok'' & Hr'' & Hlen).
    exists self'', (s :: snaps). simpl. rewrite Hs. simpl. rewrite Hss. simpl.
    split; [done|]. split; [done|]. split; [congruence|]. by rewrite Hlen.
Qed.

Lemma samples_snoc ws w : ∀ self self' snaps self'' s,
  samples self ws = Some (self', snaps) → sample self' w = Some (self'', s) →
  samples self (ws ++ [w]) = Some (self'', snaps ++ [s]).
Proof.
  induction ws as [|w0 ws IH]; intros self self' snaps self'' s Hss Hs.
  - simpl in Hss. injection Hss as -> <-. simpl. by rewrite Hs.
  - simpl in Hss |- *. destruct (sample self w0) as [[self1 s1]|]; [|done].
    simpl in Hss |- *.
    destruct (samples self1 ws) as [[self2 ss]|] eqn:Hss2; [|done].
    simpl in Hss. injection Hss as <- <-.
    by rewrite (IH _ _ _ _ _ Hss2 Hs).
Qed.

(** With a capture handle, the stored position is the cursor position of
    the last sample whose [poll] raised, and the initial one while none
    has. *)
Lemma samples_prev_pos ws : ∀ self self' snaps,
  configured_ok self → _raw_mouse self = true →
  samples self ws = Some (self', snaps) →
  _prev_pos self' = from_option Some (_prev_pos self) (last_failed ws).
Proof.
  induction ws as [|w ws IH] using rev_ind; intros self self' snaps Hok Hr Hss.
  - simpl in Hss. by injection Hss as <- _.
  - destruct (samples_total ws self Hok) as (self1 & ss & Hss1 & Hok1 & Hr1 & _).
    destruct (sample_total self1 w Hok1) as (s & Hs & _).
    rewrite (samples_snoc _ _ _ _ _ _ _ Hss1 Hs) in Hss. injection Hss as <- _.
    pose proof (IH _ _ _ Hok Hr Hss1) as Hprev.
    unfold last_failed. rewrite filter_app.
    unfold sample_motion. rewrite Hr1, Hr.
    destruct (poll w) as [d|] eqn:Hp.
    + rewrite filter_cons_False, filter_nil, app_nil_r by (by rewrite Hp).
      exact Hprev.
    + rewrite filter_cons_True, filter_nil, last_snoc by done.
      simpl. unfold _cursor_delta.
      destruct (_prev_pos self1); simpl; by destruct (GetCursorPos w).
Qed.

Lemma cursor_delta_diff self x y :
  (_cursor_delta self x y).2 = cursor_diff (_prev_pos self) (x, y)
  ∧ _prev_pos (_cursor_delta self x y).1 = Some (x, y).
Proof. unfold _cursor_delta, cursor_diff. by destruct (_prev_pos self). Qed.



(** C10.  With a capture handle the stored cursor position changes only
    on a sample whose [poll] raises, so a failing sample reports the move
    from the cursor position of the last failing sample before it,
    whatever succeeded in between, and zero motion if none failed
    before. *)
Theorem fallback_reference ks bs ws w :
  ∃ self snaps self' s,
    samples (__init__ ks bs true) ws = Some (self, snaps)
    ∧ _prev_pos self = last_failed ws
    ∧ sample self w = Some (self', s)
    ∧ (∀ d, poll w = Some d →
         motion_of s = d ∧ _prev_pos self' = _prev_pos self)
    ∧ (poll w = None →
         motion_of s = cursor_diff (last_failed ws) (GetCursorPos w)
         ∧ _prev_pos self' = Some (GetCursorPos w)).
Proof.
  destruct (samples_total ws (__init__ ks bs true) (init_ok _ _ _))
    as (self & snaps & Hss & Hok & Hr & _).
  destruct (sample_total self w Hok) as (s & Hs & Hm & _).
  pose proof (samples_prev_pos ws _ _ _ (init_ok _ _ _) eq_refl Hss) as Hprev.
  assert (Hlast : _prev_pos self = last_failed ws).
  { rewrite Hprev. simpl. by destruct (last_failed ws). }
  eexists self, snaps, _, s.
  split; [done|]. split; [done|]. split; [exact Hs|].
  simpl in Hr. unfold sample_motion in Hm |- *. rewrite Hr in Hm |- *.
  split.
  - intros d Hp. rewrite Hp in Hm |- *. done.
  - intros Hp. rewrite Hp in Hm |- *. cbv beta iota in Hm |- *.
    destruct (cursor_delta_diff self (GetCursorPos w).1 (GetCursorPos w).2)
      as [Hd Hpos].
    rewrite Hm, Hd, Hpos, Hlast. by destruct (GetCursorPos w).
Qed.

Lemma sampler_button_canonical b :
  known_button b = true → canonical_button b.
Proof.
  intros Hb%bool_decide_eq_true.
  apply elem_of_dom, elem_of_elements in Hb. revert b Hb.
  apply Forall_forall. vm_compute elements.
  repeat (apply Forall_cons; split;
            [vm_compute; split; [eexists|split; [eexists|]]; reflexivity|]).
  apply Forall_nil_2.
Qed.


End SamplerProps.
(** ** Stored names *)

Section RaisingProps.
Import Py keymap keyboard_mouse.
Variable str_to_int : string → option Z.
Variable str_to_float : string → option pyfloat.










End RaisingProps.


(** ** The first absolute sample *)

Lemma first_absolute_motion self m :
  raw_input._last_abs self = None →
  Z.land (raw_input.usFlags m) raw_input.MOUSE_MOVE_ABSOLUTE ≠ 0 →
  raw_input.motion self m = (raw_input.lLastX m, raw_input.lLastY m)
  ∧ raw_input.next_abs self m
    = Some (raw_input.lLastX m, raw_input.lLastY m).
Proof.
  intros Hl Hf. unfold raw_input.motion, raw_input.next_abs.
  by rewrite Hl, bool_decide_true.
Qed.

(** C2 on the code.  The first absolute-mode event a fresh hook handles,
    reporting position (100, 200), adds (100, 200) to the counters, not
    (0, 0), and stores the position as the last absolute sample. *)
Theorem first_absolute_sample_counted :
  let hook := raw_input.__init__ true in
  let hook' :=
    (raw_input._handle_message (λ _, examples.absolute_sample) hook
       raw_input.WM_INPUT 0 7).1 in
  raw_input.delta (λ _, examples.absolute_sample) hook
    {| raw_input.msg := raw_input.WM_INPUT; raw_input.wparam := 0;
       raw_input.lparam := 7 |} = (100, 200, 0)
  ∧ (raw_input._dx hook', raw_input._dy hook', raw_input._wheel hook')
    = (100, 200, 0)
  ∧ raw_input._last_abs hook' = Some (100, 200)
  ∧ (raw_input.poll hook').2 = (100, 200, 0).
Proof. vm_compute. repeat split; reflexivity. Qed.

(** ** The theorems at concrete inputs *)

(** C1 at a concrete call: the press of [w] at index 0 and the release of
    the left button at index 1, in phase order. *)
Lemma step_emission_order_witness :
  let held :=
    (keyboard_mouse.step Py.decimal_int Py.decimal_float
       examples.plain examples.hold_left).1 in
  let evs :=
    (keyboard_mouse.step Py.decimal_int Py.decimal_float
       held examples.hold_w).2 in
  (evs !! 0%nat = Some (keyboard_mouse.key_event "w" true)
   ∧ evs !! 1%nat = Some (keyboard_mouse.mouse_button_event "left" false))
  ∧ (0 < 1)%nat.
Proof.
  cbv zeta.
  assert (H0 :
    (keyboard_mouse.step Py.decimal_int Py.decimal_float
       (keyboard_mouse.step Py.decimal_int Py.decimal_float
          examples.plain examples.hold_left).1 examples.hold_w).2 !! 0%nat
    = Some (keyboard_mouse.key_event "w" true)) by (vm_compute; reflexivity).
  assert (H1 :
    (keyboard_mouse.step Py.decimal_int Py.decimal_float
       (keyboard_mouse.step Py.decimal_int Py.decimal_float
          examples.plain examples.hold_left).1 examples.hold_w).2 !! 1%nat
    = Some (keyboard_mouse.mouse_button_event "left" false))
    by (vm_compute; reflexivity).
  split; [by split|].
  apply (proj1 (proj2 (step_emission_order Py.decimal_int Py.decimal_float
                         _ examples.hold_w)) 0%nat 1%nat _ _ H0 H1).
  simpl. lia.
Defined.

(** C4 at the whitelist [w; a; s; d]. *)
Lemma release_completeness_witness :
  (keyboard_mouse.pressed_keys examples.wasd = ∅
   ∧ keyboard_mouse.pressed_mouse_buttons examples.wasd = ∅
   ∧ keyboard_mouse.key_list examples.wasd = Some ["w"; "a"; "s"; "d"]
   ∧ keyboard_mouse.dry_run examples.wasd = false)
  ∧ (let first :=
       keyboard_mouse.step Py.decimal_int Py.decimal_float
         examples.wasd examples.keys_1001 in
     let second :=
       keyboard_mouse.step Py.decimal_int Py.decimal_float
         first.1 examples.keys_0000 in
     keyboard_mouse.pressed_keys first.1 = {[ "w"; "d" ]}
     ∧ second.2 ≡ₚ [keyboard_mouse.key_event "w" false;
                    keyboard_mouse.key_event "d" false]
     ∧ keyboard_mouse.pressed_keys second.1 = ∅).
Proof.
  split; [by repeat split|].
  exact (proj2 (release_completeness Py.decimal_int Py.decimal_float
                  examples.wasd eq_refl eq_refl) eq_refl eq_refl).
Defined.

(** C6 at a vector of three numbers against four names. *)
Lemma vector_decoding_witness :
  (keyboard_mouse.key_list examples.wasd = Some ["w"; "a"; "s"; "d"]
   ∧ length [Py.PInt 1; Py.PInt 0; Py.PInt 1] ≠ length ["w"; "a"; "s"; "d"])
  ∧ keyboard_mouse._extract_keys Py.decimal_float examples.wasd
      (Py.OList [Py.PInt 1; Py.PInt 0; Py.PInt 1]) = ∅.
Proof.
  split; [by split|].
  apply (proj1 (proj2 (vector_decoding Py.decimal_float examples.wasd
                         ["w"; "a"; "s"; "d"]
                         (Py.OList [Py.PInt 1; Py.PInt 0; Py.PInt 1])
                         [Py.PInt 1; Py.PInt 0; Py.PInt 1]
                         eq_refl (or_introl eq_refl)
                         ltac:(repeat constructor)))).
  simpl. lia.
Defined.



(** C10 at a failing sample at (0, 0), a successful one at (10, 10) and
    a failing one at (15, 15): the last reports (15, 15), not (5, 5). *)
Lemma fallback_reference_witness :
  keyboard_mouse_state.poll (examples.host_at 15 15 None) = None
  ∧ ∃ self snaps self' s,
      keyboard_mouse_state.samples
        (keyboard_mouse_state.__init__ ["w"] ["left"] true)
        [examples.host_at 0 0 None; examples.host_at 10 10 (Some (7, 7, 0))]
      = Some (self, snaps)
      ∧ keyboard_mouse_state.sample self (examples.host_at 15 15 None)
        = Some (self', s)
      ∧ keyboard_mouse_state.motion_of s = (15, 15, 0)
      ∧ keyboard_mouse_state._prev_pos self' = Some (15, 15).
Proof.
  split; [reflexivity|].
  destruct (fallback_reference ["w"] ["left"]
              [examples.host_at 0 0 None;
               examples.host_at 10 10 (Some (7, 7, 0))]
              (examples.host_at 15 15 None))
    as (self & snaps & self' & s & Hss & Hprev & Hs & _ & Hfail).
  destruct (Hfail eq_refl) as [Hm Hp].
  exists self, snaps, self', s. split; [exact Hss|]. split; [exact Hs|].
  split; [|exact Hp]. rewrite Hm. vm_compute. reflexivity.
Defined.

(** C1, as stated, fails: a controller holding the left button that is
    asked to hold [w] instead sends the press of [w] before the release
    of the button. *)
Lemma step_press_before_release :
  let held :=
    (keyboard_mouse.step Py.decimal_int Py.decimal_float
       examples.plain examples.hold_left).1 in
  (keyboard_mouse.step Py.decimal_int Py.decimal_float
     held examples.hold_w).2
  = [keyboard_mouse.key_event "w" true;
     keyboard_mouse.mouse_button_event "left" false]
  ∧ ¬ keyboard_mouse.releases_before_presses
        (keyboard_mouse.step Py.decimal_int Py.decimal_float
           held examples.hold_w).2.
Proof.
  assert (Hrun :
    (keyboard_mouse.step Py.decimal_int Py.decimal_float
       (keyboard_mouse.step Py.decimal_int Py.decimal_float
          examples.plain examples.hold_left).1 examples.hold_w).2
    = [keyboard_mouse.key_event "w" true;
       keyboard_mouse.mouse_button_event "left" false])
    by (vm_compute; reflexivity).
  cbv zeta. split; [exact Hrun|]. rewrite Hrun. intros H.
  specialize (H 1%nat 0%nat _ _ eq_refl eq_refl eq_refl eq_refl). lia.
Qed.



(** * Further properties *)

(** ** Normalisation of names *)

Section StringFacts.
Import keymap.

Lemma append_cons (a : ascii) (s t : string) :
  String a s +:+ t = String a (s +:+ t).
Proof. reflexivity. Qed.

Lemma append_empty_r (s : string) : s +:+ EmptyString = s.
Proof. induction s as [|a s IH]; [done|]. by rewrite append_cons, IH. Qed.

Lemma append_assoc' (s t u : string) : (s +:+ t) +:+ u = s +:+ (t +:+ u).
Proof. induction s as [|a s IH]; [done|]. by rewrite !append_cons, IH. Qed.

Lemma rev_app_append (s t : string) :
  String.rev_app s t = String.rev s +:+ t.
Proof.
  revert t. induction s as [|a s IH]; intros t; [done|].
  unfold String.rev. cbn. rewrite (IH (String a t)), (IH (String a EmptyString)).
  by rewrite append_assoc'.
Qed.

Lemma rev_cons (a : ascii) (s : string) :
  String.rev (String a s) = String.rev s +:+ String a EmptyString.
Proof. unfold String.rev at 1. cbn. apply rev_app_append. Qed.

Lemma rev_append (s t : string) :
  String.rev (s +:+ t) = String.rev t +:+ String.rev s.
Proof.
  induction s as [|a s IH].
  - change (EmptyString +:+ t) with t. by rewrite append_empty_r.
  - rewrite append_cons, !rev_cons, IH. by rewrite append_assoc'.
Qed.

Lemma rev_rev (s : string) : String.rev (String.rev s) = s.
Proof.
  induction s as [|a s IH]; [done|]. by rewrite rev_cons, rev_append, IH.
Qed.

Lemma rev_empty (s : string) : String.rev s = EmptyString → s = EmptyString.
Proof. intros H. by rewrite <- (rev_rev s), H. Qed.

(** Stripping on the left of a string with one more character at its
    end. *)
Lemma lstrip_snoc (s : string) (c : ascii) :
  lstrip (s +:+ String c EmptyString)
  = if bool_decide (lstrip s = EmptyString)
    then (if is_space c then EmptyString else String c EmptyString)
    else lstrip s +:+ String c EmptyString.
Proof.
  induction s as [|a s IH].
  - change (EmptyString +:+ String c EmptyString) with (String c EmptyString).
    cbn. by destruct (is_space c).
  - rewrite append_cons. cbn [lstrip].
    destruct (is_space a); [exact IH|]. by rewrite bool_decide_false.
Qed.

(** [rstrip], one character at a time. *)
Lemma rstrip_cons (c : ascii) (s : string) :
  rstrip (String c s)
  = if bool_decide (rstrip s = EmptyString)
    then (if is_space c then EmptyString else String c EmptyString)
    else String c (rstrip s).
Proof.
  unfold rstrip. rewrite rev_cons, lstrip_snoc.
  destruct (decide (lstrip (String.rev s) = EmptyString)) as [He|Hne].
  - rewrite He. rewrite !bool_decide_true by done. by destruct (is_space c).
  - rewrite bool_decide_false by done.
    rewrite bool_decide_false by (by intros ?%rev_empty).
    by rewrite rev_append.
Qed.

Lemma lstrip_lstrip s : lstrip (lstrip s) = lstrip s.
Proof.
  induction s as [|a s IH]; [done|]. cbn.
  destruct (is_space a) eqn:Ha; [done|]. cbn. by rewrite Ha.
Qed.

Lemma rstrip_rstrip s : rstrip (rstrip s) = rstrip s.
Proof.
  induction s as [|a s IH]; [done|]. rewrite rstrip_cons.
  case_bool_decide as He.
  - destruct (is_space a) eqn:Ha; [done|].
    rewrite rstrip_cons. change (rstrip EmptyString) with EmptyString.
    by rewrite bool_decide_true, Ha.
  - rewrite rstrip_cons, IH. by rewrite bool_decide_false.
Qed.

Lemma lstrip_rstrip s : lstrip (rstrip s) = rstrip (lstrip s).
Proof.
  induction s as [|a s IH]; [done|]. rewrite rstrip_cons. cbn [lstrip].
  destruct (is_space a) eqn:Ha.
  - case_bool_decide as He.
    + cbn. rewrite <- IH, He. done.
    + cbn. by rewrite Ha.
  - rewrite rstrip_cons. case_bool_decide; cbn; by rewrite Ha.
Qed.

Lemma strip_strip s : strip (strip s) = strip s.
Proof.
  unfold strip. by rewrite lstrip_rstrip, lstrip_lstrip, rstrip_rstrip.
Qed.

Lemma lower_char_lower_char c : lower_char (lower_char c) = lower_char c.
Proof. by destruct c as [[] [] [] [] [] [] [] []]. Qed.

Lemma is_space_lower_char c : is_space (lower_char c) = is_space c.
Proof. by destruct c as [[] [] [] [] [] [] [] []]. Qed.

Lemma lower_lower s : lower (lower s) = lower s.
Proof.
  induction s as [|a s IH]; [done|]. cbn. by rewrite lower_char_lower_char, IH.
Qed.

Lemma lstrip_lower s : lstrip (lower s) = lower (lstrip s).
Proof.
  induction s as [|a s IH]; [done|]. cbn. rewrite is_space_lower_char.
  by destruct (is_space a).
Qed.

Lemma lower_empty s : lower s = EmptyString ↔ s = EmptyString.
Proof. by destruct s. Qed.

Lemma rstrip_lower s : rstrip (lower s) = lower (rstrip s).
Proof.
  induction s as [|a s IH]; [done|]. cbn [lower]. rewrite !rstrip_cons, IH.
  rewrite is_space_lower_char.
  destruct (decide (rstrip s = EmptyString)) as [He|Hne].
  - rewrite !bool_decide_true by (by rewrite ?lower_empty).
    by destruct (is_space a).
  - by rewrite !bool_decide_false by (by rewrite ?lower_empty).
Qed.

Lemma strip_lower s : strip (lower s) = lower (strip s).
Proof. unfold strip. by rewrite lstrip_lower, rstrip_lower. Qed.

(** Lower-casing and stripping reach a fixed point in one pass. *)
Lemma fold_fold s : lower (strip (lower (strip s))) = lower (strip s).
Proof. by rewrite strip_lower, strip_strip, lower_lower. Qed.

End StringFacts.

Section NormaliseProps.
Import keymap.

Lemma alias_targets_fixed key target :
  KEY_ALIASES !! key = Some target → normalize_key target = target.
Proof.
  intros H. apply elem_of_list_to_map_2 in H.
  repeat (apply elem_of_cons in H as [H|H];
          [simplify_eq; vm_compute; reflexivity|]).
  by apply elem_of_nil in H.
Qed.

(** X1.  Normalising a key name twice is the same as normalising it
    once, for every name of code points below U+0100, white space and
    capitals of Latin-1 included. *)
Theorem normalize_key_idempotent name :
  normalize_key (normalize_key name) = normalize_key name.
Proof.
  assert (Hn : normalize_key name
               = default (lower (strip name))
                   (KEY_ALIASES !! lower (strip name))) by reflexivity.
  destruct (KEY_ALIASES !! lower (strip name)) as [target|] eqn:Ha;
    rewrite Hn; simpl.
  - by eapply alias_targets_fixed.
  - unfold normalize_key. by rewrite fold_fold, Ha.
Qed.

(** X2.  Normalising a button name twice is the same as normalising it
    once, for every name of code points below U+0100. *)
Theorem normalize_mouse_button_idempotent name :
  normalize_mouse_button (normalize_mouse_button name)
  = normalize_mouse_button name.
Proof.
  assert (Hn : ∀ n, normalize_mouse_button n
    = let button := lower (strip n) in
      if bool_decide (button ∈ ["mouse1"; "button1"]) then "left"
      else if bool_decide (button ∈ ["mouse2"; "button2"]) then "right"
      else if bool_decide (button ∈ ["mouse3"; "button3"]) then "middle"
      else if bool_decide (button ∈ ["mouse4"; "button4"]) then "x1"
      else if bool_decide (button ∈ ["mouse5"; "button5"]) then "x2"
      else button) by reflexivity.
  rewrite (Hn name). cbv zeta.
  repeat (case_bool_decide; [vm_compute; reflexivity|]).
  rewrite Hn. cbv zeta. rewrite fold_fold.
  by rewrite !bool_decide_false.
Qed.

(** X3.  For every name of code points below U+0100, case and
    surrounding white space, as [str.lower] and [str.strip] take them
    on these code points, play no part in what the name normalises
    to. *)
Theorem normalize_ignores_case_and_space name :
  normalize_key (lower name) = normalize_key name
  ∧ normalize_key (strip name) = normalize_key name
  ∧ normalize_mouse_button (lower name) = normalize_mouse_button name
  ∧ normalize_mouse_button (strip name) = normalize_mouse_button name.
Proof.
  unfold normalize_key, normalize_mouse_button.
  by rewrite strip_lower, lower_lower, strip_strip.
Qed.

End NormaliseProps.

(** ** The list parsers and the configured lists *)

Section ParseProps.
Import keymap.

Lemma parse_loop_spec (normalize : string → string) (known : string → bool)
    (toks : list string) : ∀ acc,
  NoDup acc →
  NoDup (foldl (λ keys token,
                  let norm := normalize token in
                  if known norm && negb (bool_decide (norm ∈ keys))
                  then keys ++ [norm] else keys) acc toks)
  ∧ ∀ x, x ∈ foldl (λ keys token,
                      let norm := normalize token in
                      if known norm && negb (bool_decide (norm ∈ keys))
                      then keys ++ [norm] else keys) acc toks
         ↔ x ∈ acc ∨ ∃ t, t ∈ toks ∧ normalize t = x ∧ known x = true.
Proof.
  induction toks as [|t toks IH]; intros acc Hacc.
  - split; [done|]. intros x. split; [by left|].
    intros [?|(t & Ht%elem_of_nil & _)]; done.
  - cbn [foldl]. cbv zeta.
    destruct (known (normalize t)) eqn:Hk; cbn [andb].
    + case_bool_decide as Hin; cbn [negb].
      * destruct (IH acc Hacc) as [Hnd Hx]. split; [done|].
        intros x. rewrite Hx. split.
        -- intros [?|(t' & Ht' & Hn & Hkn)]; [by left|].
           right. exists t'. split; [by right|done].
        -- intros [?|(t' & Ht' & Hn & Hkn)]; [by left|].
           apply elem_of_cons in Ht' as [->|Ht'].
           ++ left. by rewrite <- Hn.
           ++ right. by exists t'.
      * assert (Hnd' : NoDup (acc ++ [normalize t])).
        { apply NoDup_app. split; [done|]. split; [|apply NoDup_singleton].
          intros y Hy ->%list_elem_of_singleton. done. }
        destruct (IH _ Hnd') as [Hnd Hx]. split; [done|].
        intros x. rewrite Hx, elem_of_app, list_elem_of_singleton. split.
        -- intros [[?| ->]|(t' & Ht' & Hn & Hkn)].
           ++ by left.
           ++ right. exists t. split; [by left|done].
           ++ right. exists t'. split; [by right|done].
        -- intros [?|(t' & Ht' & Hn & Hkn)]; [by left; left|].
           apply elem_of_cons in Ht' as [->|Ht'].
           ++ left. right. done.
           ++ right. by exists t'.
    + destruct (IH acc Hacc) as [Hnd Hx]. split; [done|].
      intros x. rewrite Hx. split.
      * intros [?|(t' & Ht' & Hn & Hkn)]; [by left|].
        right. exists t'. split; [by right|done].
      * intros [?|(t' & Ht' & Hn & Hkn)]; [by left|].
        apply elem_of_cons in Ht' as [->|Ht'].
        -- rewrite Hn in Hk. congruence.
        -- right. by exists t'.
Qed.

Lemma parse_tokens_spec normalize known toks :
  NoDup (parse_tokens normalize known toks)
  ∧ ∀ x, x ∈ parse_tokens normalize known toks
         ↔ ∃ t, t ∈ toks ∧ normalize t = x ∧ known x = true.
Proof.
  destruct (parse_loop_spec normalize known toks [] (NoDup_nil_2))
    as [Hnd Hx].
  split; [exact Hnd|]. intros x. unfold parse_tokens. rewrite Hx.
  split; [|by right]. intros [Hin|?]; [|done]. by apply elem_of_nil in Hin.
Qed.

(** A list without repeats of known names that normalisation leaves
    alone passes through the loop unchanged. *)
Lemma parse_loop_fixed (normalize : string → string) (known : string → bool)
    (l : list string) : ∀ acc,
  NoDup (acc ++ l) →
  Forall (λ n, known n = true ∧ normalize n = n) l →
  foldl (λ keys token,
           let norm := normalize token in
           if known norm && negb (bool_decide (norm ∈ keys))
           then keys ++ [norm] else keys) acc l = acc ++ l.
Proof.
  induction l as [|n l IH]; intros acc Hnd Hl.
  - by rewrite app_nil_r.
  - apply Forall_cons in Hl as [[Hk Hn] Hl]. cbn [foldl]. cbv zeta.
    rewrite Hn, Hk. cbn [andb].
    assert (Hnot : n ∉ acc).
    { apply NoDup_app in Hnd as (_ & Hd & _). intros Hin.
      apply (Hd n Hin). by left. }
    rewrite bool_decide_false by done. cbn [negb].
    rewrite IH; [by rewrite <- app_assoc| by rewrite <- app_assoc|done].
Qed.

Lemma parse_tokens_fixed normalize known l :
  NoDup l → Forall (λ n, known n = true ∧ normalize n = n) l →
  parse_tokens normalize known l = l.
Proof. intros Hnd Hl. by apply (parse_loop_fixed normalize known l []). Qed.



End ParseProps.

Section ParserTheorems.
Import keymap.



End ParserTheorems.

Section ConfiguredProps.
Import keymap.

Lemma key_list_fixed (l : list string) :
  NoDup l → Forall canonical_key l →
  parse_tokens normalize_key keyboard_mouse_state.known_key l = l.
Proof.
  intros Hnd Hl. apply parse_tokens_fixed; [done|].
  eapply Forall_impl; [exact Hl|]. intros k [Hk Hn]. split; [|done].
  by apply bool_decide_eq_true.
Qed.

Lemma button_list_fixed (l : list string) :
  NoDup l → Forall canonical_button l →
  parse_tokens normalize_mouse_button keyboard_mouse_state.known_button l = l.
Proof.
  intros Hnd Hl. apply parse_tokens_fixed; [done|].
  eapply Forall_impl; [exact Hl|]. intros k (_ & Hk & Hn). split; [|done].
  by apply bool_decide_eq_true.
Qed.

Lemma configured_keys_spec ks :
  NoDup (keyboard_mouse_state.configured normalize_key
           keyboard_mouse_state.known_key ks)
  ∧ Forall canonical_key
      (keyboard_mouse_state.configured normalize_key
         keyboard_mouse_state.known_key ks)
  ∧ ∀ k, k ∈ keyboard_mouse_state.configured normalize_key
               keyboard_mouse_state.known_key ks
         ↔ ∃ n, n ∈ ks ∧ normalize_key n = k ∧ is_Some (VK_CODE !! k).
Proof.
  destruct (parse_tokens_spec normalize_key
              keyboard_mouse_state.known_key ks) as [Hnd Hx].
  split; [exact Hnd|]. split.
  - apply Forall_forall. intros k Hk.
    apply (Hx k) in Hk as (n & _ & _ & Hk). by apply known_key_canonical.
  - intros k. etrans; [apply (Hx k)|].
    unfold keyboard_mouse_state.known_key.
    by setoid_rewrite bool_decide_eq_true.
Qed.

Lemma configured_buttons_spec bs :
  NoDup (keyboard_mouse_state.configured normalize_mouse_button
           keyboard_mouse_state.known_button bs)
  ∧ Forall canonical_button
      (keyboard_mouse_state.configured normalize_mouse_button
         keyboard_mouse_state.known_button bs)
  ∧ ∀ b, b ∈ keyboard_mouse_state.configured normalize_mouse_button
               keyboard_mouse_state.known_button bs
         ↔ ∃ n, n ∈ bs ∧ normalize_mouse_button n = b
                ∧ is_Some (MOUSE_BUTTON_VK !! b).
Proof.
  destruct (parse_tokens_spec normalize_mouse_button
              keyboard_mouse_state.known_button bs) as [Hnd Hx].
  split; [exact Hnd|]. split.
  - apply Forall_forall. intros k Hk.
    apply (Hx k) in Hk as (n & _ & _ & Hk).
    by apply sampler_button_canonical.
  - intros k. etrans; [apply (Hx k)|].
    unfold keyboard_mouse_state.known_button.
    by setoid_rewrite bool_decide_eq_true.
Qed.

(** X6.  The sampler's constructor keeps, in both configured lists, each
    known name once: exactly the known names its arguments normalise to,
    without repeats.  Built again from its own lists it is the same
    sampler. *)
Theorem sampler_configuration ks bs raw_mouse :
  let self := keyboard_mouse_state.__init__ ks bs raw_mouse in
  NoDup (keyboard_mouse_state.keys self)
  ∧ NoDup (keyboard_mouse_state.mouse_buttons self)
  ∧ (∀ k, k ∈ keyboard_mouse_state.keys self
          ↔ ∃ n, n ∈ ks ∧ normalize_key n = k ∧ is_Some (VK_CODE !! k))
  ∧ (∀ b, b ∈ keyboard_mouse_state.mouse_buttons self
          ↔ ∃ n, n ∈ bs ∧ normalize_mouse_button n = b
                 ∧ is_Some (MOUSE_BUTTON_VK !! b))
  ∧ keyboard_mouse_state.__init__ (keyboard_mouse_state.keys self)
      (keyboard_mouse_state.mouse_buttons self) raw_mouse = self.
Proof.
  destruct (configured_keys_spec ks) as (Hkd & Hkc & Hk).
  destruct (configured_buttons_spec bs) as (Hbd & Hbc & Hb).
  cbv zeta. split; [exact Hkd|]. split; [exact Hbd|].
  split; [exact Hk|]. split; [exact Hb|].
  unfold keyboard_mouse_state.__init__.
  cbn [keyboard_mouse_state.keys keyboard_mouse_state.mouse_buttons].
  f_equal.
  - by apply key_list_fixed.
  - by apply button_list_fixed.
Qed.

End ConfiguredProps.

Section ListsAgree.
Import keymap.

Lemma fmap_fixed (normalize : string → string) (l : list string) :
  Forall (λ n, normalize n = n) l → normalize <$> l = l.
Proof.
  induction 1 as [|n l Hn _ IH]; [done|]. cbn. by rewrite Hn, IH.
Qed.

Lemma filter_all (known : string → bool) (l : list string) :
  Forall (λ n, known n = true) l → List.filter known l = l.
Proof.
  induction 1 as [|n l Hn _ IH]; [done|]. cbn. by rewrite Hn, IH.
Qed.

Lemma init_list_fixed (normalize : string → string) (known : string → bool)
    (l : list string) :
  Forall (λ n, known n = true ∧ normalize n = n) l →
  keyboard_mouse.init_list normalize known (Some l)
  = match l with [] => None | _ => Some l end.
Proof.
  intros Hl. destruct l as [|n l]; [done|].
  assert (Hf : normalize <$> n :: l = n :: l).
  { apply fmap_fixed. eapply Forall_impl; [exact Hl|]. by intros ? [_ ?]. }
  assert (Hk : List.filter known (n :: l) = n :: l).
  { apply filter_all. eapply Forall_impl; [exact Hl|]. by intros ? [? _]. }
  unfold keyboard_mouse.init_list.
  change (keyboard_mouse.nonempty (Some (n :: l))) with true. cbv iota.
  change (fmap normalize <$> Some (n :: l)) with (Some (normalize <$> n :: l)).
  rewrite Hf.
  change (keyboard_mouse.nonempty (Some (n :: l))) with true. cbv iota.
  change (List.filter known <$> Some (n :: l))
    with (Some (List.filter known (n :: l))).
  by rewrite Hk.
Qed.

Lemma controller_lists SA PA dry bk keys buttons c :
  keyboard_mouse.__init__ SA PA dry bk keys buttons = Some c →
  keyboard_mouse.key_list c
  = keyboard_mouse.init_list normalize_key keyboard_mouse.known_key keys
  ∧ keyboard_mouse.mouse_button_list c
    = keyboard_mouse.init_list normalize_mouse_button
        keyboard_mouse.known_button buttons.
Proof.
  unfold keyboard_mouse.__init__. intros Hc.
  destruct bk, SA, PA; cbn -[keyboard_mouse.init_list] in Hc;
    try discriminate Hc; by injection Hc as <-.
Qed.

Lemma parsed_keys_canonical raw default :
  raw ≠ EmptyString →
  NoDup (parse_key_list (Some raw) default)
  ∧ Forall canonical_key (parse_key_list (Some raw) default).
Proof.
  intros Hraw.
  assert (Hp : parse_key_list (Some raw) default
    = parse_tokens normalize_key
        (λ norm, bool_decide (is_Some (VK_CODE !! norm))) (tokens raw))
    by (by destruct raw).
  rewrite Hp.
  destruct (parse_tokens_spec normalize_key
              (λ norm, bool_decide (is_Some (VK_CODE !! norm))) (tokens raw))
    as [Hnd Hx].
  split; [done|].
  apply Forall_forall. intros k (t & _ & _ & Hk)%Hx.
  by apply known_key_canonical.
Qed.

Lemma parsed_buttons_canonical raw default :
  raw ≠ EmptyString →
  NoDup (parse_mouse_button_list (Some raw) default)
  ∧ Forall canonical_button (parse_mouse_button_list (Some raw) default).
Proof.
  intros Hraw.
  assert (Hp : parse_mouse_button_list (Some raw) default
    = parse_tokens normalize_mouse_button
        (λ norm, bool_decide (is_Some (MOUSE_BUTTON_FLAGS !! norm)))
        (tokens raw))
    by (by destruct raw).
  rewrite Hp.
  destruct (parse_tokens_spec normalize_mouse_button
              (λ norm, bool_decide (is_Some (MOUSE_BUTTON_FLAGS !! norm)))
              (tokens raw))
    as [Hnd Hx].
  split; [done|].
  apply Forall_forall. intros k (t & _ & _ & Hk)%Hx.
  by apply known_button_canonical.
Qed.

(** X7.  Lists that the two parsers return pass through both
    constructors unchanged: the sampler configures exactly the parsed
    lists, and the controller takes each as its whitelist, or takes no
    whitelist when the list is empty.  The sampler's vectors and the
    controller's positional decoding so run over the same names in the
    same order. *)
Theorem parsed_lists_kept raw_keys raw_buttons dk db raw_mouse :
  raw_keys ≠ EmptyString → raw_buttons ≠ EmptyString →
  let ks := parse_key_list (Some raw_keys) dk in
  let bs := parse_mouse_button_list (Some raw_buttons) db in
  keyboard_mouse_state.keys (keyboard_mouse_state.__init__ ks bs raw_mouse)
  = ks
  ∧ keyboard_mouse_state.mouse_buttons
      (keyboard_mouse_state.__init__ ks bs raw_mouse) = bs
  ∧ ∀ SA PA dry bk c,
      keyboard_mouse.__init__ SA PA dry bk (Some ks) (Some bs) = Some c →
      keyboard_mouse.key_list c = match ks with [] => None | _ => Some ks end
      ∧ keyboard_mouse.mouse_button_list c
        = match bs with [] => None | _ => Some bs end.
Proof.
  intros Hk Hb ks bs.
  destruct (parsed_keys_canonical raw_keys dk Hk) as (Hknd & Hkc).
  destruct (parsed_buttons_canonical raw_buttons db Hb) as (Hbnd & Hbc).
  fold ks in Hknd, Hkc. fold bs in Hbnd, Hbc.
  split; [by apply key_list_fixed|]. split; [by apply button_list_fixed|].
  intros SA PA dry bk c Hc.
  destruct (controller_lists _ _ _ _ _ _ _ Hc) as [-> ->].
  split; apply init_list_fixed.
  - eapply Forall_impl; [exact Hkc|]. intros k [Hin Hn]. split; [|done].
    by apply bool_decide_eq_true.
  - eapply Forall_impl; [exact Hbc|]. intros k (Hin & _ & Hn). split; [|done].
    by apply bool_decide_eq_true.
Qed.

End ListsAgree.

(** X7 at the text ["w,a s d"] for keys and ["left right"] for buttons. *)
Lemma parsed_lists_kept_witness :
  ("w,a s d" ≠ EmptyString ∧ "left right" ≠ EmptyString)
  ∧ keyboard_mouse_state.keys
      (keyboard_mouse_state.__init__
         (keymap.parse_key_list (Some "w,a s d") [])
         (keymap.parse_mouse_button_list (Some "left right") []) true)
    = keymap.parse_key_list (Some "w,a s d") [].
Proof.
  split; [by split|].
  exact (proj1 (parsed_lists_kept "w,a s d" "left right" [] [] true
                  ltac:(discriminate) ltac:(discriminate))).
Defined.

(** ** Traces of the controller *)

Section ControllerTraces.
Import Py keymap keyboard_mouse.
Variable str_to_int : string → option Z.
Variable str_to_float : string → option pyfloat.
Local Abbreviation step := (keyboard_mouse.step str_to_int str_to_float).
Local Abbreviation serve := (keyboard_mouse.serve str_to_int str_to_float).
Local Abbreviation emitted :=
  (keyboard_mouse.emitted str_to_int str_to_float).
Local Abbreviation trace := (keyboard_mouse.trace str_to_int str_to_float).
Local Abbreviation value := (keyboard_mouse._value_from_action str_to_int).
Local Abbreviation extract_keys :=
  (keyboard_mouse._extract_keys str_to_float).
Local Abbreviation extract_buttons :=
  (keyboard_mouse._extract_buttons str_to_float).

Lemma apply_key_releases l : ∀ down,
  foldl apply_event down ((λ key, key_event key false) <$> l)
  = (down.1 ∖ list_to_set l, down.2).
Proof.
  induction l as [|k l IH]; intros [ks bs]; cbn [fmap list_fmap foldl].
  - cbn. f_equal. apply set_eq. intros x.
    rewrite elem_of_difference, elem_of_empty. tauto.
  - rewrite IH. cbn. f_equal. apply set_eq. intros x.
    rewrite !elem_of_difference, elem_of_union, elem_of_singleton. tauto.
Qed.

Lemma apply_key_presses l : ∀ down,
  foldl apply_event down ((λ key, key_event key true) <$> l)
  = (down.1 ∪ list_to_set l, down.2).
Proof.
  induction l as [|k l IH]; intros [ks bs]; cbn [fmap list_fmap foldl].
  - cbn. f_equal. apply set_eq. intros x.
    rewrite elem_of_union, elem_of_empty. tauto.
  - rewrite IH. cbn. f_equal. apply set_eq. intros x.
    rewrite !elem_of_union, elem_of_singleton. tauto.
Qed.

Lemma apply_button_releases l : ∀ down,
  foldl apply_event down ((λ button, mouse_button_event button false) <$> l)
  = (down.1, down.2 ∖ list_to_set l).
Proof.
  induction l as [|k l IH]; intros [ks bs]; cbn [fmap list_fmap foldl].
  - cbn. f_equal. apply set_eq. intros x.
    rewrite elem_of_difference, elem_of_empty. tauto.
  - rewrite IH. cbn. f_equal. apply set_eq. intros x.
    rewrite !elem_of_difference, elem_of_union, elem_of_singleton. tauto.
Qed.

Lemma apply_button_presses l : ∀ down,
  foldl apply_event down ((λ button, mouse_button_event button true) <$> l)
  = (down.1, down.2 ∪ list_to_set l).
Proof.
  induction l as [|k l IH]; intros [ks bs]; cbn [fmap list_fmap foldl].
  - cbn. f_equal. apply set_eq. intros x.
    rewrite elem_of_union, elem_of_empty. tauto.
  - rewrite IH. cbn. f_equal. apply set_eq. intros x.
    rewrite !elem_of_union, elem_of_singleton. tauto.
Qed.

Lemma apply_tail down dx dy wheel :
  foldl apply_event down
    ((if bool_decide (dx ≠ 0 ∨ dy ≠ 0) then [mouse_move dx dy] else [])
     ++ (if bool_decide (wheel ≠ 0) then [mouse_wheel wheel] else []))
  = down.
Proof. by do 2 case_bool_decide. Qed.

Lemma diff_applied (P D : gset string) : (P ∖ (P ∖ D)) ∪ (D ∖ P) = D.
Proof.
  apply set_eq. intros x.
  rewrite elem_of_union, !elem_of_difference.
  destruct (decide (x ∈ P)), (decide (x ∈ D)); tauto.
Qed.

Lemma apply_step_events (P B D E : gset string) dx dy wheel :
  foldl apply_event (P, B)
    (step_events (P ∖ D) (D ∖ P) (B ∖ E) (E ∖ B) dx dy wheel)
  = (D, E).
Proof.
  unfold step_events.
  rewrite foldl_app, apply_key_releases, foldl_app, apply_key_presses,
    foldl_app, apply_button_releases, foldl_app, apply_button_presses,
    apply_tail.
  cbn [fst snd]. rewrite !list_to_set_elements_L. by rewrite !diff_applied.
Qed.

Lemma apply_reset_events (P B : gset string) :
  foldl apply_event (P, B)
    (((λ key, key_event key false) <$> elements P)
     ++ ((λ button, mouse_button_event button false) <$> elements B))
  = (∅, ∅).
Proof.
  rewrite foldl_app, apply_key_releases, apply_button_releases.
  cbn [fst snd]. rewrite !list_to_set_elements_L.
  f_equal; apply set_eq; intros x;
    rewrite elem_of_difference, elem_of_empty; tauto.
Qed.

Lemma serve_dry_run c r : dry_run (serve c r) = dry_run c.
Proof. by destruct r. Qed.

Lemma emitted_applied c r :
  dry_run c = false →
  foldl apply_event (pressed_keys c, pressed_mouse_buttons c) (emitted c r)
  = (pressed_keys (serve c r), pressed_mouse_buttons (serve c r)).
Proof.
  intros Hd. destruct r as [act|].
  - unfold keyboard_mouse.emitted, keyboard_mouse.serve,
      keyboard_mouse.step. cbn [fst snd pressed_keys pressed_mouse_buttons].
    rewrite Hd. apply apply_step_events.
  - unfold keyboard_mouse.emitted, keyboard_mouse.serve,
      keyboard_mouse.reset. cbn [fst snd pressed_keys pressed_mouse_buttons].
    rewrite Hd. apply apply_reset_events.
Qed.

Lemma emitted_dry c r : dry_run c = true → emitted c r = [].
Proof.
  intros Hd. destruct r as [act|];
    unfold keyboard_mouse.emitted, keyboard_mouse.step, keyboard_mouse.reset;
    cbn [snd]; by rewrite Hd.
Qed.

(** X8.  The controller's record of what is held agrees with the
    events it has sent.  Over any sequence of [step] and [reset] calls
    on a controller that is not in dry-run mode, applying the emitted
    presses and releases, in order, to the names held at the start gives
    exactly the names the controller holds at the end; in dry-run mode
    nothing at all is emitted. *)
Theorem held_state_tracks_events c rs :
  if dry_run c then trace c rs = []
  else foldl apply_event (pressed_keys c, pressed_mouse_buttons c)
         (trace c rs)
       = (pressed_keys (foldl serve c rs),
          pressed_mouse_buttons (foldl serve c rs)).
Proof.
  destruct (dry_run c) eqn:Hd.
  - revert c Hd. induction rs as [|r rs IH]; intros c Hd; [done|].
    cbn [keyboard_mouse.trace]. rewrite emitted_dry by done.
    apply IH. by rewrite serve_dry_run.
  - revert c Hd. induction rs as [|r rs IH]; intros c Hd; [done|].
    cbn [keyboard_mouse.trace foldl].
    rewrite foldl_app, emitted_applied by done.
    apply IH. by rewrite serve_dry_run.
Qed.

End ControllerTraces.

Section StepDifference.
Import Py keymap keyboard_mouse.
Variable str_to_int : string → option Z.
Variable str_to_float : string → option pyfloat.
Local Abbreviation step := (keyboard_mouse.step str_to_int str_to_float).
Local Abbreviation value := (keyboard_mouse._value_from_action str_to_int).

Lemma step_events_elem kr kp br bp dx dy wheel e :
  e ∈ step_events kr kp br bp dx dy wheel
  ↔ match e with
    | key_event key false => key ∈ kr
    | key_event key true => key ∈ kp
    | mouse_button_event button false => button ∈ br
    | mouse_button_event button true => button ∈ bp
    | mouse_move x y => (dx ≠ 0 ∨ dy ≠ 0) ∧ x = dx ∧ y = dy
    | mouse_wheel amount => wheel ≠ 0 ∧ amount = wheel
    end.
Proof.
  unfold step_events. rewrite !elem_of_app, !list_elem_of_fmap.
  setoid_rewrite elem_of_elements.
  split.
  - intros [(k & -> & Hk) | [(k & -> & Hk) | [(k & -> & Hk)
           | [(k & -> & Hk) | [H | H]]]]]; try done.
    + case_bool_decide; [|by apply elem_of_nil in H].
      by apply list_elem_of_singleton in H as ->.
    + case_bool_decide; [|by apply elem_of_nil in H].
      by apply list_elem_of_singleton in H as ->.
  - destruct e as [k [|] | b [|] | x y | a].
    + intros Hk. right. left. by exists k.
    + intros Hk. left. by exists k.
    + intros Hk. do 3 right. left. by exists b.
    + intros Hk. do 2 right. left. by exists b.
    + intros (Hd & -> & ->). do 4 right. left.
      rewrite bool_decide_true by done. by apply list_elem_of_singleton.
    + intros (Hw & ->). do 5 right.
      rewrite bool_decide_true by done. by apply list_elem_of_singleton.
Qed.

Lemma block_NoDup (f : string → event) (X : gset string) :
  Inj (=) (=) f → NoDup (f <$> elements X).
Proof. intros Hf. apply (NoDup_fmap_2 f), NoDup_elements. Qed.

Lemma step_events_NoDup kr kp br bp dx dy wheel :
  NoDup (step_events kr kp br bp dx dy wheel).
Proof.
  unfold step_events.
  assert (Ht : NoDup
    ((if bool_decide (dx ≠ 0 ∨ dy ≠ 0) then [mouse_move dx dy] else [])
     ++ (if bool_decide (wheel ≠ 0) then [mouse_wheel wheel] else []))).
  { do 2 case_bool_decide; cbn; repeat constructor;
      rewrite ?elem_of_nil, ?list_elem_of_singleton; try tauto; discriminate. }
  do 4 (apply NoDup_app; split;
          [apply block_NoDup; by intros ?? [= ->] | split; [|]];
          [intros e (k & -> & _)%list_elem_of_fmap Hin;
           rewrite ?elem_of_app, ?list_elem_of_fmap in Hin;
           destruct_or!;
           try (by destruct Hin as (? & [=] & _));
           (case_bool_decide;
            [by apply list_elem_of_singleton in Hin
            |by apply elem_of_nil in Hin])
          |]).
  exact Ht.
Qed.

(** X9.  A step sends exactly the difference between what is held and
    what is wanted.  When the controller is not in dry-run mode, the
    events of one [step] hold no event twice; a release of a name is
    among them exactly when the name was held before the call and is not
    held after it, and a press exactly when it is held after the call
    and was not before.  A name whose state does not change gets no
    event.  In dry-run mode the step sends nothing. *)
Theorem step_sends_difference c act :
  let c' := (step c act).1 in
  let evs := (step c act).2 in
  if dry_run c then evs = []
  else NoDup evs
       ∧ (∀ key is_down,
            key_event key is_down ∈ evs
            ↔ if is_down
              then key ∈ pressed_keys c' ∧ key ∉ pressed_keys c
              else key ∈ pressed_keys c ∧ key ∉ pressed_keys c')
       ∧ (∀ button is_down,
            mouse_button_event button is_down ∈ evs
            ↔ if is_down
              then button ∈ pressed_mouse_buttons c'
                   ∧ button ∉ pressed_mouse_buttons c
              else button ∈ pressed_mouse_buttons c
                   ∧ button ∉ pressed_mouse_buttons c').
Proof.
  unfold keyboard_mouse.step.
  cbn [fst snd pressed_keys pressed_mouse_buttons].
  destruct (dry_run c); [done|].
  split; [apply step_events_NoDup|].
  split; intros n [|]; rewrite step_events_elem, elem_of_difference; tauto.
Qed.

End StepDifference.

Section ResetProps.
Import Py keymap keyboard_mouse.
Variable str_to_int : string → option Z.
Variable str_to_float : string → option pyfloat.
Local Abbreviation step := (keyboard_mouse.step str_to_int str_to_float).

(** X10.  [reset] does what a [step] with the empty action does: both
    leave the same controller, holding nothing, and send the same
    releases (set iteration leaves their order open, so the two traces
    are compared up to it).  A second [reset], coming right after,
    sends nothing, and so does a [reset] of a controller in dry-run
    mode. *)
Theorem reset_is_empty_step c :
  (reset c).1 = (step c ∅).1
  ∧ (reset c).2 ≡ₚ (step c ∅).2
  ∧ pressed_keys (reset c).1 = ∅
  ∧ pressed_mouse_buttons (reset c).1 = ∅
  ∧ (reset (reset c).1).2 = []
  ∧ (reset (with_dry_run true c)).2 = [].
Proof.
  destruct (step_release_all str_to_int str_to_float c) as (Hev & Hk & Hb).
  cbv zeta in Hev, Hk, Hb.
  split; [|split; [|split; [done|split; [done|split]]]].
  - unfold keyboard_mouse.step in *.
    cbn [fst pressed_keys pressed_mouse_buttons] in *.
    unfold reset. cbn [fst]. by rewrite Hk, Hb.
  - rewrite Hev. done.
  - unfold reset. cbn [fst snd dry_run pressed_keys pressed_mouse_buttons].
    rewrite !elements_empty. by destruct (dry_run c).
  - done.
Qed.

End ResetProps.

(** ** The constructor and the two backends *)

Section BackendProps.
Import Py keymap keyboard_mouse.
Variable str_to_int : string → option Z.
Variable str_to_float : string → option pyfloat.
Local Abbreviation step := (keyboard_mouse.step str_to_int str_to_float).
Local Abbreviation serve := (keyboard_mouse.serve str_to_int str_to_float).
Local Abbreviation emitted :=
  (keyboard_mouse.emitted str_to_int str_to_float).
Local Abbreviation trace := (keyboard_mouse.trace str_to_int str_to_float).




Lemma serve_backend c r : backend (serve c r) = backend c.
Proof. by destruct r. Qed.





End BackendProps.


Section EncodingProps.
Import Py keymap keyboard_mouse.

Lemma vk_table key vk : VK_CODE !! key = Some vk → 0 < vk < 256.
Proof.
  intros H. unfold VK_CODE in H. apply elem_of_list_to_map_2 in H.
  change (0 < (key, vk).2 < 256).
  revert H. generalize (key, vk). apply Forall_forall.
  cbv beta.
  match goal with
  | |- Forall ?P ?l =>
      refine (bool_decide_unpack (Forall (λ kv : string * Z, 0 < kv.2 < 256) l) _)
  end.
  vm_compute. exact I.
Qed.

(** X13.  How a key event is encoded for [SendInput].  On the native
    backend, with [user32] loaded, a key of the table becomes one
    keyboard input whose virtual key is the table's code, stored
    unchanged in the 16-bit field, with no scan code; the key-up flag is
    set exactly for a release and the extended flag exactly for a key of
    [EXTENDED_KEYS], and no other flag is set.  Without [user32] the
    same call raises, since the structure and the flag constants it
    names do not exist then.  A name that is not in the table sends
    nothing and raises nothing, with or without [user32]. *)
Theorem key_event_encoding PA c key is_down :
  backend c = sendinput →
  (∀ vk, VK_CODE !! key = Some vk →
     (∃ ki, _key_event true PA c key is_down
            = Some [SendInput [INPUT_keyboard ki]]
        ∧ wVk ki = vk ∧ wScan ki = 0
        ∧ Z.testbit (ki_dwFlags ki) 1 = negb is_down
        ∧ Z.testbit (ki_dwFlags ki) 0 = bool_decide (key ∈ EXTENDED_KEYS)
        ∧ 0 ≤ ki_dwFlags ki < 4
        ∧ ki_time ki = 0 ∧ ki_dwExtraInfo ki = 0)
     ∧ _key_event false PA c key is_down = None)
  ∧ (VK_CODE !! key = None → ∀ SA, _key_event SA PA c key is_down = Some []).
Proof.
  intros Hbk. unfold _key_event. rewrite Hbk. split.
  - intros vk Hvk. rewrite Hvk. split; [|done]. apply vk_table in Hvk.
    eexists. split; [reflexivity|]. cbn [wVk wScan ki_dwFlags ki_time
      ki_dwExtraInfo]. unfold WORD, DWORD.
    split; [apply Z.mod_small; lia|].
    destruct is_down, (bool_decide (key ∈ EXTENDED_KEYS)); vm_compute;
      repeat split; congruence.
  - intros ->. done.
Qed.

(** X14.  Pointer amounts survive the 32-bit fields.  On the native
    backend a move by [dx], [dy] within the signed 32-bit range becomes
    one mouse input carrying exactly [dx] and [dy] with the move flag
    only; a wheel amount within that range is stored as its unsigned
    32-bit image, from which the signed reading gives the amount back,
    so that a negative scroll stays negative. *)
Theorem pointer_amounts_preserved PA c dx dy amount :
  backend c = sendinput →
  - 2 ^ 31 ≤ dx < 2 ^ 31 → - 2 ^ 31 ≤ dy < 2 ^ 31 →
  - 2 ^ 31 ≤ amount < 2 ^ 31 →
  (∃ mi, _mouse_move true PA c dx dy = Some [SendInput [INPUT_mouse mi]]
     ∧ mi_dx mi = dx ∧ mi_dy mi = dy
     ∧ mouseData mi = 0 ∧ mi_dwFlags mi = MOUSEEVENTF_MOVE)
  ∧ (∃ mi, _mouse_wheel true PA c amount = Some [SendInput [INPUT_mouse mi]]
       ∧ mi_dx mi = 0 ∧ mi_dy mi = 0
       ∧ 0 ≤ mouseData mi < 2 ^ 32
       ∧ LONG (mouseData mi) = amount
       ∧ mi_dwFlags mi = MOUSEEVENTF_WHEEL).
Proof.
  intros Hbk Hx Hy Ha. unfold _mouse_move, _mouse_wheel. rewrite Hbk.
  assert (Hlong : ∀ z, - 2 ^ 31 ≤ z < 2 ^ 31 → LONG z = z).
  { intros z Hz. unfold LONG. rewrite Z.mod_small; lia. }
  split; eexists; (split; [reflexivity|]);
    cbn [mi_dx mi_dy mouseData mi_dwFlags].
  - rewrite !Hlong by done. by repeat split.
  - split; [done|]. split; [done|]. unfold DWORD.
    split; [apply Z.mod_pos_bound; lia|]. split; [|done].
    unfold LONG.
    destruct (decide (0 ≤ amount)).
    + rewrite (Z.mod_small amount) by lia. rewrite Z.mod_small; lia.
    + replace (amount mod 2 ^ 32) with (amount + 2 ^ 32).
      * replace (amount + 2 ^ 32 + 2 ^ 31)
          with (amount + 2 ^ 31 + 1 * 2 ^ 32) by lia.
        rewrite Z.mod_add by lia. rewrite Z.mod_small; lia.
      * apply (Z.mod_unique _ _ (-1)); lia.
Qed.

End EncodingProps.

(** X13 at the release of the extended key [up]. *)
Lemma key_event_encoding_witness :
  keyboard_mouse.backend examples.plain = keyboard_mouse.sendinput
  ∧ ∃ ki, keyboard_mouse._key_event true true examples.plain "up" false
          = Some [keyboard_mouse.SendInput
                    [keyboard_mouse.INPUT_keyboard ki]]
     ∧ keyboard_mouse.wVk ki = 0x26 ∧ keyboard_mouse.wScan ki = 0
     ∧ Z.testbit (keyboard_mouse.ki_dwFlags ki) 1 = true
     ∧ Z.testbit (keyboard_mouse.ki_dwFlags ki) 0 = true
     ∧ 0 ≤ keyboard_mouse.ki_dwFlags ki < 4
     ∧ keyboard_mouse.ki_time ki = 0
     ∧ keyboard_mouse.ki_dwExtraInfo ki = 0.
Proof.
  split; [reflexivity|].
  exact (proj1 (proj1 (key_event_encoding true examples.plain "up" false
                         eq_refl) 0x26 eq_refl)).
Defined.

(** X14 at a move by (-3, 4) and a scroll by -120. *)
Lemma pointer_amounts_preserved_witness :
  (keyboard_mouse.backend examples.plain = keyboard_mouse.sendinput
   ∧ - 2 ^ 31 ≤ -3 < 2 ^ 31 ∧ - 2 ^ 31 ≤ 4 < 2 ^ 31
   ∧ - 2 ^ 31 ≤ -120 < 2 ^ 31)
  ∧ ∃ mi, keyboard_mouse._mouse_wheel true true examples.plain (-120)
          = Some [keyboard_mouse.SendInput [keyboard_mouse.INPUT_mouse mi]]
     ∧ keyboard_mouse.mi_dx mi = 0 ∧ keyboard_mouse.mi_dy mi = 0
     ∧ 0 ≤ keyboard_mouse.mouseData mi < 2 ^ 32
     ∧ keyboard_mouse.LONG (keyboard_mouse.mouseData mi) = -120
     ∧ keyboard_mouse.mi_dwFlags mi = keyboard_mouse.MOUSEEVENTF_WHEEL.
Proof.
  split; [repeat split; lia|].
  exact (proj2 (pointer_amounts_preserved true examples.plain (-3) 4 (-120)
                  eq_refl ltac:(lia) ltac:(lia) ltac:(lia))).
Defined.

(** ** Reading an action *)

Section ActionProps.
Import Py keymap keyboard_mouse.
Variable str_to_int : string → option Z.
Variable str_to_float : string → option pyfloat.
Local Abbreviation value := (keyboard_mouse._value_from_action str_to_int).
Local Abbreviation extract_keys :=
  (keyboard_mouse._extract_keys str_to_float).
Local Abbreviation extract_buttons :=
  (keyboard_mouse._extract_buttons str_to_float).
Local Abbreviation extract := (keyboard_mouse.extract str_to_float).
Local Abbreviation float := (Py.float str_to_float).
Local Abbreviation select := (keyboard_mouse.select str_to_float).

(** X15.  Of a list, tuple or other sequence given as a pointer amount
    only the first element counts, and it counts as the same scalar
    given alone would.  An empty sequence, a set and [None] give 0, and
    so does any scalar that [int] refuses; an [int] is taken as it
    is. *)
Theorem value_from_action_first v rest xs :
  value (OList (v :: rest)) = value (OVal v)
  ∧ value (OTuple (v :: rest)) = value (OVal v)
  ∧ value (OSeq (v :: rest)) = value (OVal v)
  ∧ value (OList []) = 0 ∧ value (OTuple []) = 0 ∧ value (OSeq []) = 0
  ∧ value (OSet xs) = 0
  ∧ value (OVal PNone) = 0
  ∧ (int str_to_int v = None → value (OVal v) = 0)
  ∧ (∀ z, value (OVal (PInt z)) = z).
Proof.
  assert (Hv : value (OVal v) = default 0 (int str_to_int v)).
  { by destruct v. }
  assert (Hf : ∀ o, item0 o = Some v → len o ≠ None → is_str o = false →
                    int_obj str_to_int o = None → o ≠ OVal PNone →
                    value o = value (OVal v)).
  { intros o Hi Hl Hs Ho Hn. rewrite Hv. unfold _value_from_action.
    assert (Hsz : sized o = true).
    { apply bool_decide_eq_true. by destruct (len o). }
    rewrite Hsz, Hs, Hi, Ho. cbn.
    destruct o as [[] | | | | |]; try done;
      by destruct (int str_to_int v). }
  repeat split; try (by apply Hf); try done.
  intros Hn. by rewrite Hv, Hn.
Qed.

Lemma candidates_mapping items s :
  PStr s ∈ candidates (OMapping items)
  ↔ ∃ v, (PStr s, v) ∈ items ∧ truthy v = true.
Proof.
  unfold candidates. rewrite list_elem_of_fmap. split.
  - intros ([k v] & Hk & Hin). cbn in Hk. subst k.
    apply list_elem_of_filter in Hin as [Ht Hin]. exists v. split; [done|].
    cbn in Ht. by destruct (truthy v).
  - intros (v & Hin & Ht). exists (PStr s, v). split; [done|].
    apply list_elem_of_filter. split; [|done]. cbn. by rewrite Ht.
Qed.

(** X16.  A mapping is always read by name.  Whatever whitelists the
    controller has, a name is among the keys extracted from a mapping
    exactly when it is a key of the table and some string key of the
    mapping whose value is true normalises to it; the same holds for
    buttons and the button table. *)
Theorem mapping_read_by_name c items name :
  (name ∈ extract_keys c (OMapping items)
   ↔ ∃ s v, (PStr s, v) ∈ items ∧ truthy v = true
            ∧ normalize_key s = name ∧ is_Some (VK_CODE !! name))
  ∧ (name ∈ extract_buttons c (OMapping items)
     ↔ ∃ s v, (PStr s, v) ∈ items ∧ truthy v = true
              ∧ normalize_mouse_button s = name
              ∧ is_Some (MOUSE_BUTTON_FLAGS !! name)).
Proof.
  assert (Hm : ∀ normalize known whitelist,
    extract normalize known whitelist (OMapping items)
    = normalized_names normalize known (candidates (OMapping items))).
  { intros. unfold keyboard_mouse.extract.
    change (is_mapping (OMapping items)) with true.
    by rewrite andb_false_r. }
  unfold _extract_keys, _extract_buttons. rewrite !Hm.
  rewrite !normalized_names_spec.
  setoid_rewrite candidates_mapping.
  unfold known_key, known_button. setoid_rewrite bool_decide_eq_true.
  split; split.
  - intros (s & (v & ? & ?) & ? & ?). by exists s, v.
  - intros (s & v & ? & ? & ? & ?). exists s. split; [by exists v|done].
  - intros (s & (v & ? & ?) & ? & ?). by exists s, v.
  - intros (s & v & ? & ? & ? & ?). exists s. split; [by exists v|done].
Qed.

Lemma select_fails names : ∀ vs selected,
  length vs = length names →
  (select names vs selected = None ↔ Exists (λ v, float v = None) vs).
Proof.
  induction names as [|n names IH]; intros [|v vs] selected Hl;
    try discriminate Hl.
  - cbn. split; [done|]. by intros ?%Exists_nil.
  - cbn [keyboard_mouse.select]. rewrite Exists_cons.
    destruct (float v) as [f|] eqn:Hf; cbn.
    + rewrite IH by (by injection Hl). split; [by right|]. by intros [?|?].
    + split; [by left|done].
Qed.

Lemma select_floats names : ∀ vs selected s,
  length vs = length names →
  select names vs selected = Some s →
  ∀ k, k ∈ s ↔ k ∈ selected
               ∨ ∃ i v f, names !! i = Some k ∧ vs !! i = Some v
                          ∧ float v = Some f ∧ float_gt0 f = true.
Proof.
  induction names as [|n names IH]; intros [|v vs] selected s Hl Hs k;
    try discriminate Hl.
  - cbn in Hs. injection Hs as <-. split; [by left|].
    intros [?|(i & ? & ? & Hi & _)]; [done|]. by destruct i.
  - cbn [keyboard_mouse.select] in Hs.
    destruct (float v) as [f|] eqn:Hf; [|discriminate Hs]. cbn in Hs.
    rewrite (IH vs _ s ltac:(by injection Hl) Hs k). split.
    + intros [Hk | (i & v' & f' & Hn & Hv & Hf' & Hp)].
      * destruct (float_gt0 f) eqn:Hp; [|by left].
        apply elem_of_union in Hk as [Hk | ->%elem_of_singleton];
          [by left|].
        right. by exists 0%nat, v, f.
      * right. by exists (S i), v', f'.
    + intros [Hk | (i & v' & f' & Hn & Hv & Hf' & Hp)].
      * left. destruct (float_gt0 f); [|done].
        apply elem_of_union. by left.
      * destruct i as [|i].
        -- cbn in Hn, Hv. injection Hn as ->. injection Hv as ->.
           rewrite Hf in Hf'. injection Hf' as ->. rewrite Hp.
           left. apply elem_of_union. right. by apply elem_of_singleton.
        -- right. by exists i, v', f'.
Qed.

(** X17.  When positional decoding applies.  With a non-empty key
    whitelist, a list, tuple or other sequence is decoded by position
    exactly when its length is that of the whitelist and [float]
    accepts every element (numbers, but also strings such as ["1"]):
    the keys are then the whitelist names at the positions whose value
    is above zero.  When the length differs or [float] refuses some
    element, the value is read by name, as it would be without a
    whitelist. *)
Theorem positional_or_by_name c names raw vs :
  key_list c = Some names → names ≠ [] → sequence_of vs raw →
  (length vs = length names → Forall (λ v, is_Some (float v)) vs →
   ∀ k, k ∈ extract_keys c raw
        ↔ ∃ i v f, names !! i = Some k ∧ vs !! i = Some v
                   ∧ float v = Some f ∧ float_gt0 f = true)
  ∧ (length vs ≠ length names ∨ Exists (λ v, float v = None) vs →
     extract_keys c raw
     = normalized_names normalize_key known_key (candidates raw)).
Proof.
  intros Hkl Hne Hraw.
  assert (Hx : extract_keys c raw
    = match (if bool_decide (length vs ≠ length names) then None
             else select names vs ∅) with
      | Some selected => selected
      | None => normalized_names normalize_key known_key (candidates raw)
      end).
  { unfold _extract_keys, keyboard_mouse.extract. rewrite Hkl.
    destruct names as [|n names]; [done|].
    destruct Hraw as [-> | [-> | ->]]; reflexivity. }
  rewrite Hx. split.
  - intros Hl Hfl k. rewrite bool_decide_false by (by intros ?).
    destruct (select names vs ∅) as [s|] eqn:Hs.
    + rewrite (select_floats names vs ∅ s Hl Hs k).
      split; [|by right]. intros [?%elem_of_empty|?]; done.
    + apply (select_fails names vs ∅ Hl) in Hs.
      apply Exists_exists in Hs as (v & Hv & Hnone).
      rewrite Forall_forall in Hfl. destruct (Hfl v Hv) as [f Hf].
      congruence.
  - intros [Hl | Hex].
    + by rewrite bool_decide_true.
    + case_bool_decide; [done|].
      assert (Hl : length vs = length names).
      { destruct (decide (length vs = length names)); [done|].
        exfalso. eauto. }
      apply (select_fails names vs ∅ Hl) in Hex. by rewrite Hex.
Qed.

End ActionProps.

(** X17 at the whitelist [w a s d] and the names [w] and [shift], which
    [float] refuses. *)
Lemma positional_or_by_name_witness :
  (keyboard_mouse.key_list examples.wasd = Some ["w"; "a"; "s"; "d"]
   ∧ ["w"; "a"; "s"; "d"] ≠ []
   ∧ keyboard_mouse.sequence_of [Py.PStr "w"; Py.PStr "shift"]
       (Py.OList [Py.PStr "w"; Py.PStr "shift"]))
  ∧ keyboard_mouse._extract_keys Py.decimal_float examples.wasd
      (Py.OList [Py.PStr "w"; Py.PStr "shift"])
    = keyboard_mouse.normalized_names keymap.normalize_key
        keyboard_mouse.known_key
        (keyboard_mouse.candidates (Py.OList [Py.PStr "w"; Py.PStr "shift"])).
Proof.
  split; [split; [reflexivity|split; [discriminate|by left]]|].
  apply (proj2 (positional_or_by_name Py.decimal_float examples.wasd
                  ["w"; "a"; "s"; "d"]
                  (Py.OList [Py.PStr "w"; Py.PStr "shift"])
                  [Py.PStr "w"; Py.PStr "shift"]
                  eq_refl ltac:(discriminate) (or_introl eq_refl))).
  left. cbn. lia.
Defined.

(** ** Raw mouse capture, further *)

Section HookFurther.
Import raw_input.
Variable GetRawInputData : Z → raw_read.
Local Abbreviation handle := (raw_input._handle_message GetRawInputData).
Local Abbreviation handle_raw :=
  (raw_input._handle_raw_input GetRawInputData).
Local Abbreviation pump := (raw_input.pump GetRawInputData).
Local Abbreviation delta := (raw_input.delta GetRawInputData).
Local Abbreviation deltas := (raw_input.deltas GetRawInputData).

Lemma total_cons d ds :
  total (d :: ds)
  = (d.1.1 + (total ds).1.1, d.1.2 + (total ds).1.2, d.2 + (total ds).2).
Proof. reflexivity. Qed.

Lemma total_app ds1 ds2 :
  total (ds1 ++ ds2)
  = ((total ds1).1.1 + (total ds2).1.1, (total ds1).1.2 + (total ds2).1.2,
     (total ds1).2 + (total ds2).2).
Proof.
  induction ds1 as [|d ds1 IH].
  - change (total []) with ((0, 0, 0) : Z * Z * Z). cbn [app fst snd].
    by destruct (total ds2) as [[??]?].
  - change ((d :: ds1) ++ ds2) with (d :: (ds1 ++ ds2)).
    rewrite !total_cons, IH. cbn [fst snd].
    f_equal; [f_equal|]; lia.
Qed.

Lemma pump_app self ms1 ms2 : pump self (ms1 ++ ms2) = pump (pump self ms1) ms2.
Proof. apply foldl_app. Qed.

Lemma deltas_app ms1 : ∀ self ms2,
  deltas self (ms1 ++ ms2) = deltas self ms1 ++ deltas (pump self ms1) ms2.
Proof.
  induction ms1 as [|m ms1 IH]; intros self ms2; [done|].
  cbn [app raw_input.deltas]. by rewrite IH.
Qed.

(** What a message contributes, and the absolute sample it leaves,
    depend on the hook through its last absolute sample only. *)
Lemma handle_last_abs self self' m :
  _last_abs self = _last_abs self' →
  delta self m = delta self' m
  ∧ _last_abs (handle self (msg m) (wparam m) (lparam m)).1
    = _last_abs (handle self' (msg m) (wparam m) (lparam m)).1.
Proof.
  intros H.
  unfold _handle_message, raw_input.delta, _handle_raw_input, raw_delta,
    readable, motion, next_abs.
  rewrite H. repeat case_match; simplify_eq/=; try done; split; congruence.
Qed.

Lemma deltas_last_abs ms : ∀ self self',
  _last_abs self = _last_abs self' →
  deltas self ms = deltas self' ms
  ∧ _last_abs (pump self ms) = _last_abs (pump self' ms).
Proof.
  induction ms as [|m ms IH]; intros self self' H; [done|].
  destruct (handle_last_abs self self' m H) as [Hd Hl].
  cbn [raw_input.deltas]. rewrite Hd.
  destruct (IH _ _ Hl) as [IHd IHl].
  split; [by f_equal|exact IHl].
Qed.

(** X18.  Polling in between loses nothing and counts nothing twice.
    If a poll is taken between two runs of messages and another after
    them, the two results add up, component by component, to what a
    single poll after both runs returns; the last absolute sample is
    the same either way. *)
Theorem polling_conserves self ms1 ms2 :
  let first := poll (pump self ms1) in
  let second := poll (pump first.1 ms2) in
  let once := poll (pump self (ms1 ++ ms2)) in
  (first.2.1.1 + second.2.1.1, first.2.1.2 + second.2.1.2,
   first.2.2 + second.2.2) = once.2
  ∧ _last_abs second.1 = _last_abs once.1.
Proof.
  cbv zeta.
  assert (Hl : _last_abs (poll (pump self ms1)).1 = _last_abs (pump self ms1))
    by done.
  destruct (deltas_last_abs ms2 _ _ Hl) as [Hd Ha].
  pose proof (pump_adds GetRawInputData ms1 self) as H1.
  pose proof (pump_adds GetRawInputData ms2 (poll (pump self ms1)).1) as H2.
  pose proof (pump_adds GetRawInputData (ms1 ++ ms2) self) as H3.
  cbv zeta in H1, H2, H3.
  rewrite Hd in H2. rewrite deltas_app, total_app in H3.
  cbn [poll fst snd _dx _dy _wheel] in H2.
  split.
  - remember (pump self ms1) as A eqn:HA.
    remember (pump (poll A).1 ms2) as B eqn:HB.
    remember (pump self (ms1 ++ ms2)) as C eqn:HC.
    cbn [poll fst snd] in HB |- *. rewrite <- HB in H2.
    injection H1 as H1x H1y H1w. injection H2 as H2x H2y H2w.
    injection H3 as H3x H3y H3w. cbn [fst snd] in H3x, H3y, H3w.
    f_equal; [f_equal|]; lia.
  - cbn [poll fst _last_abs]. rewrite pump_app. exact Ha.
Qed.

(** What the raw-input handler does once its four tests are written
    as one. *)
Lemma handle_raw_cases self h :
  handle_raw self h
  = if readable (GetRawInputData h) then
      let m := mouse (contents (GetRawInputData h)) in
      {| capture_background := capture_background self;
         _dx := _dx self + (motion self m).1;
         _dy := _dy self + (motion self m).2;
         _wheel := _wheel self + wheel_of m;
         _last_abs := next_abs self m |}
    else self.
Proof.
  unfold _handle_raw_input, readable. cbv zeta.
  destruct (c_int (query_result (GetRawInputData h)) =? 0xFFFFFFFF); [done|].
  destruct (size (GetRawInputData h) =? 0); [done|].
  destruct (c_int (read_size (GetRawInputData h))
            =? size (GetRawInputData h)); [|done].
  destruct (dwType (header (contents (GetRawInputData h)))
            =? RIM_TYPEMOUSE); [|done].
  cbn [negb andb].
  by destruct (motion self (mouse (contents (GetRawInputData h)))).
Qed.

(** X19.  Which raw-input records are ignored.  The test of the size
    query's return value against 0xFFFFFFFF never holds, since the
    value arrives as a signed 32-bit number: what the handler does
    depends on the size, on the read and on the buffer, not on that
    return value.  When the size is zero, the read returns another
    number than the size (as a failed read does, arriving as -1), or
    the record is not a mouse record, the handler leaves the hook as it
    is: counters and last absolute sample.  Messages other than raw
    input and the mouse wheel never change the hook either; closing
    asks for the window to be destroyed, destruction posts the quit
    message, and anything else goes to the default window procedure. *)
Theorem unusable_input_ignored self h m :
  (let r := GetRawInputData h in
   (c_int (query_result r) =? 0xFFFFFFFF) = false
   ∧ (size r = 0 ∨ c_int (read_size r) ≠ size r
      ∨ dwType (header (contents r)) ≠ RIM_TYPEMOUSE →
      handle_raw self h = self ∧ handle self WM_INPUT 0 h = (self, handled))
   ∧ (0 ≤ size r → read_size r = 0xFFFFFFFF → handle_raw self h = self))
  ∧ (∀ system : Z → raw_read,
       size (system h) = size (GetRawInputData h) →
       read_size (system h) = read_size (GetRawInputData h) →
       buffer (system h) = buffer (GetRawInputData h) →
       raw_input._handle_raw_input system self h = handle_raw self h)
  ∧ (msg m ≠ WM_INPUT → msg m ≠ WM_MOUSEWHEEL →
     handle self (msg m) (wparam m) (lparam m)
     = (self,
        if msg m =? WM_CLOSE then DestroyWindow
        else if msg m =? WM_DESTROY then PostQuitMessage
        else DefWindowProc)).
Proof.
  assert (Hdead : ∀ z, (c_int z =? 0xFFFFFFFF) = false).
  { intros z. apply Z.eqb_neq. unfold c_int.
    pose proof (Z.mod_pos_bound (z + 2 ^ 31) (2 ^ 32) ltac:(lia)). lia. }
  assert (Hskip : size (GetRawInputData h) = 0
                  ∨ c_int (read_size (GetRawInputData h))
                    ≠ size (GetRawInputData h)
                  ∨ dwType (header (contents (GetRawInputData h)))
                    ≠ RIM_TYPEMOUSE →
                  handle_raw self h = self).
  { intros Hr. rewrite handle_raw_cases. unfold readable.
    destruct (size (GetRawInputData h) =? 0) eqn:E2;
      [by rewrite andb_false_r|].
    destruct (c_int (read_size (GetRawInputData h))
              =? size (GetRawInputData h)) eqn:E3;
      [|by rewrite andb_false_r].
    destruct (dwType (header (contents (GetRawInputData h)))
              =? RIM_TYPEMOUSE) eqn:E4; [|by rewrite andb_false_r].
    exfalso. destruct Hr as [Hr | [Hr | Hr]]; lia. }
  split; [|split].
  - cbv zeta. split; [apply Hdead|]. split.
    + intros Hr. split; [by apply Hskip|]. unfold _handle_message.
      change (WM_INPUT =? WM_INPUT) with true. cbv iota.
      by rewrite (Hskip Hr).
    + intros Hs Hf. apply Hskip. right. left. rewrite Hf.
      change (c_int 0xFFFFFFFF) with (-1). lia.
  - intros system Hs Hr Hb.
    unfold _handle_raw_input. cbv zeta.
    rewrite !(Hdead (query_result _)).
    unfold contents. by rewrite Hs, Hr, Hb.
  - intros H1 H2. unfold _handle_message.
    rewrite (proj2 (Z.eqb_neq _ _) H1), (proj2 (Z.eqb_neq _ _) H2).
    by repeat case_match.
Qed.

Lemma c_short_range z : - 2 ^ 15 ≤ c_short z < 2 ^ 15.
Proof.
  unfold c_short.
  pose proof (Z.mod_pos_bound (z + 2 ^ 15) (2 ^ 16) ltac:(lia)). lia.
Qed.

Lemma c_short_signed d : - 2 ^ 15 ≤ d < 2 ^ 15 → c_short (d mod 2 ^ 16) = d.
Proof.
  intros Hd. unfold c_short.
  destruct (decide (0 ≤ d)).
  - rewrite (Z.mod_small d) by lia. rewrite Z.mod_small; lia.
  - replace (d mod 2 ^ 16) with (d + 2 ^ 16).
    + replace (d + 2 ^ 16 + 2 ^ 15) with (d + 2 ^ 15 + 1 * 2 ^ 16) by lia.
      rewrite Z.mod_add by lia. rewrite Z.mod_small; lia.
    + apply (Z.mod_unique _ _ (-1)); lia.
Qed.

Lemma high_word d low :
  0 ≤ low < 2 ^ 16 →
  Z.land (Z.shiftr ((d mod 2 ^ 16) * 2 ^ 16 + low) 16) 0xFFFF = d mod 2 ^ 16.
Proof.
  intros Hlow. rewrite Z.shiftr_div_pow2 by lia.
  rewrite Z.add_comm, Z.div_add by lia. rewrite (Z.div_small low) by lia.
  change 0xFFFF with (Z.ones 16). rewrite Z.land_ones by lia.
  rewrite Z.add_0_l. apply Z.mod_mod. lia.
Qed.

(** X20.  Wheel amounts are signed 16-bit values, and the raw wheel
    is read from the wrong bytes.  No message changes the wheel counter
    by less than -32768 or more than 32767.  A mouse-wheel message
    whose high word holds the 16-bit image of a signed amount adds
    exactly that amount, negative ones included, and touches nothing
    else.  From a raw record that it can read, the handler takes the
    wheel bit from the two padding bytes and the amount from the
    system's button flags, because the declared structure places both
    fields two bytes early: the system's button data, where the wheel
    delta is, has no part in what is added, and with zero padding a raw
    record never changes the wheel counter. *)
Theorem wheel_amount_signed self m :
  (let self' := (handle self (msg m) (wparam m) (lparam m)).1 in
   - 2 ^ 15 ≤ _wheel self' - _wheel self < 2 ^ 15)
  ∧ (∀ d low lparam,
       - 2 ^ 15 ≤ d < 2 ^ 15 → 0 ≤ low < 2 ^ 16 →
       let r := handle self WM_MOUSEWHEEL
                  ((d mod 2 ^ 16) * 2 ^ 16 + low) lparam in
       r.2 = handled
       ∧ _wheel r.1 = _wheel self + d
       ∧ _dx r.1 = _dx self ∧ _dy r.1 = _dy self
       ∧ _last_abs r.1 = _last_abs self)
  ∧ (∀ h,
       let r := GetRawInputData h in
       let s := sys_mouse (buffer r) in
       readable r = true →
       _wheel (handle_raw self h)
       = _wheel self
         + (if bool_decide (Z.land (padding s) RI_MOUSE_WHEEL ≠ 0)
            then c_short (sys_usButtonFlags s) else 0)
       ∧ (padding s = 0 → _wheel (handle_raw self h) = _wheel self)).
Proof.
  split; [|split].
  - cbv zeta. pose proof (handle_adds GetRawInputData self m) as Ha.
    cbv zeta in Ha. injection Ha as _ _ ->.
    assert (Hd : - 2 ^ 15 ≤ (delta self m).2 < 2 ^ 15).
    { unfold raw_input.delta, raw_delta, wheel_of.
      repeat case_match; cbn [snd]; try apply c_short_range; lia. }
    lia.
  - intros d low lparam Hd Hlow. cbv zeta. unfold _handle_message.
    change (WM_MOUSEWHEEL =? WM_INPUT) with false.
    change (WM_MOUSEWHEEL =? WM_MOUSEWHEEL) with true. cbv iota.
    cbn [fst snd _wheel _dx _dy _last_abs].
    rewrite high_word by done. rewrite c_short_signed by done. done.
  - intros h. cbv zeta. intros Hr. rewrite handle_raw_cases, Hr.
    cbv zeta. cbn [_wheel]. unfold wheel_of, contents, cast.
    cbn [mouse usButtonFlags usButtonData]. split; [done|].
    intros ->. rewrite bool_decide_false; [lia|].
    intros H. by apply H.
Qed.

Lemma handle_absolute self m pos :
  absolute_at GetRawInputData m pos →
  let self' := (handle self (msg m) (wparam m) (lparam m)).1 in
  let origin := default (0, 0) (_last_abs self) in
  _dx self' = _dx self + (pos.1 - origin.1)
  ∧ _dy self' = _dy self + (pos.2 - origin.2)
  ∧ _last_abs self' = Some pos.
Proof.
  intros (Hm & Hr & Ha & Hp). cbv zeta in Hr, Ha, Hp.
  unfold readable in Hr.
  apply andb_true_iff in Hr as [Hr H4]. apply andb_true_iff in Hr as [Hr H3].
  apply andb_true_iff in Hr as [H1 H2].
  apply negb_true_iff in H1, H2.
  cbv zeta. unfold _handle_message. rewrite Hm.
  change (WM_INPUT =? WM_INPUT) with true. cbv iota. cbn [fst].
  unfold _handle_raw_input. rewrite H1, H2, H3, H4. cbn [negb].
  unfold motion, next_abs. rewrite !bool_decide_true by done.
  subst pos. destruct (_last_abs self) as [[x0 y0]|];
    cbn [_dx _dy _last_abs from_option id fst snd]; repeat split; lia.
Qed.

(** X21.  Absolute samples telescope.  Over a run of readable
    absolute-mode samples the hook accumulates the displacement from
    its last absolute sample to the last position of the run, whatever
    the positions in between, and that last position becomes its last
    absolute sample.  A hook with no earlier sample accumulates as
    though the pointer had last been at (0, 0). *)
Theorem absolute_motion_telescopes self ms ps pos :
  Forall2 (absolute_at GetRawInputData) ms ps →
  last ps = Some pos →
  let self' := pump self ms in
  let origin := default (0, 0) (_last_abs self) in
  _dx self' = _dx self + (pos.1 - origin.1)
  ∧ _dy self' = _dy self + (pos.2 - origin.2)
  ∧ _last_abs self' = Some pos.
Proof.
  intros Hms. revert self.
  induction Hms as [|m p ms ps Hm Hms IH]; intros self Hlast;
    [discriminate Hlast|].
  destruct (handle_absolute self m p Hm) as (Hx & Hy & Ha).
  cbv zeta in Hx, Hy, Ha. cbv zeta.
  change (pump self (m :: ms))
    with (pump (handle self (msg m) (wparam m) (lparam m)).1 ms).
  destruct ps as [|p' ps].
  - apply Forall2_nil_inv_r in Hms as ->. cbn in Hlast.
    injection Hlast as <-. done.
  - assert (Hl : last (p' :: ps) = Some pos) by exact Hlast.
    destruct (IH (handle self (msg m) (wparam m) (lparam m)).1 Hl)
      as (Hx' & Hy' & Ha').
    cbv zeta in Hx', Hy', Ha'. rewrite Ha in Hx', Hy'.
    cbn [from_option id] in Hx', Hy'. rewrite Hx in Hx'. rewrite Hy in Hy'.
    split; [lia|]. split; [lia|exact Ha'].
Qed.

End HookFurther.

(** X21 at a fresh hook and the samples (100, 200), (300, 600) and
    (200, 400). *)
Lemma absolute_motion_telescopes_witness :
  (Forall2 (raw_input.absolute_at examples.absolute_samples)
     [examples.input_message 1; examples.input_message 3;
      examples.input_message 2]
     [(100, 200); (300, 600); (200, 400)]
   ∧ last [(100, 200); (300, 600); (200, 400)] = Some (200, 400))
  ∧ (let self' :=
       raw_input.pump examples.absolute_samples (raw_input.__init__ true)
         [examples.input_message 1; examples.input_message 3;
          examples.input_message 2] in
     let origin := default (0, 0) (raw_input._last_abs (raw_input.__init__ true)) in
     raw_input._dx self'
     = raw_input._dx (raw_input.__init__ true) + ((200, 400).1 - origin.1)
     ∧ raw_input._dy self'
       = raw_input._dy (raw_input.__init__ true) + ((200, 400).2 - origin.2)
     ∧ raw_input._last_abs self' = Some (200, 400)).
Proof.
  assert (H : Forall2 (raw_input.absolute_at examples.absolute_samples)
     [examples.input_message 1; examples.input_message 3;
      examples.input_message 2]
     [(100, 200); (300, 600); (200, 400)]).
  { constructor; [|constructor; [|constructor; [|constructor]]];
      (split; [reflexivity|split; [vm_compute; reflexivity|split;
         [vm_compute; discriminate|vm_compute; reflexivity]]]). }
  split; [split; [exact H|reflexivity]|].
  exact (absolute_motion_telescopes examples.absolute_samples
           (raw_input.__init__ true)
           [examples.input_message 1; examples.input_message 3;
            examples.input_message 2]
           [(100, 200); (300, 600); (200, 400)] (200, 400) H eq_refl).
Defined.

(** ** The state sampler, further *)

Section SamplerFurther.
Import keymap keyboard_mouse_state.

Lemma land_bit15 x : negb (Z.land x 0x8000 =? 0) = Z.testbit x 15.
Proof.
  change 0x8000 with (2 ^ 15).
  destruct (Z.testbit x 15) eqn:Hb.
  - apply negb_true_iff, Z.eqb_neq. intros H0.
    assert (Ht : Z.testbit (Z.land x (2 ^ 15)) 15 = true).
    { rewrite Z.land_spec, Hb, Z.pow2_bits_true by lia. done. }
    rewrite H0 in Ht. by rewrite Z.bits_0 in Ht.
  - apply negb_false_iff, Z.eqb_eq. apply Z.bits_inj'. intros n Hn.
    rewrite Z.land_spec, Z.bits_0, Z.pow2_bits_eqb by lia.
    destruct (Z.eqb_spec 15 n) as [<-|]; [by rewrite Hb|].
    apply andb_false_r.
Qed.

Lemma pressed_spec w (table : gmap string Z) names :
  Forall (λ n, is_Some (table !! n)) names →
  pressed w table names
  = Some ((λ n, if down w table n then 1 else 0) <$> names,
          filter (λ n, down w table n) names).
Proof.
  induction 1 as [|n names [vk Hvk] _ IH]; [done|].
  cbn [pressed]. rewrite Hvk. cbn [mbind option_bind]. rewrite IH.
  cbn [mbind option_bind]. rewrite land_bit15.
  assert (Hd : down w table n = Z.testbit (GetAsyncKeyState w vk) 15).
  { unfold down. by rewrite Hvk. }
  cbn [fmap list_fmap]. rewrite filter_cons, Hd.
  by destruct (Z.testbit (GetAsyncKeyState w vk) 15).
Qed.

Lemma sample_reports self w :
  configured_ok self →
  ∃ self' s, sample self w = Some (self', s)
    ∧ keys self' = keys self ∧ mouse_buttons self' = mouse_buttons self
    ∧ reports (keys self) (mouse_buttons self) w s.
Proof.
  intros [Hk Hb]. unfold sample.
  rewrite (pressed_spec w VK_CODE (keys self)).
  2: { eapply Forall_impl; [exact Hk|]. intros n Hn.
       by apply bool_decide_eq_true in Hn. }
  cbn [mbind option_bind].
  rewrite (pressed_spec w MOUSE_BUTTON_VK (mouse_buttons self)).
  2: { eapply Forall_impl; [exact Hb|]. intros n Hn.
       by apply bool_decide_eq_true in Hn. }
  cbn [mbind option_bind].
  destruct (GetCursorPos w) as [x y] eqn:Hpos.
  destruct (sample_motion_config self w x y) as (Hk' & Hb' & _).
  cbv zeta in Hk', Hb'.
  destruct (sample_motion self w x y) as [self' [[dx dy] wheel]].
  eexists _, _. split; [reflexivity|].
  split; [exact Hk'|]. split; [exact Hb'|].
  unfold reports. cbn. by rewrite Hpos.
Qed.

Lemma samples_report ws : ∀ self,
  configured_ok self →
  ∃ self' snaps, samples self ws = Some (self', snaps)
    ∧ keys self' = keys self ∧ mouse_buttons self' = mouse_buttons self
    ∧ Forall2 (reports (keys self) (mouse_buttons self)) ws snaps.
Proof.
  induction ws as [|w ws IH]; intros self Hok.
  - exists self, []. repeat split; constructor.
  - destruct (sample_reports self w Hok) as (self1 & s & Hs & Hk & Hb & Hr).
    destruct (sample_ok self w self1 s Hok Hs) as [Hok1 _].
    destruct (IH self1 Hok1) as (self' & snaps & Hss & Hk' & Hb' & Hrs).
    exists self', (s :: snaps). cbn [samples]. rewrite Hs.
    cbn [mbind option_bind]. rewrite Hss. cbn [mbind option_bind].
    split; [done|]. split; [congruence|]. split; [congruence|].
    constructor; [done|]. by rewrite <- Hk, <- Hb.
Qed.

(** X22.  What a snapshot reports.  A sampler built by the constructor
    never fails to sample, and its configuration never changes.  In
    every snapshot the key vector runs parallel to the configured keys,
    holding 1 where the high bit of the key's 16-bit state is set and 0
    elsewhere, and the list of pressed keys is the configured names at
    the 1 entries, in configuration order; the same holds for the
    buttons; the position and the timestamp are the host's. *)
Theorem snapshot_reports ks bs raw_mouse ws :
  let self := __init__ ks bs raw_mouse in
  ∃ self' snaps,
    samples self ws = Some (self', snaps)
    ∧ keys self' = keys self ∧ mouse_buttons self' = mouse_buttons self
    ∧ Forall2 (reports (keys self) (mouse_buttons self)) ws snaps
    ∧ Forall (λ s,
        length (keys_vec s) = length (keys self)
        ∧ length (mouse_buttons_vec s) = length (mouse_buttons self)
        ∧ Forall (λ v, v = 0 ∨ v = 1) (keys_vec s)
        ∧ Forall (λ v, v = 0 ∨ v = 1) (mouse_buttons_vec s)
        ∧ (∀ k, k ∈ snap_keys s
                ↔ ∃ i, keys self !! i = Some k ∧ keys_vec s !! i = Some 1)
        ∧ (∀ b, b ∈ snap_mouse_buttons s
                ↔ ∃ i, mouse_buttons self !! i = Some b
                       ∧ mouse_buttons_vec s !! i = Some 1)) snaps.
Proof.
  cbv zeta.
  destruct (samples_report ws (__init__ ks bs raw_mouse) (init_ok ks bs raw_mouse))
    as (self' & snaps & Hs & Hk & Hb & Hr).
  exists self', snaps. split; [done|]. split; [done|]. split; [done|].
  split; [exact Hr|].
  assert (Hvec : ∀ (d : string → bool) names,
    let vec := (λ n, if d n then 1 else 0) <$> names in
    length vec = length names
    ∧ Forall (λ v, v = 0 ∨ v = 1) vec
    ∧ ∀ k, k ∈ filter (λ n, d n) names
           ↔ ∃ i, names !! i = Some k ∧ vec !! i = Some 1).
  { intros d names. cbv zeta. split; [by rewrite length_fmap|]. split.
    - apply Forall_fmap, Forall_forall. intros n _. cbn.
      destruct (d n); auto.
    - intros k. rewrite list_elem_of_filter. split.
      + intros [Hd [i Hi]%list_elem_of_lookup_1]. exists i.
        split; [done|]. rewrite list_lookup_fmap, Hi. cbn.
        by destruct (d k).
      + intros (i & Hi & Hv). rewrite list_lookup_fmap, Hi in Hv.
        cbn in Hv. split; [|by eapply list_elem_of_lookup_2].
        by destruct (d k). }
  eapply Forall2_Forall_r; [exact Hr|]. 
  apply Forall_forall. intros w _ s (-> & -> & -> & -> & _ & _).
  destruct (Hvec (down w VK_CODE)
              (keys (__init__ ks bs raw_mouse))) as (? & ? & ?).
  destruct (Hvec (down w MOUSE_BUTTON_VK)
              (mouse_buttons (__init__ ks bs raw_mouse))) as (? & ? & ?).
  done.
Qed.

End SamplerFurther.

Section Replay.
Import Py keymap.
Variable str_to_float : string → option pyfloat.
Local Abbreviation extract := (keyboard_mouse.extract str_to_float).

Lemma vector_replay (normalize : string → string) (known : string → bool)
    (d : string → bool) (names : list string) :
  Forall (λ n, known n = true ∧ normalize n = n) names →
  extract normalize known
    (keyboard_mouse.init_list normalize known (Some names))
    (OList (PInt <$> ((λ n, if d n then 1 else 0) <$> names)))
  = list_to_set (filter (λ n, d n) names).
Proof.
  intros Hn. rewrite init_list_fixed by done.
  destruct names as [|n0 names0] eqn:Hnames.
  { cbn [fmap list_fmap]. rewrite filter_nil. apply extract_nothing. }
  rewrite <- Hnames in *. clear Hnames.
  set (vs := PInt <$> ((λ n, if d n then 1 else 0) <$> names)).
  assert (Hnum : Forall (λ v, keyboard_mouse.numeric v = true) vs).
  { unfold vs. apply Forall_fmap, Forall_fmap, Forall_forall.
    intros n _. cbn. by destruct (d n). }
  assert (Hlen : length vs = length names).
  { unfold vs. by rewrite !length_fmap. }
  destruct (extract_vector str_to_float normalize known names (OList vs) vs
              (or_introl eq_refl) Hnum) as [Hx _].
  apply set_eq. intros k. rewrite (Hx Hlen k), elem_of_list_to_set.
  rewrite list_elem_of_filter. split.
  - intros (i & v & Hi & Hv & Hp). unfold vs in Hv.
    rewrite !list_lookup_fmap, Hi in Hv. cbn in Hv. injection Hv as <-.
    split; [|by eapply list_elem_of_lookup_2].
    by destruct (d k).
  - intros [Hd [i Hi]%list_elem_of_lookup_1].
    exists i, (PInt (if d k then 1 else 0)). split; [done|].
    unfold vs. rewrite !list_lookup_fmap, Hi. split; [done|].
    by destruct (d k).
Qed.

(** X23.  Recorded vectors replay.  Take a sampler built by the
    constructor and a controller built from the sampler's own lists.
    For every snapshot the sampler takes, the controller decodes the
    snapshot's key vector to exactly the set of keys the snapshot lists
    as pressed, and its button vector to exactly the pressed buttons. *)
Theorem recorded_vectors_replay ks bs raw_mouse SA PA dry bk c ws :
  let self := keyboard_mouse_state.__init__ ks bs raw_mouse in
  keyboard_mouse.__init__ SA PA dry bk
    (Some (keyboard_mouse_state.keys self))
    (Some (keyboard_mouse_state.mouse_buttons self)) = Some c →
  ∃ self' snaps,
    keyboard_mouse_state.samples self ws = Some (self', snaps)
    ∧ length snaps = length ws
    ∧ Forall (λ s,
        keyboard_mouse._extract_keys str_to_float c
          (OList (PInt <$> keyboard_mouse_state.keys_vec s))
        = list_to_set (keyboard_mouse_state.snap_keys s)
        ∧ keyboard_mouse._extract_buttons str_to_float c
            (OList (PInt <$> keyboard_mouse_state.mouse_buttons_vec s))
          = list_to_set (keyboard_mouse_state.snap_mouse_buttons s)) snaps.
Proof.
  cbv zeta. intros Hc.
  destruct (controller_lists _ _ _ _ _ _ _ Hc) as [Hkl Hbl].
  destruct (samples_report ws _ (init_ok ks bs raw_mouse))
    as (self' & snaps & Hs & _ & _ & Hr).
  exists self', snaps. split; [done|].
  split; [symmetry; by eapply Forall2_length|].
  destruct (init_ok ks bs raw_mouse) as [Hk Hb].
  eapply Forall2_Forall_r; [exact Hr|].
  apply Forall_forall. intros w _ s (Hkv & Hsk & Hbv & Hsb & _ & _).
  unfold keyboard_mouse._extract_keys, keyboard_mouse._extract_buttons.
  rewrite Hkl, Hbl, Hkv, Hsk, Hbv, Hsb. split; apply vector_replay.
  - eapply Forall_impl; [exact Hk|]. intros n Hn. split; [exact Hn|].
    apply known_key_canonical in Hn. by destruct Hn.
  - eapply Forall_impl; [exact Hb|]. intros n Hn.
    apply sampler_button_canonical in Hn as (Hf & _ & Hfix).
    split; [by apply bool_decide_eq_true|done].
Qed.

End Replay.

(** X23 at the keys [w a s d], the left button and a host with [w]
    down. *)
Lemma recorded_vectors_replay_witness :
  keyboard_mouse.__init__ true true false keyboard_mouse.sendinput
    (Some (keyboard_mouse_state.keys
             (keyboard_mouse_state.__init__ ["w"; "a"; "s"; "d"] ["left"]
                false)))
    (Some (keyboard_mouse_state.mouse_buttons
             (keyboard_mouse_state.__init__ ["w"; "a"; "s"; "d"] ["left"]
                false)))
  = Some examples.wasd_left
  ∧ ∃ self' snaps,
      keyboard_mouse_state.samples
        (keyboard_mouse_state.__init__ ["w"; "a"; "s"; "d"] ["left"] false)
        [examples.host_w_down] = Some (self', snaps)
      ∧ length snaps = length [examples.host_w_down]
      ∧ Forall (λ s,
          keyboard_mouse._extract_keys Py.decimal_float
            examples.wasd_left
            (Py.OList (Py.PInt <$> keyboard_mouse_state.keys_vec s))
          = list_to_set (keyboard_mouse_state.snap_keys s)
          ∧ keyboard_mouse._extract_buttons Py.decimal_float
              examples.wasd_left
              (Py.OList
                 (Py.PInt <$> keyboard_mouse_state.mouse_buttons_vec s))
            = list_to_set (keyboard_mouse_state.snap_mouse_buttons s)) snaps.
Proof.
  split; [vm_compute; reflexivity|].
  exact (recorded_vectors_replay Py.decimal_float
           ["w"; "a"; "s"; "d"] ["left"] false true true false
           keyboard_mouse.sendinput _ [examples.host_w_down]
           ltac:(vm_compute; reflexivity)).
Defined.

Section CursorDifferencing.
Import keymap keyboard_mouse_state.

Lemma triple_eq (a a' b b' c c' : Z) :
  a = a' → b = b' → c = c' → (a, b, c) = (a', b', c').
Proof. by intros -> -> ->. Qed.

Lemma sample_no_handle self w :
  configured_ok self → _raw_mouse self = false →
  ∃ self' s, sample self w = Some (self', s)
    ∧ configured_ok self' ∧ _raw_mouse self' = false
    ∧ _prev_pos self' = Some (GetCursorPos w)
    ∧ motion_of s = cursor_diff (_prev_pos self) (GetCursorPos w).
Proof.
  intros Hok Hraw.
  destruct (sample_total self w Hok) as (s & Hs & Hm & _).
  destruct (sample_ok self w _ s Hok Hs) as [Hok' Hraw'].
  eexists _, s. split; [exact Hs|]. split; [exact Hok'|].
  split; [congruence|].
  unfold sample_motion in Hm |- *. rewrite Hraw in Hm |- *.
  destruct (cursor_delta_diff self (GetCursorPos w).1 (GetCursorPos w).2)
    as [Hd Hp].
  rewrite Hm, Hd, Hp. by destruct (GetCursorPos w).
Qed.

Lemma samples_telescope ws : ∀ self pos,
  configured_ok self → _raw_mouse self = false →
  _prev_pos self = Some pos →
  ∃ self' snaps,
    samples self ws = Some (self', snaps)
    ∧ raw_input.total (motion_of <$> snaps)
      = cursor_diff (Some pos) (default pos (GetCursorPos <$> last ws))
    ∧ _prev_pos self' = Some (default pos (GetCursorPos <$> last ws)).
Proof.
  induction ws as [|w ws IH]; intros self pos Hok Hraw Hprev.
  - exists self, []. split; [done|]. split; [|done].
    cbn. by rewrite !Z.sub_diag.
  - destruct (sample_no_handle self w Hok Hraw)
      as (self1 & s & Hs & Hok1 & Hraw1 & Hprev1 & Hm).
    destruct (IH self1 (GetCursorPos w) Hok1 Hraw1 Hprev1)
      as (self' & snaps & Hss & Ht & Hp).
    exists self', (s :: snaps). cbn [samples]. rewrite Hs.
    cbn [mbind option_bind]. rewrite Hss. cbn [mbind option_bind].
    split; [done|].
    assert (Hlast : default pos (GetCursorPos <$> last (w :: ws))
                    = default (GetCursorPos w) (GetCursorPos <$> last ws)).
    { destruct ws as [|w' ws']; [done|]. rewrite last_cons.
      by destruct (last (w' :: ws')). }
    rewrite Hlast. split; [|exact Hp].
    cbn [fmap list_fmap]. rewrite total_cons, Ht, Hm, Hprev.
    cbn. apply triple_eq; lia.
Qed.

(** X24.  Cursor differencing telescopes.  For a sampler without a
    capture handle the first snapshot reports no motion, and over any
    run of samples the reported motions add up to the displacement of
    the cursor from the first sampled position to the last, whatever
    the positions in between; the wheel total is zero. *)
Theorem cursor_motion_telescopes ks bs w ws :
  ∃ self' snaps,
    samples (__init__ ks bs false) (w :: ws) = Some (self', snaps)
    ∧ motion_of <$> head snaps = Some (0, 0, 0)
    ∧ raw_input.total (motion_of <$> snaps)
      = ((GetCursorPos (default w (last ws))).1 - (GetCursorPos w).1,
         (GetCursorPos (default w (last ws))).2 - (GetCursorPos w).2, 0)
    ∧ _prev_pos self' = Some (GetCursorPos (default w (last ws))).
Proof.
  destruct (sample_no_handle (__init__ ks bs false) w (init_ok ks bs false)
              eq_refl) as (self1 & s & Hs & Hok1 & Hraw1 & Hprev1 & Hm).
  destruct (samples_telescope ws self1 (GetCursorPos w) Hok1 Hraw1 Hprev1)
    as (self' & snaps & Hss & Ht & Hp).
  exists self', (s :: snaps). cbn [samples]. rewrite Hs.
  cbn [mbind option_bind]. rewrite Hss. cbn [mbind option_bind].
  assert (Hl : default (GetCursorPos w) (GetCursorPos <$> last ws)
               = GetCursorPos (default w (last ws))).
  { by destruct (last ws). }
  rewrite Hl in Ht, Hp.
  split; [done|]. split; [cbn; by rewrite Hm|]. split; [|exact Hp].
  cbn [fmap list_fmap]. rewrite total_cons, Ht, Hm. cbn.
  apply triple_eq; lia.
Qed.

End CursorDifferencing.
